(** * Life in Weeks: the preview/apply client of [dist/app.js]

    A shallow embedding of the Tauri front end: the JavaScript built-ins the
    script relies on ([parseInt], [Number.prototype.toString], [Math.round],
    the binary64 operators, the regular expression of [formatNumber]), the
    state the script reads and writes (its three globals and the DOM elements
    it looks up), every function of the script split at its [await]s, and the
    event loop that interleaves user events with the settling of backend
    calls. *)

From Stdlib Require Import ZArith List String Ascii Bool Lia.
From Stdlib Require Import Floats.SpecFloat.
Import ListNotations.

Local Open Scope string_scope.
Local Open Scope Z_scope.

(** ** JavaScript values and built-ins *)

Module JS.

(** Strings are sequences of code units; the model covers the code units
    below 256, one [ascii] each. *)

Definition code (c : ascii) : Z := Z.of_nat (nat_of_ascii c).

(** Code units that [TrimString] strips: TAB, LF, VT, FF, CR, SP and NBSP are
    the members of WhiteSpace and LineTerminator below 256. *)
Definition isWhiteSpace (c : ascii) : bool :=
  let n := code c in
  ((9 <=? n) && (n <=? 13)) || (n =? 32) || (n =? 160).

Fixpoint trimStart (s : string) : string :=
  match s with
  | String c r => if isWhiteSpace c then trimStart r else s
  | EmptyString => s
  end.

(** The value of a code unit as a digit in radix [R], when it is one. *)
Definition digitValue (R : Z) (c : ascii) : option Z :=
  let n := code c in
  let v := if (48 <=? n) && (n <=? 57) then n - 48
           else if (97 <=? n) && (n <=? 122) then n - 87
           else if (65 <=? n) && (n <=? 90) then n - 55
           else R in
  if v <? R then Some v else None.

(** The digits of the longest prefix of [s] made of radix-[R] digits. *)
Fixpoint digitPrefix (R : Z) (s : string) : list Z :=
  match s with
  | String c r =>
      match digitValue R c with
      | Some d => d :: digitPrefix R r
      | None => []
      end
  | EmptyString => []
  end.

Definition mathInt (R : Z) (ds : list Z) : Z :=
  fold_left (fun acc d => acc * R + d) ds 0.

(** The Numbers the script turns into text or puts in a request come from
    [parseInt], from [Math.round] or from an integer field of the backend's
    JSON: each is NaN, an infinity, -0, or a binary64 value that is an
    integer.  [Int z] stands for the double whose value is exactly [z]. *)
Inductive Number :=
  | NaN
  | Infinity (negative : bool)
  | NegZero
  | Int (z : Z).

(** The Number value for a mathematical integer: round to nearest with 53
    significant bits, ties to even, and infinity from 2^1024 on. *)
Definition roundMagnitude (a : Z) : option Z :=
  let bits := Z.log2 a + 1 in
  if bits <=? 53 then Some a
  else
    let sh := bits - 53 in
    let q := a / 2 ^ sh in
    let r := a mod 2 ^ sh in
    let half := 2 ^ (sh - 1) in
    let q' := if r <? half then q
              else if half <? r then q + 1
              else if Z.even q then q else q + 1 in
    let v := q' * 2 ^ sh in
    if 2 ^ 1024 <=? v then None else Some v.

Definition numberOf (z : Z) : Number :=
  match roundMagnitude (Z.abs z) with
  | Some v => Int (Z.sgn z * v)
  | None => Infinity (z <? 0)
  end.

(** [ToBoolean] on Numbers: +0, -0 and NaN are falsy. *)
Definition ToBoolean (n : Number) : bool :=
  match n with
  | NaN | NegZero | Int 0 => false
  | _ => true
  end.

(** [x > 0] on Numbers. *)
Definition gtZero (n : Number) : bool :=
  match n with
  | Int z => 0 <? z
  | Infinity false => true
  | _ => false
  end.

(** [parseInt(string)] with no radix argument: leading white space is
    trimmed, one sign is read, a [0x] or [0X] prefix selects radix 16, the
    longest digit prefix is the value, and no digit at all is NaN.  (The
    approximation ECMAScript allows an engine past the twentieth decimal
    digit is not taken.) *)
Definition stripSign (s : string) : bool * string :=
  match s with
  | String "-" r => (true, r)
  | String "+" r => (false, r)
  | _ => (false, s)
  end.

Definition stripPrefix (s : string) : Z * string :=
  match s with
  | String "0" (String "x" r) => (16, r)
  | String "0" (String "X" r) => (16, r)
  | _ => (10, s)
  end.

Definition parseDigits (negative : bool) (R : Z) (s : string) : Number :=
  match digitPrefix R s with
  | [] => NaN
  | ds =>
      let m := mathInt R ds in
      if m =? 0 then (if negative then NegZero else Int 0)
      else numberOf (if negative then - m else m)
  end.

Definition parseInt (input : string) : Number :=
  let '(negative, S1) := stripSign (trimStart input) in
  let '(R, S2) := stripPrefix S1 in
  parseDigits negative R S2.

(** Decimal digits of a non-negative integer, most significant first. *)
Definition digitChar (d : Z) : ascii := ascii_of_nat (Z.to_nat (48 + d)).

Fixpoint digitsFuel (fuel : nat) (n : Z) (acc : string) : string :=
  match fuel with
  | O => acc
  | S f =>
      let acc' := String (digitChar (n mod 10)) acc in
      if n <? 10 then acc' else digitsFuel f (n / 10) acc'
  end.

Definition decimal (n : Z) : string :=
  digitsFuel (S (Z.to_nat (Z.log2 n))) n "".

Definition decimalLength (n : Z) : Z := Z.of_nat (String.length (decimal n)).

(** [Number::toString] needs [n], [k] and [s] with [k] least such that
    [s * 10^(n-k)] is read back as the same double; among the two
    candidates of a given [k] the one nearer the value is taken. *)
Definition shortestCandidate (a n k : Z) : option (Z * Z) :=
  let p := 10 ^ (n - k) in
  let lo := a / p in
  let hi := lo + 1 in
  let okLo := match roundMagnitude (lo * p) with
              | Some v => v =? a | None => false end in
  let okHi := match roundMagnitude (hi * p) with
              | Some v => v =? a | None => false end in
  let pick := if okLo && okHi
              then (if a - lo * p <=? hi * p - a then Some lo else Some hi)
              else if okLo then Some lo
              else if okHi then Some hi
              else None in
  match pick with
  | Some s => if s =? 10 ^ k then Some (10 ^ (k - 1), n + 1) else Some (s, n)
  | None => None
  end.

Fixpoint shortestFrom (fuel : nat) (a n k : Z) : Z * Z :=
  match fuel with
  | O => (a, n)
  | S f =>
      match shortestCandidate a n k with
      | Some sn => sn
      | None => shortestFrom f a n (k + 1)
      end
  end.

Definition exponential (a : Z) : string :=
  let '(s, n) := shortestFrom (Z.to_nat (decimalLength a)) a (decimalLength a) 1 in
  let ds := decimal s in
  let mantissa := match ds with
                  | String d EmptyString => ds
                  | String d r => String d (String "." r)
                  | EmptyString => ds
                  end in
  mantissa ++ "e+" ++ decimal (n - 1).

Definition shortestDigits (a : Z) : Z * Z :=
  shortestFrom (Z.to_nat (decimalLength a)) a (decimalLength a) 1.

Fixpoint zeros (n : nat) : string :=
  match n with
  | O => EmptyString
  | S m => String "0" (zeros m)
  end.

(** [Number::toString] in radix 10 of the magnitude of an integer: the [k]
    digits of [s] followed by [n - k] zeros when [n] is at most 21, the
    exponent form beyond. *)
Definition magnitudeToString (a : Z) : string :=
  let '(s, n) := shortestDigits a in
  if n <=? 21 then decimal s ++ zeros (Z.to_nat (n - decimalLength s))
  else exponential a.

Definition Number_toString (n : Number) : string :=
  match n with
  | NaN => "NaN"
  | Infinity false => "Infinity"
  | Infinity true => "-Infinity"
  | NegZero => "0"
  | Int z => if z <? 0 then "-" ++ magnitudeToString (- z) else magnitudeToString z
  end.

(** *** binary64 arithmetic *)

Definition float := spec_float.

Definition toFloat (n : Number) : float :=
  match n with
  | NaN => S754_nan
  | Infinity s => S754_infinity s
  | NegZero => S754_zero true
  | Int z => binary_normalize 53 1024 z 0 false
  end.

Definition fdiv : float -> float -> float := SFdiv 53 1024.
Definition fmul : float -> float -> float := SFmul 53 1024.

(** [Math.round]: the integer nearest to [x], ties towards +Infinity; a
    negative argument that rounds to zero gives -0. *)
Definition Math_round (x : float) : Number :=
  match x with
  | S754_nan => NaN
  | S754_infinity s => Infinity s
  | S754_zero s => if s then NegZero else Int 0
  | S754_finite s m e =>
      let v := if s then Zneg m else Zpos m in
      let r := if 0 <=? e then v * 2 ^ e
               else (2 * v + 2 ^ (- e)) / 2 ^ (1 - e) in
      if (r =? 0) && s then NegZero else Int r
  end.

(** *** The regular expression of [formatNumber] *)

Definition isDigit (c : ascii) : bool :=
  let n := code c in (48 <=? n) && (n <=? 57).

(** [\w]: letters, digits and underscore. *)
Definition isWord (c : ascii) : bool :=
  let n := code c in
  isDigit c || ((97 <=? n) && (n <=? 122)) || ((65 <=? n) && (n <=? 90))
  || (n =? 95).

Definition isWordAt (c : option ascii) : bool :=
  match c with Some a => isWord a | None => false end.

Definition headOf (s : string) : option ascii :=
  match s with String c _ => Some c | EmptyString => None end.

(** [(\d{3})+(?!\d)] anchored at the start of [s]: one or more groups of
    three digits, the last of them not followed by a digit. *)
Fixpoint groupsOfThree (s : string) : bool :=
  match s with
  | String a (String b (String c r)) =>
      isDigit a && isDigit b && isDigit c
      && (negb (match headOf r with Some d => isDigit d | None => false end)
          || groupsOfThree r)
  | _ => false
  end.

(** [\B(?=(\d{3})+(?!\d))] at the position between [prev] and [s]. *)
Definition commaHere (prev : option ascii) (s : string) : bool :=
  Bool.eqb (isWordAt prev) (isWordAt (headOf s)) && groupsOfThree s.

(** [replace(/\B(?=(\d{3})+(?!\d))/g, ',')]: a comma goes in at every
    position where the zero-width pattern matches. *)
Fixpoint replaceFrom (prev : option ascii) (s : string) : string :=
  let here := if commaHere prev s then "," else "" in
  match s with
  | String c r => here ++ String c (replaceFrom (Some c) r)
  | EmptyString => here
  end.

Definition insertCommas (s : string) : string := replaceFrom None s.

End JS.

(** ** The client of [dist/app.js] *)

Module App.
Import JS.

(** *** Data exchanged with the backend *)

(** The object [get_config] resolves with. *)
Record Config := {
  dob : option string;
  lifespan_years : Z;
  screen_width : Z;
  screen_height : Z;
  next_months : Z;
  schedule_installed : bool;
  theme : string;
  default_mode : string
}.

(** The object [generate_preview] resolves with. *)
Record PreviewResponse := {
  image_base64 : string;
  title : string;
  subtitle : string;
  elapsed_weeks : Z;
  remaining_weeks : Z;
  total_weeks : Z
}.

(** The object [buildRequest] returns; [None] is [null]. *)
Record Request := {
  req_mode : string;
  req_dob : option string;
  req_lifespan : option Number;
  req_months : option Number;
  req_theme : string;
  req_width : option Number;
  req_height : option Number
}.

(** The argument object of [save_config]. *)
Record SaveArgs := {
  save_dob : option string;
  save_lifespan : option Number;
  save_theme : string;
  save_width : option Number;
  save_height : option Number;
  save_defaultMode : string;
  save_months : option Number
}.

(** A call of [invoke]. *)
Inductive Invocation :=
  | get_config
  | generate_preview (request : Request)
  | set_wallpaper_cmd (request : Request)
  | toggle_schedule (enabled : bool)
  | save_config (args : SaveArgs).

(** How the promise of an [invoke] settles. *)
Inductive Outcome :=
  | Rejected (error : string)
  | ConfigResult (config : Config)
  | PreviewResult (response : PreviewResponse)
  | MessageResult (message : string)
  | NoResult.

(** The function suspended at an [await], with the locals it still needs. *)
Inductive Pending :=
  | AwaitConfig
  | AwaitPreview
  | AwaitWallpaper
  | AwaitSave
  | AwaitToggle (enabled : bool).

(** *** The page *)

(** A button: its [loading] class and its [disabled] property. *)
Record Button := { loading : bool; disabled : bool }.

(** A mode tab or theme button: its [data-mode] or [data-theme] attribute
    and its [active] class. *)
Record Tab := { dataset : string; active : bool }.

(** The [value] of the five inputs.  The markup that fixes the type of each
    control is not among the sources; a control is taken to hold the string
    last given to it. *)
Record Form := {
  dobInput : string;
  lifespanInput : string;
  monthsInput : string;
  widthInput : string;
  heightInput : string
}.

(** The preview pane: placeholder, image, captions and the three stats. *)
Record Preview := {
  previewPlaceholderHidden : bool;
  previewImageSrc : string;
  previewImageHidden : bool;
  previewTitle : string;
  previewSubtitle : string;
  statElapsed : string;
  statRemaining : string;
  statPercent : string
}.

(** The toast: the text of [toast-message] and the class list of [toast]. *)
Record Toast := { toastMessage : string; toastClasses : list string }.

(** [window.screen] and [window.devicePixelRatio]. *)
Record Screen := {
  screenWidth : Z;
  screenHeight : Z;
  devicePixelRatio : float
}.

Inductive LogEntry :=
  | console_log (label : string) (error : string)
  | console_error (label : string) (error : string).

(** The globals of the script ([currentMode], [currentTheme], [hasPreview]),
    the elements of [elements], and what the script leaves in its
    surroundings: console lines, backend calls made, toast timers running,
    and the calls still awaited. *)
Record Client := {
  currentMode : string;
  currentTheme : string;
  hasPreview : bool;
  modeTabs : list Tab;
  themeBtns : list Tab;
  form : Form;
  generateBtn : Button;
  setWallpaperBtn : Button;
  scheduleToggle : bool;
  preview : Preview;
  toast : Toast;
  lifeOnlyElements : list bool;
  monthsOnlyElements : list bool;
  screen : Screen;
  console : list LogEntry;
  invoked : list Invocation;
  timers : nat;
  pending : list Pending
}.

(** Field updates. *)

Definition set_currentMode (v : string) (s : Client) : Client :=
  Build_Client v (currentTheme s) (hasPreview s) (modeTabs s) (themeBtns s)
    (form s) (generateBtn s) (setWallpaperBtn s) (scheduleToggle s)
    (preview s) (toast s) (lifeOnlyElements s) (monthsOnlyElements s)
    (screen s) (console s) (invoked s) (timers s) (pending s).

Definition set_currentTheme (v : string) (s : Client) : Client :=
  Build_Client (currentMode s) v (hasPreview s) (modeTabs s) (themeBtns s)
    (form s) (generateBtn s) (setWallpaperBtn s) (scheduleToggle s)
    (preview s) (toast s) (lifeOnlyElements s) (monthsOnlyElements s)
    (screen s) (console s) (invoked s) (timers s) (pending s).

Definition set_hasPreview (v : bool) (s : Client) : Client :=
  Build_Client (currentMode s) (currentTheme s) v (modeTabs s) (themeBtns s)
    (form s) (generateBtn s) (setWallpaperBtn s) (scheduleToggle s)
    (preview s) (toast s) (lifeOnlyElements s) (monthsOnlyElements s)
    (screen s) (console s) (invoked s) (timers s) (pending s).

Definition set_modeTabs (v : list Tab) (s : Client) : Client :=
  Build_Client (currentMode s) (currentTheme s) (hasPreview s) v (themeBtns s)
    (form s) (generateBtn s) (setWallpaperBtn s) (scheduleToggle s)
    (preview s) (toast s) (lifeOnlyElements s) (monthsOnlyElements s)
    (screen s) (console s) (invoked s) (timers s) (pending s).

Definition set_themeBtns (v : list Tab) (s : Client) : Client :=
  Build_Client (currentMode s) (currentTheme s) (hasPreview s) (modeTabs s) v
    (form s) (generateBtn s) (setWallpaperBtn s) (scheduleToggle s)
    (preview s) (toast s) (lifeOnlyElements s) (monthsOnlyElements s)
    (screen s) (console s) (invoked s) (timers s) (pending s).

Definition set_form (v : Form) (s : Client) : Client :=
  Build_Client (currentMode s) (currentTheme s) (hasPreview s) (modeTabs s)
    (themeBtns s) v (generateBtn s) (setWallpaperBtn s) (scheduleToggle s)
    (preview s) (toast s) (lifeOnlyElements s) (monthsOnlyElements s)
    (screen s) (console s) (invoked s) (timers s) (pending s).

Definition set_generateBtn (v : Button) (s : Client) : Client :=
  Build_Client (currentMode s) (currentTheme s) (hasPreview s) (modeTabs s)
    (themeBtns s) (form s) v (setWallpaperBtn s) (scheduleToggle s)
    (preview s) (toast s) (lifeOnlyElements s) (monthsOnlyElements s)
    (screen s) (console s) (invoked s) (timers s) (pending s).

Definition set_setWallpaperBtn (v : Button) (s : Client) : Client :=
  Build_Client (currentMode s) (currentTheme s) (hasPreview s) (modeTabs s)
    (themeBtns s) (form s) (generateBtn s) v (scheduleToggle s) (preview s)
    (toast s) (lifeOnlyElements s) (monthsOnlyElements s) (screen s)
    (console s) (invoked s) (timers s) (pending s).

Definition set_scheduleToggle (v : bool) (s : Client) : Client :=
  Build_Client (currentMode s) (currentTheme s) (hasPreview s) (modeTabs s)
    (themeBtns s) (form s) (generateBtn s) (setWallpaperBtn s) v (preview s)
    (toast s) (lifeOnlyElements s) (monthsOnlyElements s) (screen s)
    (console s) (invoked s) (timers s) (pending s).

Definition set_preview (v : Preview) (s : Client) : Client :=
  Build_Client (currentMode s) (currentTheme s) (hasPreview s) (modeTabs s)
    (themeBtns s) (form s) (generateBtn s) (setWallpaperBtn s)
    (scheduleToggle s) v (toast s) (lifeOnlyElements s) (monthsOnlyElements s)
    (screen s) (console s) (invoked s) (timers s) (pending s).

Definition set_toast (v : Toast) (s : Client) : Client :=
  Build_Client (currentMode s) (currentTheme s) (hasPreview s) (modeTabs s)
    (themeBtns s) (form s) (generateBtn s) (setWallpaperBtn s)
    (scheduleToggle s) (preview s) v (lifeOnlyElements s)
    (monthsOnlyElements s) (screen s) (console s) (invoked s) (timers s)
    (pending s).

Definition set_lifeOnlyElements (v : list bool) (s : Client) : Client :=
  Build_Client (currentMode s) (currentTheme s) (hasPreview s) (modeTabs s)
    (themeBtns s) (form s) (generateBtn s) (setWallpaperBtn s)
    (scheduleToggle s) (preview s) (toast s) v (monthsOnlyElements s)
    (screen s) (console s) (invoked s) (timers s) (pending s).

Definition set_monthsOnlyElements (v : list bool) (s : Client) : Client :=
  Build_Client (currentMode s) (currentTheme s) (hasPreview s) (modeTabs s)
    (themeBtns s) (form s) (generateBtn s) (setWallpaperBtn s)
    (scheduleToggle s) (preview s) (toast s) (lifeOnlyElements s) v (screen s)
    (console s) (invoked s) (timers s) (pending s).

Definition set_console (v : list LogEntry) (s : Client) : Client :=
  Build_Client (currentMode s) (currentTheme s) (hasPreview s) (modeTabs s)
    (themeBtns s) (form s) (generateBtn s) (setWallpaperBtn s)
    (scheduleToggle s) (preview s) (toast s) (lifeOnlyElements s)
    (monthsOnlyElements s) (screen s) v (invoked s) (timers s) (pending s).

Definition set_invoked (v : list Invocation) (s : Client) : Client :=
  Build_Client (currentMode s) (currentTheme s) (hasPreview s) (modeTabs s)
    (themeBtns s) (form s) (generateBtn s) (setWallpaperBtn s)
    (scheduleToggle s) (preview s) (toast s) (lifeOnlyElements s)
    (monthsOnlyElements s) (screen s) (console s) v (timers s) (pending s).

Definition set_timers (v : nat) (s : Client) : Client :=
  Build_Client (currentMode s) (currentTheme s) (hasPreview s) (modeTabs s)
    (themeBtns s) (form s) (generateBtn s) (setWallpaperBtn s)
    (scheduleToggle s) (preview s) (toast s) (lifeOnlyElements s)
    (monthsOnlyElements s) (screen s) (console s) (invoked s) v (pending s).

Definition set_pending (v : list Pending) (s : Client) : Client :=
  Build_Client (currentMode s) (currentTheme s) (hasPreview s) (modeTabs s)
    (themeBtns s) (form s) (generateBtn s) (setWallpaperBtn s)
    (scheduleToggle s) (preview s) (toast s) (lifeOnlyElements s)
    (monthsOnlyElements s) (screen s) (console s) (invoked s) (timers s) v.

(** *** The functions of the script *)

(** [updateModeVisibility] *)
Definition updateModeVisibility (s : Client) : Client :=
  let isLifeMode := String.eqb (currentMode s) "life" in
  let isMonthsMode := String.eqb (currentMode s) "next-months" in
  set_monthsOnlyElements
    (map (fun _ => negb isMonthsMode) (monthsOnlyElements s))
    (set_lifeOnlyElements
       (map (fun _ => negb isLifeMode) (lifeOnlyElements s)) s).

(** [showToast]: the class name becomes [toast show <type>] and a timer is
    started that removes [show]. *)
Definition showToast (message type : string) (s : Client) : Client :=
  set_timers (S (timers s))
    (set_toast {| toastMessage := message;
                  toastClasses := ["toast"; "show"; type] |} s).

(** The callback of that timer. *)
Definition hideToast (s : Client) : Client :=
  set_toast {| toastMessage := toastMessage (toast s);
               toastClasses :=
                 filter (fun c => negb (String.eqb c "show"))
                        (toastClasses (toast s)) |} s.

(** [detectScreenResolution] *)
Definition detectScreenResolution (s : Client) : Client :=
  let width := fmul (toFloat (numberOf (screenWidth (screen s))))
                    (devicePixelRatio (screen s)) in
  let height := fmul (toFloat (numberOf (screenHeight (screen s))))
                     (devicePixelRatio (screen s)) in
  let f := form s in
  showToast "Screen resolution detected" "success"
    (set_form {| dobInput := dobInput f;
                 lifespanInput := lifespanInput f;
                 monthsInput := monthsInput f;
                 widthInput := Number_toString (Math_round width);
                 heightInput := Number_toString (Math_round height) |} s).

(** [x || null] for a Number and for a string. *)
Definition orNull (n : Number) : option Number :=
  if ToBoolean n then Some n else None.

Definition orNullString (v : string) : option string :=
  if String.eqb v "" then None else Some v.

(** [buildRequest] *)
Definition buildRequest (s : Client) : Request :=
  {| req_mode := currentMode s;
     req_dob := orNullString (dobInput (form s));
     req_lifespan := orNull (parseInt (lifespanInput (form s)));
     req_months := orNull (parseInt (monthsInput (form s)));
     req_theme := currentTheme s;
     req_width := orNull (parseInt (widthInput (form s)));
     req_height := orNull (parseInt (heightInput (form s))) |}.

(** The argument [saveConfig] passes to [save_config]. *)
Definition saveArgs (s : Client) : SaveArgs :=
  {| save_dob := orNullString (dobInput (form s));
     save_lifespan := orNull (parseInt (lifespanInput (form s)));
     save_theme := currentTheme s;
     save_width := orNull (parseInt (widthInput (form s)));
     save_height := orNull (parseInt (heightInput (form s)));
     save_defaultMode := currentMode s;
     save_months := orNull (parseInt (monthsInput (form s))) |}.

(** [formatNumber] *)
Definition formatNumber (num : Number) : string :=
  insertCommas (Number_toString num).

(** The percentage [generatePreview] shows. *)
Definition percent (response : PreviewResponse) : Number :=
  if gtZero (numberOf (total_weeks response))
  then Math_round
         (fmul (fdiv (toFloat (numberOf (elapsed_weeks response)))
                     (toFloat (numberOf (total_weeks response))))
               (toFloat (Int 100)))
  else Int 0.

(** [invoke]: the call is recorded and its continuation is parked. *)
Definition invoke (call : Invocation) (k : Pending) (s : Client) : Client :=
  set_pending (pending s ++ [k]) (set_invoked (invoked s ++ [call]) s).

Definition log (e : LogEntry) (s : Client) : Client :=
  set_console (console s ++ [e]) s.

(** [generatePreview] up to its [await]. *)
Definition generatePreview (s : Client) : Client :=
  let s1 := set_generateBtn {| loading := true; disabled := true |} s in
  invoke (generate_preview (buildRequest s1)) AwaitPreview s1.

(** The [finally] block of [generatePreview]. *)
Definition generatePreview_finally (s : Client) : Client :=
  set_generateBtn {| loading := false; disabled := false |} s.

(** [generatePreview] after [generate_preview] resolved. *)
Definition generatePreview_resolved (response : PreviewResponse) (s : Client)
  : Client :=
  let p :=
    {| previewPlaceholderHidden := true;
       previewImageSrc := "data:image/png;base64," ++ image_base64 response;
       previewImageHidden := false;
       previewTitle := title response;
       previewSubtitle := subtitle response;
       statElapsed := formatNumber (numberOf (elapsed_weeks response));
       statRemaining := formatNumber (numberOf (remaining_weeks response));
       statPercent := Number_toString (percent response) ++ "%" |} in
  let s1 := set_preview p s in
  let s2 := set_setWallpaperBtn
              {| loading := loading (setWallpaperBtn s1); disabled := false |}
              s1 in
  let s3 := set_hasPreview true s2 in
  generatePreview_finally (showToast "Preview generated!" "success" s3).

(** [generatePreview] after [generate_preview] rejected. *)
Definition generatePreview_rejected (error : string) (s : Client) : Client :=
  generatePreview_finally
    (log (console_error "Generate preview error:" error)
       (showToast ("Error: " ++ error) "error" s)).

(** [setWallpaper] up to its first [await]. *)
Definition setWallpaper (s : Client) : Client :=
  let s1 := set_setWallpaperBtn {| loading := true; disabled := true |} s in
  invoke (set_wallpaper_cmd (buildRequest s1)) AwaitWallpaper s1.

Definition setWallpaper_finally (s : Client) : Client :=
  set_setWallpaperBtn {| loading := false; disabled := false |} s.

(** [saveConfig] up to its [await], entered from [setWallpaper] once
    [set_wallpaper_cmd] resolved. *)
Definition saveConfig (s : Client) : Client :=
  invoke (save_config (saveArgs s)) AwaitSave s.

Definition setWallpaper_resolved (message : string) (s : Client) : Client :=
  saveConfig s.

Definition setWallpaper_rejected (error : string) (s : Client) : Client :=
  setWallpaper_finally
    (log (console_error "Set wallpaper error:" error)
       (showToast ("Error: " ++ error) "error" s)).

(** [saveConfig] after [save_config] settled: a rejection is caught and
    logged there; then [setWallpaper] goes on after its [await saveConfig()]. *)
Definition saveConfig_settled (o : Outcome) (s : Client) : Client :=
  match o with
  | Rejected error => log (console_error "Save config error:" error) s
  | _ => s
  end.

Definition setWallpaper_saved (o : Outcome) (s : Client) : Client :=
  setWallpaper_finally
    (showToast "Wallpaper set successfully!" "success"
       (saveConfig_settled o s)).

(** [toggleSchedule] up to its [await]; [enabled] is kept for the [catch]. *)
Definition toggleSchedule (s : Client) : Client :=
  let enabled := scheduleToggle s in
  invoke (toggle_schedule enabled) (AwaitToggle enabled) s.

Definition toggleSchedule_resolved (message : string) (s : Client) : Client :=
  showToast message "success" s.

Definition toggleSchedule_rejected (enabled : bool) (error : string)
  (s : Client) : Client :=
  log (console_error "Toggle schedule error:" error)
    (showToast ("Error: " ++ error) "error"
       (set_scheduleToggle (negb enabled) s)).

(** [classList.toggle('active', el.dataset.x === current)] on every element. *)
Definition markActive (current : string) (tabs : list Tab) : list Tab :=
  map (fun t => {| dataset := dataset t;
                   active := String.eqb (dataset t) current |}) tabs.

(** The [try] block of [loadConfig] after [get_config] resolved. *)
Definition loadConfig_resolved (config : Config) (s : Client) : Client :=
  let f := form s in
  let dob' := match dob config with
              | Some d => if String.eqb d "" then dobInput f else d
              | None => dobInput f
              end in
  let s1 :=
    set_form {| dobInput := dob';
                lifespanInput := Number_toString (numberOf (lifespan_years config));
                monthsInput := Number_toString (numberOf (next_months config));
                widthInput := Number_toString (numberOf (screen_width config));
                heightInput := Number_toString (numberOf (screen_height config)) |}
      s in
  let s2 := set_scheduleToggle (schedule_installed config) s1 in
  let s3 := set_currentTheme (theme config) s2 in
  let s4 := set_themeBtns (markActive (currentTheme s3) (themeBtns s3)) s3 in
  if String.eqb (default_mode config) "" then s4
  else
    let s5 := set_currentMode (default_mode config) s4 in
    let s6 := set_modeTabs (markActive (currentMode s5) (modeTabs s5)) s5 in
    updateModeVisibility s6.

(** The [catch] block of [loadConfig]. *)
Definition loadConfig_rejected (error : string) (s : Client) : Client :=
  log (console_log "Could not load config, using defaults:" error) s.

(** [loadConfig] up to its [await]. *)
Definition loadConfig (s : Client) : Client :=
  invoke get_config AwaitConfig s.

(** [init] up to [await loadConfig()]; the listeners of
    [setupEventListeners] are in place from here on. *)
Definition init (s : Client) : Client :=
  loadConfig s.

(** [init] after [loadConfig] returned. *)
Definition init_resume (s : Client) : Client :=
  detectScreenResolution (updateModeVisibility s).

(** *** Events *)

Inductive Field := Dob | Lifespan | Months | Width | Height.

Definition setField (f : Field) (v : string) (s : Client) : Client :=
  let fm := form s in
  set_form
    {| dobInput := match f with Dob => v | _ => dobInput fm end;
       lifespanInput := match f with Lifespan => v | _ => lifespanInput fm end;
       monthsInput := match f with Months => v | _ => monthsInput fm end;
       widthInput := match f with Width => v | _ => widthInput fm end;
       heightInput := match f with Height => v | _ => heightInput fm end |} s.

(** The inputs [setupEventListeners] puts a [change] listener on. *)
Definition autoGenerates (f : Field) : bool :=
  match f with
  | Dob | Lifespan | Months => true
  | Width | Height => false
  end.

(** What the user, the backend and the timers can do to the page. *)
Inductive Event :=
  | ClickModeTab (i : nat)
  | ClickThemeBtn (i : nat)
  | ClickDetectResolution
  | ClickGenerate
  | ClickSetWallpaper
  | ChangeSchedule
  | Change (f : Field) (value : string)
  | Settle (i : nat) (o : Outcome)
  | Timeout.

(** The click listener of a mode tab or theme button: every element loses
    [active], then the clicked one gets it. *)
Definition deactivate (t : Tab) : Tab :=
  {| dataset := dataset t; active := false |}.

Fixpoint activateAt (i : nat) (tabs : list Tab) : list Tab :=
  match tabs, i with
  | [], _ => []
  | t :: r, O => {| dataset := dataset t; active := true |} :: r
  | t :: r, S j => t :: activateAt j r
  end.

Definition clickModeTab (i : nat) (tab : Tab) (s : Client) : Client :=
  updateModeVisibility
    (set_currentMode (dataset tab)
       (set_modeTabs (activateAt i (map deactivate (modeTabs s))) s)).

Definition clickThemeBtn (i : nat) (btn : Tab) (s : Client) : Client :=
  set_currentTheme (dataset btn)
    (set_themeBtns (activateAt i (map deactivate (themeBtns s))) s).

(** The [change] listener of the date, lifespan and months inputs. *)
Definition inputChanged (s : Client) : Client :=
  if hasPreview s then generatePreview s else s.

Definition removeNth {A : Type} (i : nat) (l : list A) : list A :=
  firstn i l ++ skipn (S i) l.

(** The continuation of a settled call. *)
Definition settle (p : Pending) (o : Outcome) (s : Client) : option Client :=
  match p, o with
  | AwaitConfig, ConfigResult config =>
      Some (init_resume (loadConfig_resolved config s))
  | AwaitConfig, Rejected error =>
      Some (init_resume (loadConfig_rejected error s))
  | AwaitPreview, PreviewResult response =>
      Some (generatePreview_resolved response s)
  | AwaitPreview, Rejected error => Some (generatePreview_rejected error s)
  | AwaitWallpaper, MessageResult message =>
      Some (setWallpaper_resolved message s)
  | AwaitWallpaper, Rejected error => Some (setWallpaper_rejected error s)
  | AwaitSave, NoResult => Some (setWallpaper_saved o s)
  | AwaitSave, Rejected _ => Some (setWallpaper_saved o s)
  | AwaitToggle _, MessageResult message =>
      Some (toggleSchedule_resolved message s)
  | AwaitToggle enabled, Rejected error =>
      Some (toggleSchedule_rejected enabled error s)
  | _, _ => None
  end.

(** One turn of the event loop: the listener [setupEventListeners] has
    installed for a user event, the continuation of a settled call, or the
    callback of a timer.  [None] when the event cannot happen (a click on a
    disabled button, a tab or a call that does not exist, a result of the
    wrong kind, no timer running). *)
Definition handle (ev : Event) (s : Client) : option Client :=
  match ev with
  | ClickModeTab i =>
      match nth_error (modeTabs s) i with
      | Some tab => Some (clickModeTab i tab s)
      | None => None
      end
  | ClickThemeBtn i =>
      match nth_error (themeBtns s) i with
      | Some btn => Some (clickThemeBtn i btn s)
      | None => None
      end
  | ClickDetectResolution => Some (detectScreenResolution s)
  | ClickGenerate =>
      if disabled (generateBtn s) then None else Some (generatePreview s)
  | ClickSetWallpaper =>
      if disabled (setWallpaperBtn s) then None else Some (setWallpaper s)
  | ChangeSchedule =>
      Some (toggleSchedule (set_scheduleToggle (negb (scheduleToggle s)) s))
  | Change f value =>
      let s1 := setField f value s in
      Some (if autoGenerates f then inputChanged s1 else s1)
  | Settle i o =>
      match nth_error (pending s) i with
      | Some p => settle p o (set_pending (removeNth i (pending s)) s)
      | None => None
      end
  | Timeout =>
      match timers s with
      | O => None
      | S n => Some (hideToast (set_timers n s))
      end
  end.

Fixpoint run (evs : list Event) (s : Client) : option Client :=
  match evs with
  | [] => Some s
  | ev :: rest =>
      match handle ev s with
      | Some s' => run rest s'
      | None => None
      end
  end.

(** Loading the script on a page: the three globals get their initial
    values and [init] runs up to its [await]. *)
Definition load (page : Client) : Client :=
  init
    (set_pending []
       (set_timers O
          (set_invoked []
             (set_console []
                (set_hasPreview false
                   (set_currentTheme "dark"
                      (set_currentMode "year-end" page))))))).

(** The settling of a [generate_preview] call with a response. *)
Definition previewSucceeds (ev : Event) (s : Client) : bool :=
  match ev with
  | Settle i (PreviewResult _) =>
      match nth_error (pending s) i with
      | Some AwaitPreview => true
      | _ => false
      end
  | _ => false
  end.

End App.

(** ** What the specification says, in its own words *)

Module Spec.
Import JS App.

(** A positive integer string: one or more decimal digits whose value is
    above zero. *)
Fixpoint allDigits (s : string) : bool :=
  match s with
  | String c r => isDigit c && allDigits r
  | EmptyString => true
  end.

Fixpoint valueFrom (acc : Z) (s : string) : Z :=
  match s with
  | String c r => valueFrom (acc * 10 + (code c - 48)) r
  | EmptyString => acc
  end.

Definition decimalValue (s : string) : Z := valueFrom 0 s.

Definition positiveIntegerString (s : string) : bool :=
  negb (String.eqb s "") && allDigits s && (0 <? decimalValue s).

(** [parseField]: null for the empty string and for anything that is not a
    positive integer string, [parseInt] otherwise. *)
Definition parseField (s : string) : option Number :=
  if positiveIntegerString s then Some (parseInt s) else None.

(** [computePercent]: 0 when [total] is 0, else [elapsed / total * 100]
    rounded to the nearest integer, halves upwards as [Math.round] does. *)
Definition computePercent (elapsed total : Z) : Z :=
  if total =? 0 then 0 else (200 * elapsed + total) / (2 * total).

(** The request a [Config] stands for when every field of it is carried
    over unmodified. *)
Definition requestOf (c : Config) : Request :=
  {| req_mode := default_mode c;
     req_dob := dob c;
     req_lifespan := Some (numberOf (lifespan_years c));
     req_months := Some (numberOf (next_months c));
     req_theme := theme c;
     req_width := Some (numberOf (screen_width c));
     req_height := Some (numberOf (screen_height c)) |}.

End Spec.

(** ** Sample data *)

Module Sample.
Import JS App.

(** The double 1. *)
Definition one : float := S754_finite false 4503599627370496 (-52).

(** A page as an [index.html] would give it: empty inputs, the wallpaper
    button disabled, nothing previewed. *)
Definition page : Client :=
  {| currentMode := "";
     currentTheme := "";
     hasPreview := false;
     modeTabs := [ {| dataset := "life"; active := false |};
                   {| dataset := "year-end"; active := true |};
                   {| dataset := "next-months"; active := false |} ];
     themeBtns := [ {| dataset := "dark"; active := true |};
                    {| dataset := "terminal"; active := false |};
                    {| dataset := "minimal"; active := false |};
                    {| dataset := "sunset"; active := false |} ];
     form := {| dobInput := ""; lifespanInput := "80"; monthsInput := "6";
                widthInput := "1920"; heightInput := "1080" |};
     generateBtn := {| loading := false; disabled := false |};
     setWallpaperBtn := {| loading := false; disabled := true |};
     scheduleToggle := false;
     preview := {| previewPlaceholderHidden := false;
                   previewImageSrc := "";
                   previewImageHidden := true;
                   previewTitle := "";
                   previewSubtitle := "";
                   statElapsed := "-";
                   statRemaining := "-";
                   statPercent := "-" |};
     toast := {| toastMessage := ""; toastClasses := ["toast"] |};
     lifeOnlyElements := [true];
     monthsOnlyElements := [true];
     screen := {| screenWidth := 1280; screenHeight := 720;
                  devicePixelRatio := one |};
     console := [];
     invoked := [];
     timers := O;
     pending := [] |}.

(** The example configuration of the README. *)
Definition config : Config :=
  {| dob := Some "1995-03-20";
     lifespan_years := 80;
     screen_width := 1920;
     screen_height := 1080;
     next_months := 6;
     schedule_installed := false;
     theme := "dark";
     default_mode := "life" |}.

Definition response : PreviewResponse :=
  {| image_base64 := "iVBORw0KGgo=";
     title := "Life in Weeks";
     subtitle := "1000 of 4160";
     elapsed_weeks := 1000;
     remaining_weeks := 3160;
     total_weeks := 4160 |}.

(** A response whose percentage is exactly halfway: 23 of 40 is 57.5%. *)
Definition halfway : PreviewResponse :=
  {| image_base64 := "iVBORw0KGgo=";
     title := "Next 9 Months";
     subtitle := "23 of 40";
     elapsed_weeks := 23;
     remaining_weeks := 17;
     total_weeks := 40 |}.

End Sample.

(** ** The download links of the website script *)

Module Website.

(** A release asset as the GitHub API lists it. *)
Record Asset := { name : string; browser_download_url : string }.

(** [assets.find(asset => pattern.test(asset.name))]; a pattern is taken by
    what its [test] answers on a name. *)
Fixpoint find (test : string -> bool) (assets : list Asset) : option Asset :=
  match assets with
  | [] => None
  | asset :: rest => if test (name asset) then Some asset else find test rest
  end.

(** [pickAsset] *)
Fixpoint pickAsset (assets : list Asset) (patterns : list (string -> bool))
  : option Asset :=
  match patterns with
  | [] => None
  | pattern :: rest =>
      match find pattern assets with
      | Some found => Some found
      | None => pickAsset assets rest
      end
  end.

(** [toLowerCase] on code units below 256: the letters A-Z and the
    capitals from U+00C0 to U+00DE, the multiplication sign apart, move up
    by 32. *)
Definition lowerChar (c : ascii) : ascii :=
  let n := JS.code c in
  if ((65 <=? n) && (n <=? 90))
     || ((192 <=? n) && (n <=? 222) && negb (n =? 215))
  then ascii_of_nat (Z.to_nat (n + 32))
  else c.

Fixpoint toLowerCase (s : string) : string :=
  match s with
  | String c r => String (lowerChar c) (toLowerCase r)
  | EmptyString => EmptyString
  end.

(** [s.startsWith(t)] and [s.includes(t)]. *)
Fixpoint startsWith (s t : string) : bool :=
  match t, s with
  | EmptyString, _ => true
  | String b t', String a s' => Ascii.eqb a b && startsWith s' t'
  | String _ _, EmptyString => false
  end.

Fixpoint includes (s t : string) : bool :=
  startsWith s t
  || match s with
     | String _ s' => includes s' t
     | EmptyString => false
     end.

(** [navigator.userAgentData], when the browser has it. *)
Record UserAgentData := {
  uaPlatform : option string;
  uaArchitecture : option string
}.

(** What [detectPlatform] reads of [navigator]. *)
Record Navigator := {
  userAgent : string;
  platform : option string;
  userAgentData : option UserAgentData
}.

(** [detectPlatform] *)
Definition detectPlatform (navigator : Navigator) : string :=
  let ua := toLowerCase (userAgent navigator) in
  let platform := match platform navigator with
                  | Some p => toLowerCase p
                  | None => ""
                  end in
  if includes ua "win" || includes platform "win" then "windows"
  else if includes ua "mac" || includes platform "mac" then
    let isARM :=
      includes ua "arm"
      || match userAgentData navigator with
         | Some data =>
             match uaPlatform data, uaArchitecture data with
             | Some p, Some a => String.eqb p "macOS" && String.eqb a "arm"
             | _, _ => false
             end
         | None => false
         end in
    if isARM then "macos-arm" else "macos"
  else if includes ua "linux" || includes platform "linux" then "linux"
  else "unknown".

End Website.

(** ** Notions the statements below are phrased with *)

Import JS App.

(** The toast [showToast] leaves for an error and for a success. *)
Definition errorToast (error : string) : Toast :=
  {| toastMessage := "Error: " ++ error;
     toastClasses := ["toast"; "show"; "error"] |}.

Definition successToast (message : string) : Toast :=
  {| toastMessage := message;
     toastClasses := ["toast"; "show"; "success"] |}.

(** The text [detectScreenResolution] puts in the width and height inputs. *)
Definition detected (pixels : Z) (sc : Screen) : string :=
  Number_toString
    (Math_round (fmul (toFloat (numberOf pixels)) (devicePixelRatio sc))).

(** While the set-wallpaper button is enabled, or a [setWallpaper] call is
    under way, a preview has been shown. *)
Definition wallpaperGuard (s : Client) : Prop :=
  (disabled (setWallpaperBtn s) = false -> hasPreview s = true)
  /\ (In AwaitWallpaper (pending s) -> hasPreview s = true)
  /\ (In AwaitSave (pending s) -> hasPreview s = true).

(** The rational [num / den] lies at mantissa [m] and location [l]: it is
    [m] exactly, or strictly between [m] and [m + 1] and below, at or above
    their midpoint. *)
Definition located (m : Z) (l : location) (num den : Z) : Prop :=
  match l with
  | loc_Exact => num = m * den
  | loc_Inexact c =>
      m * den < num < (m + 1) * den /\ (2 * (num - m * den) ?= den) = c
  end.

(** The mode-specific groups show what [currentMode] asks for: a life-only
    element is hidden exactly when the mode is not [life], a months-only
    element exactly when it is not [next-months]. *)
Definition modeVisibility (s : Client) : Prop :=
  Forall (fun hidden => hidden = negb (String.eqb (currentMode s) "life"))
         (lifeOnlyElements s)
  /\ Forall (fun hidden =>
               hidden = negb (String.eqb (currentMode s) "next-months"))
            (monthsOnlyElements s).

(** The calls whose rejection ends in an error toast. *)
Definition actionFailed (p : Pending) (o : Outcome) : bool :=
  match p, o with
  | AwaitPreview, Rejected _ => true
  | AwaitWallpaper, Rejected _ => true
  | AwaitToggle _, Rejected _ => true
  | _, _ => false
  end.

(** Thousands separators: a comma goes after a character when the
    characters that follow are a positive multiple of three in number. *)
Definition groupEnds (s : string) : bool :=
  negb (Nat.eqb (String.length s) 0) && Nat.eqb (String.length s mod 3) 0.

Fixpoint groupThousands (s : string) : string :=
  match s with
  | String c r =>
      String c (if groupEnds r then String "," (groupThousands r)
                else groupThousands r)
  | EmptyString => EmptyString
  end.

(** [replace(/,/g, '')] *)
Fixpoint stripCommas (s : string) : string :=
  match s with
  | String c r => if Ascii.eqb c "," then stripCommas r
                  else String c (stripCommas r)
  | EmptyString => EmptyString
  end.


(** ** Tactics *)

(** Case analysis on a decimal digit, from a lemma listing the ten. *)
Ltac digit_cases_by cases H :=
  apply cases in H; cbn [In] in H;
  repeat (destruct H as [H | H]; [subst | ]); [.. | contradiction].

(** Comparisons on [Z] as order facts, in the hypotheses and the goal. *)
Ltac compare_to_order :=
  repeat match goal with
  | H : _ /\ _ |- _ => destruct H
  | H : Z.compare _ _ = Lt |- _ => apply (proj1 (Z.compare_lt_iff _ _)) in H
  | H : Z.compare _ _ = Gt |- _ => apply (proj1 (Z.compare_gt_iff _ _)) in H
  | H : Z.compare _ _ = Eq |- _ => apply (proj1 (Z.compare_eq_iff _ _)) in H
  | |- _ /\ _ => split
  | |- Z.compare _ _ = Lt => apply (proj2 (Z.compare_lt_iff _ _))
  | |- Z.compare _ _ = Gt => apply (proj2 (Z.compare_gt_iff _ _))
  | |- Z.compare _ _ = Eq => apply (proj2 (Z.compare_eq_iff _ _))
  end.

(** Linear arithmetic with the powers of two of binary64 written out. *)
Ltac pow_lia :=
  change (2 ^ 52) with 4503599627370496 in *;
  change (2 ^ 53) with 9007199254740992 in *;
  change (2 ^ 54) with 18014398509481984 in *;
  change (2 ^ 104) with 20282409603651670423947251286016 in *;
  change (2 ^ 105) with 40564819207303340847894502572032 in *;
  change (2 ^ 106) with 81129638414606681695789005144064 in *;
  lia.

(** ** Facts about the built-ins *)


(** *** The built-ins on sample inputs *)

Example parseInt_samples :
  parseInt "80" = Int 80
  /\ parseInt "  42" = Int 42
  /\ parseInt "12abc" = Int 12
  /\ parseInt "3.7" = Int 3
  /\ parseInt "1e3" = Int 1
  /\ parseInt "-5" = Int (-5)
  /\ parseInt "+7" = Int 7
  /\ parseInt "0x1F" = Int 31
  /\ parseInt "0" = Int 0
  /\ parseInt "-0" = NegZero
  /\ parseInt "" = NaN
  /\ parseInt "abc" = NaN
  /\ parseInt "9007199254740993" = Int 9007199254740992.
Proof. repeat split. Qed.

Example Number_toString_samples :
  Number_toString (Int 1280) = "1280"
  /\ Number_toString (Int (-12)) = "-12"
  /\ Number_toString NegZero = "0"
  /\ Number_toString (Int (10 ^ 21)) = "1e+21"
  /\ Number_toString (Int (2 ^ 70)) = "1.1805916207174113e+21"
  /\ Number_toString (numberOf (10 ^ 23)) = "1e+23".
Proof. repeat split; vm_compute; reflexivity. Qed.

(** From 2^54 on the shortest digits that read back as the same double are
    fewer than the digits of the value, and zeros fill the rest. *)
Example Number_toString_shortest_samples :
  Number_toString (Int (2 ^ 53)) = "9007199254740992"
  /\ Number_toString (Int (2 ^ 54 + 4)) = "18014398509481988"
  /\ Number_toString (Int (2 ^ 55)) = "36028797018963970"
  /\ Number_toString (Int (2 ^ 64)) = "18446744073709552000"
  /\ Number_toString (Int (- 2 ^ 64)) = "-18446744073709552000"
  /\ Number_toString (numberOf 123456789012345678901) = "123456789012345680000"
  /\ Number_toString (Int (10 ^ 21 - 131072)) = "999999999999999900000"
  /\ formatNumber (Int (2 ^ 64)) = "18,446,744,073,709,552,000".
Proof. repeat split; vm_compute; reflexivity. Qed.

Example formatNumber_samples :
  formatNumber (Int 0) = "0"
  /\ formatNumber (Int 999) = "999"
  /\ formatNumber (Int 1000) = "1,000"
  /\ formatNumber (Int 3160) = "3,160"
  /\ formatNumber (Int 1234567) = "1,234,567"
  /\ formatNumber (Int (-123456)) = "-123,456".
Proof. repeat split; vm_compute; reflexivity. Qed.

(** [numberOf] rounds as binary64 does: [Math.round] of the double that
    [binary_normalize] gives for an integer is the same Number. *)
Example numberOf_samples :
  Forall (fun z => Math_round (binary_normalize 53 1024 z 0 false) = numberOf z)
    [0; 1; -1; 4160; 2 ^ 53 - 1; 2 ^ 53; 2 ^ 53 + 1; 2 ^ 53 + 2; 2 ^ 53 + 3;
     - (2 ^ 53 + 1); 2 ^ 54 + 2; 2 ^ 54 + 6; 10 ^ 21; 10 ^ 23; 2 ^ 70 + 2 ^ 17;
     2 ^ 1024 - 2 ^ 970 - 1; 2 ^ 1024 - 2 ^ 970; 2 ^ 1024; - 2 ^ 1024].
Proof. repeat constructor; vm_compute; reflexivity. Qed.

Example Math_round_samples :
  Math_round (fdiv (toFloat (Int 5)) (toFloat (Int 2))) = Int 3
  /\ Math_round (fdiv (toFloat (Int (-5))) (toFloat (Int 2))) = Int (-2)
  /\ Math_round (fdiv (toFloat (Int (-1))) (toFloat (Int 4))) = NegZero
  /\ Math_round (fdiv (toFloat (Int 1)) (toFloat (Int 0))) = Infinity false
  /\ Math_round (fdiv (toFloat (Int 0)) (toFloat (Int 0))) = NaN.
Proof. repeat split; vm_compute; reflexivity. Qed.

(** *** Decimal digits *)

Lemma isDigit_cases (c : ascii) :
  isDigit c = true ->
  In c ["0"; "1"; "2"; "3"; "4"; "5"; "6"; "7"; "8"; "9"]%char.
Proof.
  destruct c as [[] [] [] [] [] [] [] []]; intros H;
    try discriminate H; cbn; tauto.
Qed.


Lemma stripSign_digit (c : ascii) (r : string) :
  isDigit c = true -> stripSign (String c r) = (false, String c r).
Proof. intros H. digit_cases_by isDigit_cases H; reflexivity. Qed.

Lemma trimStart_digit (c : ascii) (r : string) :
  isDigit c = true -> trimStart (String c r) = String c r.
Proof. intros H. digit_cases_by isDigit_cases H; reflexivity. Qed.

Lemma stripPrefix_digits (s : string) :
  Spec.allDigits s = true -> stripPrefix s = (10, s).
Proof.
  destruct s as [|c [|d r]]; try reflexivity; cbn [Spec.allDigits].
  - intros H. apply andb_prop in H as [H _]. digit_cases_by isDigit_cases H; reflexivity.
  - intros H. apply andb_prop in H as [Hc H]. apply andb_prop in H as [Hd _].
    digit_cases_by isDigit_cases Hc; try reflexivity. digit_cases_by isDigit_cases Hd; reflexivity.
Qed.

Lemma digitValue_digit (c : ascii) :
  isDigit c = true -> digitValue 10 c = Some (code c - 48).
Proof. intros H. digit_cases_by isDigit_cases H; reflexivity. Qed.

Lemma digitPrefix_digits (s : string) :
  Spec.allDigits s = true ->
  forall acc,
    fold_left (fun a d => a * 10 + d) (digitPrefix 10 s) acc
    = Spec.valueFrom acc s.
Proof.
  induction s as [|c r IH]; cbn [Spec.allDigits]; intros H acc; [reflexivity|].
  apply andb_prop in H as [Hc Hr].
  cbn [digitPrefix Spec.valueFrom]. rewrite (digitValue_digit _ Hc).
  cbn [fold_left]. now apply IH.
Qed.

Lemma parseDigits_digits (negative : bool) (s : string) :
  s <> "" -> Spec.allDigits s = true ->
  parseDigits negative 10 s
  = if Spec.decimalValue s =? 0 then (if negative then NegZero else Int 0)
    else numberOf (if negative then - Spec.decimalValue s
                   else Spec.decimalValue s).
Proof.
  intros Hne Hd. unfold parseDigits, Spec.decimalValue.
  rewrite <- (digitPrefix_digits _ Hd).
  destruct s as [|c r]; [congruence|].
  cbn [Spec.allDigits] in Hd. apply andb_prop in Hd as [Hc _].
  cbn [digitPrefix]. rewrite (digitValue_digit _ Hc). reflexivity.
Qed.

(** [parseInt] on a string of decimal digits. *)
Lemma parseInt_digits (s : string) :
  s <> "" -> Spec.allDigits s = true ->
  parseInt s = if Spec.decimalValue s =? 0 then Int 0
               else numberOf (Spec.decimalValue s).
Proof.
  intros Hne Hd. destruct s as [|c r]; [congruence|].
  pose proof Hd as Hd'. cbn [Spec.allDigits] in Hd'.
  apply andb_prop in Hd' as [Hc Hr].
  unfold parseInt. rewrite (trimStart_digit _ _ Hc), (stripSign_digit _ _ Hc).
  rewrite (stripPrefix_digits _ Hd).
  now rewrite parseDigits_digits.
Qed.

(** [parseInt] on a minus sign followed by decimal digits. *)
Lemma parseInt_minus_digits (s : string) :
  s <> "" -> Spec.allDigits s = true ->
  parseInt (String "-" s) = if Spec.decimalValue s =? 0 then NegZero
                            else numberOf (- Spec.decimalValue s).
Proof.
  intros Hne Hd. destruct s as [|c r]; [congruence|].
  pose proof Hd as Hd'. cbn [Spec.allDigits] in Hd'.
  apply andb_prop in Hd' as [Hc Hr].
  unfold parseInt.
  change (trimStart (String "-" (String c r))) with (String "-" (String c r)).
  change (stripSign (String "-" (String c r))) with (true, String c r).
  cbv beta iota.
  rewrite (stripPrefix_digits _ Hd).
  now rewrite parseDigits_digits.
Qed.

Lemma append_assoc (s t u : string) : (s ++ t) ++ u = s ++ (t ++ u).
Proof. induction s as [|c r IH]; cbn; [reflexivity | now rewrite IH]. Qed.

Lemma append_nil_r (s : string) : s ++ "" = s.
Proof. induction s as [|c r IH]; cbn; [reflexivity | now rewrite IH]. Qed.

Lemma allDigits_app (s t : string) :
  Spec.allDigits (s ++ t) = Spec.allDigits s && Spec.allDigits t.
Proof.
  induction s as [|c r IH]; cbn; [reflexivity|]. now rewrite IH, andb_assoc.
Qed.

Lemma valueFrom_app (s t : string) :
  forall acc, Spec.valueFrom acc (s ++ t) = Spec.valueFrom (Spec.valueFrom acc s) t.
Proof. induction s as [|c r IH]; cbn; intros acc; [reflexivity|]. apply IH. Qed.

Lemma digitChar_spec (d : Z) :
  0 <= d < 10 -> isDigit (digitChar d) = true /\ code (digitChar d) - 48 = d.
Proof.
  intros H.
  assert (d = 0 \/ d = 1 \/ d = 2 \/ d = 3 \/ d = 4 \/ d = 5 \/ d = 6
          \/ d = 7 \/ d = 8 \/ d = 9) as Hc by lia.
  repeat (destruct Hc as [-> | Hc]; [split; reflexivity|]).
  subst. split; reflexivity.
Qed.

Lemma digitsFuel_S (f : nat) (n : Z) (acc : string) :
  digitsFuel (S f) n acc
  = if n <? 10 then String (digitChar (n mod 10)) acc
    else digitsFuel f (n / 10) (String (digitChar (n mod 10)) acc).
Proof. reflexivity. Qed.

(** The digits [digitsFuel] writes in front of [acc] read back as [n]. *)
Lemma digitsFuel_spec (fuel : nat) :
  forall n acc, 0 <= n < 2 ^ Z.of_nat (S fuel) ->
    exists ds, digitsFuel (S fuel) n acc = ds ++ acc
               /\ ds <> "" /\ Spec.allDigits ds = true
               /\ Spec.decimalValue ds = n.
Proof.
  induction fuel as [|f IH]; intros n acc Hn;
    rewrite digitsFuel_S; destruct (n <? 10) eqn:E.
  1, 3: apply Z.ltb_lt in E; rewrite Z.mod_small by lia;
    destruct (digitChar_spec n ltac:(lia)) as [Hd Hv];
    exists (String (digitChar n) ""); repeat split;
    [ discriminate | cbn; now rewrite Hd | unfold Spec.decimalValue; cbn; lia ].
  - apply Z.ltb_ge in E. cbn in Hn. lia.
  - apply Z.ltb_ge in E.
    assert (Hq : 0 <= n / 10 < 2 ^ Z.of_nat (S f)).
    { split; [apply Z.div_pos; lia|].
      apply Z.div_lt_upper_bound; [lia|].
      rewrite (Nat2Z.inj_succ (S f)), Z.pow_succ_r in Hn by lia. lia. }
    destruct (IH (n / 10) (String (digitChar (n mod 10)) acc) Hq)
      as [ds [He [Hne [Hd Hv]]]].
    rewrite He.
    destruct (digitChar_spec (n mod 10)) as [Hd' Hv'];
      [apply Z.mod_pos_bound; lia|].
    exists (ds ++ String (digitChar (n mod 10)) ""). repeat split.
    + now rewrite append_assoc.
    + destruct ds; [congruence | discriminate].
    + rewrite allDigits_app, Hd. cbn. now rewrite Hd'.
    + unfold Spec.decimalValue in *. rewrite valueFrom_app, Hv. cbn.
      rewrite Hv'. pose proof (Z.div_mod n 10). lia.
Qed.

Lemma decimal_spec (n : Z) :
  0 <= n ->
  decimal n <> "" /\ Spec.allDigits (decimal n) = true
  /\ Spec.decimalValue (decimal n) = n.
Proof.
  intros Hn. unfold decimal.
  destruct (digitsFuel_spec (Z.to_nat (Z.log2 n)) n "") as [ds [He [Hne [Hd Hv]]]].
  - rewrite Nat2Z.inj_succ, Z2Nat.id by apply Z.log2_nonneg.
    destruct (Z.eq_dec n 0) as [-> | Hz]; [cbn; lia|].
    split; [lia|]. apply Z.log2_spec. lia.
  - rewrite append_nil_r in He. rewrite He. auto.
Qed.

(** *** Integers as Numbers *)

Lemma roundMagnitude_small (a : Z) :
  0 <= a < 2 ^ 53 -> roundMagnitude a = Some a.
Proof.
  intros Ha. unfold roundMagnitude.
  assert (Z.log2 a < 53) as Hl.
  { destruct (Z.eq_dec a 0) as [-> | Hz]; [reflexivity|].
    apply Z.log2_lt_pow2; lia. }
  destruct (Z.log2 a + 1 <=? 53) eqn:E; [reflexivity|].
  apply Z.leb_gt in E. lia.
Qed.

Lemma roundMagnitude_pos (a v : Z) :
  0 < a -> roundMagnitude a = Some v -> 0 < v.
Proof.
  intros Ha. unfold roundMagnitude.
  destruct (Z.log2 a + 1 <=? 53) eqn:E; [intros [= <-]; exact Ha|].
  apply Z.leb_gt in E.
  set (sh := Z.log2 a + 1 - 53).
  assert (0 < sh) as Hsh by (subst sh; lia).
  assert (0 < 2 ^ sh) as Hp by (apply Z.pow_pos_nonneg; lia).
  assert (1 <= a / 2 ^ sh) as Hq.
  { apply Z.div_le_lower_bound; [exact Hp|].
    pose proof (Z.log2_spec a Ha) as [Hlo _].
    rewrite Z.mul_1_r. eapply Z.le_trans; [|exact Hlo].
    apply Z.pow_le_mono_r; subst sh; lia. }
  match goal with
  | |- (if _ <=? ?q * _ then _ else _) = _ -> _ => assert (1 <= q) as Hq'
  end.
  { destruct (a mod 2 ^ sh <? 2 ^ (sh - 1)); [exact Hq|].
    destruct (2 ^ (sh - 1) <? a mod 2 ^ sh); [lia|].
    destruct (Z.even (a / 2 ^ sh)); lia. }
  destruct (2 ^ 1024 <=? _); [discriminate|].
  intros [= <-]. nia.
Qed.

Lemma numberOf_small (z : Z) : Z.abs z < 2 ^ 53 -> numberOf z = Int z.
Proof.
  intros Hz. unfold numberOf.
  rewrite roundMagnitude_small by lia. f_equal. destruct z; cbn; lia.
Qed.

Lemma ToBoolean_numberOf (z : Z) : z <> 0 -> ToBoolean (numberOf z) = true.
Proof.
  intros Hz. unfold numberOf.
  destruct (roundMagnitude (Z.abs z)) as [v|] eqn:E; [|reflexivity].
  apply roundMagnitude_pos in E; [|lia].
  destruct z as [|p|p]; [congruence| |];
    destruct v; cbn; try reflexivity; lia.
Qed.

(** *** Shortest digits below 2^53 *)

Lemma length_append (s t : string) :
  String.length (s ++ t) = (String.length s + String.length t)%nat.
Proof. induction s as [|c r IH]; cbn; [reflexivity | now rewrite IH]. Qed.

Lemma digitsFuel_acc (fuel : nat) :
  forall n acc, digitsFuel fuel n acc = digitsFuel fuel n "" ++ acc.
Proof.
  induction fuel as [|f IH]; intros n acc; [reflexivity|].
  rewrite !digitsFuel_S. destruct (n <? 10); [reflexivity|].
  rewrite (IH _ (String _ acc)), (IH _ (String _ "")).
  now rewrite append_assoc.
Qed.

Lemma digitsFuel_enough (f1 : nat) :
  forall n f2,
    0 <= n < 2 ^ Z.of_nat (S f1) -> n < 2 ^ Z.of_nat (S f2) ->
    digitsFuel (S f1) n "" = digitsFuel (S f2) n "".
Proof.
  induction f1 as [|f IH]; intros n f2 H1 H2;
    rewrite (digitsFuel_S _ n ""), (digitsFuel_S f2 n "");
    destruct (n <? 10) eqn:E; try reflexivity; apply Z.ltb_ge in E.
  - cbn in H1. lia.
  - destruct f2 as [|f2]; [cbn in H2; lia|].
    rewrite (digitsFuel_acc (S f)), (digitsFuel_acc (S f2)).
    f_equal. rewrite (Nat2Z.inj_succ (S f)), Z.pow_succ_r in H1 by lia.
    rewrite (Nat2Z.inj_succ (S f2)), Z.pow_succ_r in H2 by lia.
    apply IH.
    + split; [apply Z.div_pos; lia|]. apply Z.div_lt_upper_bound; lia.
    + apply Z.div_lt_upper_bound; lia.
Qed.

Lemma decimal_digit (n : Z) :
  0 <= n < 10 -> decimal n = String (digitChar n) "".
Proof.
  intros Hn. unfold decimal. rewrite digitsFuel_S.
  replace (n <? 10) with true by (symmetry; apply Z.ltb_lt; lia).
  now rewrite Z.mod_small by lia.
Qed.

Lemma decimal_step (n : Z) :
  10 <= n -> decimal n = decimal (n / 10) ++ String (digitChar (n mod 10)) "".
Proof.
  intros Hn. unfold decimal.
  pose proof (Z.log2_spec n ltac:(lia)) as [Hlo Hhi].
  assert (3 <= Z.log2 n) as H3
    by (apply (Z.log2_le_mono 8 n); lia).
  destruct (Z.to_nat (Z.log2 n)) as [|f] eqn:Ef; [lia|].
  rewrite (digitsFuel_S (S f) n "").
  replace (n <? 10) with false by (symmetry; apply Z.ltb_ge; lia).
  rewrite digitsFuel_acc. f_equal.
  assert (1 <= n / 10) as Hq by (apply Z.div_le_lower_bound; lia).
  pose proof (Z.log2_spec (n / 10) ltac:(lia)) as [Hlo' Hhi'].
  pose proof (Z.log2_nonneg (n / 10)) as Hnn.
  apply digitsFuel_enough.
  - split; [lia|]. rewrite <- Ef, Z2Nat.id by lia.
    rewrite Z.pow_succ_r in Hhi by lia.
    apply Z.div_lt_upper_bound; lia.
  - rewrite Nat2Z.inj_succ, Z2Nat.id by lia. exact Hhi'.
Qed.

Lemma zeros_snoc (j : nat) : zeros j ++ "0" = String "0" (zeros j).
Proof. induction j as [|j IH]; cbn; [reflexivity | now rewrite IH]. Qed.

Lemma decimal_pad (s : Z) (j : nat) :
  0 < s -> decimal (s * 10 ^ Z.of_nat j) = decimal s ++ zeros j.
Proof.
  intros Hs. induction j as [|j IH].
  - cbn [Z.of_nat zeros]. now rewrite Z.pow_0_r, Z.mul_1_r, append_nil_r.
  - rewrite Nat2Z.inj_succ, Z.pow_succ_r by lia.
    assert (0 < 10 ^ Z.of_nat j) as Hp by (apply Z.pow_pos_nonneg; lia).
    assert (0 < s * 10 ^ Z.of_nat j) as Hm by (apply Z.mul_pos_pos; lia).
    replace (s * (10 * 10 ^ Z.of_nat j)) with (s * 10 ^ Z.of_nat j * 10) by ring.
    rewrite decimal_step by lia.
    rewrite Z.div_mul, Z.mod_mul, IH by lia.
    cbn [zeros]. now rewrite append_assoc, zeros_snoc.
Qed.

Lemma decimalLength_pos (n : Z) : 0 <= n -> 1 <= decimalLength n.
Proof.
  intros Hn. unfold decimalLength.
  destruct (decimal_spec n Hn) as [Hne _].
  destruct (decimal n); [congruence | cbn [String.length]; lia].
Qed.

Lemma decimalLength_spec (n : Z) :
  0 < n -> 10 ^ (decimalLength n - 1) <= n < 10 ^ decimalLength n.
Proof.
  intros Hn. revert Hn.
  induction n as [n IH] using (well_founded_induction (Z.lt_wf 0)).
  intros Hn. destruct (Z_lt_le_dec n 10) as [Hs | Hb].
  - unfold decimalLength. rewrite decimal_digit by lia. cbn. lia.
  - assert (1 <= n / 10) as Hq by (apply Z.div_le_lower_bound; lia).
    assert (n / 10 < n) as Hlt by (apply Z.div_lt; lia).
    specialize (IH (n / 10) ltac:(lia) ltac:(lia)).
    pose proof (decimalLength_pos (n / 10) ltac:(lia)) as HL.
    assert (decimalLength n = decimalLength (n / 10) + 1) as ->.
    { unfold decimalLength. rewrite (decimal_step n Hb), length_append.
      cbn [String.length]. lia. }
    revert IH HL. generalize (decimalLength (n / 10)). intros L IH HL.
    replace (L + 1 - 1) with (Z.succ (L - 1)) by lia.
    replace (L + 1) with (Z.succ L) by lia.
    rewrite !Z.pow_succ_r by lia.
    pose proof (Z.div_mod n 10 ltac:(lia)) as Hdm.
    pose proof (Z.mod_pos_bound n 10 ltac:(lia)) as Hr.
    revert IH. generalize (10 ^ (L - 1)) (10 ^ L). intros P Q IH. lia.
Qed.

Lemma decimalLength_unique (s k : Z) :
  0 < s -> 10 ^ (k - 1) <= s < 10 ^ k -> 1 <= k -> decimalLength s = k.
Proof.
  intros Hs Hk Hk1.
  pose proof (decimalLength_spec s Hs) as HL.
  pose proof (decimalLength_pos s ltac:(lia)) as HL1.
  revert HL HL1. generalize (decimalLength s). intros L HL HL1.
  destruct (Z.lt_trichotomy L k) as [H | [H | H]]; [|exact H|].
  - assert (10 ^ L <= 10 ^ (k - 1)) by (apply Z.pow_le_mono_r; lia). lia.
  - assert (10 ^ k <= 10 ^ (L - 1)) by (apply Z.pow_le_mono_r; lia). lia.
Qed.

Lemma roundMagnitude_large (a v : Z) :
  2 ^ 53 <= a -> roundMagnitude a = Some v -> 2 ^ 53 <= v.
Proof.
  intros Ha. unfold roundMagnitude.
  assert (53 <= Z.log2 a) as Hl
    by (change 53 with (Z.log2 (2 ^ 53)) at 1; now apply Z.log2_le_mono).
  replace (Z.log2 a + 1 <=? 53) with false by (symmetry; apply Z.leb_gt; lia).
  set (sh := Z.log2 a + 1 - 53).
  assert (0 < sh) as Hsh by (subst sh; lia).
  assert (0 < 2 ^ sh) as Hp by (apply Z.pow_pos_nonneg; lia).
  assert (2 <= 2 ^ sh) as Hp2
    by (change 2 with (2 ^ 1) at 1; apply Z.pow_le_mono_r; lia).
  assert (2 ^ 52 <= a / 2 ^ sh) as Hq.
  { apply Z.div_le_lower_bound; [exact Hp|].
    pose proof (Z.log2_spec a ltac:(pow_lia)) as [Hlo _].
    rewrite Z.mul_comm, <- Z.pow_add_r by lia.
    replace (52 + sh) with (Z.log2 a) by (subst sh; lia). exact Hlo. }
  match goal with
  | |- (if _ <=? ?q * _ then _ else _) = _ -> _ => assert (2 ^ 52 <= q) as Hq'
  end.
  { destruct (a mod 2 ^ sh <? 2 ^ (sh - 1)); [exact Hq|].
    destruct (2 ^ (sh - 1) <? a mod 2 ^ sh); [lia|].
    destruct (Z.even (a / 2 ^ sh)); lia. }
  destruct (2 ^ 1024 <=? _); [discriminate|].
  intros [= <-].
  change (2 ^ 53) with (2 ^ 52 * 2).
  apply Z.mul_le_mono_nonneg; pow_lia.
Qed.

(** Below 2^53 a candidate is read back as [a] only if it is [a]. *)
Lemma shortestCandidate_small (a k : Z) :
  0 < a < 2 ^ 53 -> 1 <= k <= decimalLength a ->
  shortestCandidate a (decimalLength a) k
  = if a / 10 ^ (decimalLength a - k) * 10 ^ (decimalLength a - k) =? a
    then Some (a / 10 ^ (decimalLength a - k), decimalLength a)
    else None.
Proof.
  intros Ha Hk. pose proof (decimalLength_spec a ltac:(lia)) as Hn.
  revert Hk Hn. generalize (decimalLength a). intros n Hk Hn.
  unfold shortestCandidate.
  assert (0 < 10 ^ (n - k)) as Hp by (apply Z.pow_pos_nonneg; lia).
  assert (10 ^ n = 10 ^ k * 10 ^ (n - k)) as Hsplit
    by (rewrite <- Z.pow_add_r by lia; f_equal; lia).
  pose proof (Z.div_mod a (10 ^ (n - k)) ltac:(lia)) as Hdm.
  pose proof (Z.mod_pos_bound a (10 ^ (n - k)) Hp) as Hr.
  assert (0 <= a / 10 ^ (n - k)) as Hlo by (apply Z.div_pos; lia).
  assert (a / 10 ^ (n - k) < 10 ^ k) as Hlt
    by (apply Z.div_lt_upper_bound; lia).
  revert Hdm Hr Hlo Hlt.
  generalize (a mod 10 ^ (n - k)) (a / 10 ^ (n - k)). intros r lo Hdm Hr Hlo Hlt.
  revert Hp Hdm Hr. generalize (10 ^ (n - k)). intros p Hp Hdm Hr.
  assert (0 <= lo * p) as Hlp by (apply Z.mul_nonneg_nonneg; lia).
  rewrite (roundMagnitude_small (lo * p)) by lia.
  assert (match roundMagnitude ((lo + 1) * p) with
          | Some v => v =? a
          | None => false
          end = false) as ->.
  { destruct (roundMagnitude ((lo + 1) * p)) as [v|] eqn:E; [|reflexivity].
    apply Z.eqb_neq. intros ->.
    destruct (Z_lt_le_dec ((lo + 1) * p) (2 ^ 53)) as [Hs | Hb].
    - rewrite roundMagnitude_small in E by lia. injection E as E. lia.
    - apply roundMagnitude_large in E; [lia | exact Hb]. }
  rewrite andb_false_r.
  destruct (lo * p =? a); [|reflexivity].
  replace (lo =? 10 ^ k) with false by (symmetry; apply Z.eqb_neq; lia).
  reflexivity.
Qed.

Lemma shortestFrom_small (a : Z) :
  0 < a < 2 ^ 53 ->
  forall fuel k,
    1 <= k -> Z.of_nat fuel = decimalLength a + 1 - k -> (0 < fuel)%nat ->
    exists s k',
      shortestFrom fuel a (decimalLength a) k = (s, decimalLength a)
      /\ 1 <= k' <= decimalLength a
      /\ s * 10 ^ (decimalLength a - k') = a.
Proof.
  intros Ha. induction fuel as [|f IH]; intros k Hk Hf Hpos; [lia|].
  cbn [shortestFrom].
  rewrite (shortestCandidate_small a k Ha) by lia.
  destruct (_ =? a) eqn:E.
  - apply Z.eqb_eq in E. exists (a / 10 ^ (decimalLength a - k)), k.
    split; [reflexivity|]. split; [lia | exact E].
  - apply Z.eqb_neq in E.
    assert (k <> decimalLength a) as Hne.
    { intros ->. apply E. rewrite Z.sub_diag, Z.pow_0_r, Z.div_1_r. lia. }
    destruct (IH (k + 1)) as [s [k' [H1 [H2 H3]]]]; try lia.
    exists s, k'. split; [exact H1|]. split; [lia | exact H3].
Qed.

Lemma magnitudeToString_small (a : Z) :
  0 <= a < 2 ^ 53 -> magnitudeToString a = decimal a.
Proof.
  intros Ha. destruct (Z.eq_dec a 0) as [-> | Hz]; [reflexivity|].
  assert (0 < a < 2 ^ 53) as Ha' by lia.
  pose proof (decimalLength_spec a ltac:(lia)) as Hn.
  pose proof (decimalLength_pos a ltac:(lia)) as Hn1.
  unfold magnitudeToString, shortestDigits.
  destruct (shortestFrom_small a Ha' (Z.to_nat (decimalLength a)) 1)
    as [s [k [-> [Hk Hs]]]]; try lia.
  assert (decimalLength a <= 21) as H21.
  { apply Z.nlt_ge. intros L.
    assert (10 ^ 21 <= 10 ^ (decimalLength a - 1))
      by (apply Z.pow_le_mono_r; lia).
    pow_lia. }
  replace (decimalLength a <=? 21) with true by (symmetry; apply Z.leb_le; lia).
  revert Hn Hn1 Hk Hs H21. generalize (decimalLength a). intros n Hn Hn1 Hk Hs H21.
  assert (0 < 10 ^ (n - k)) as Hp by (apply Z.pow_pos_nonneg; lia).
  assert (10 ^ n = 10 ^ k * 10 ^ (n - k)) as Hsplit
    by (rewrite <- Z.pow_add_r by lia; f_equal; lia).
  assert (10 ^ (n - 1) = 10 ^ (k - 1) * 10 ^ (n - k)) as Hsplit'
    by (rewrite <- Z.pow_add_r by lia; f_equal; lia).
  assert (10 ^ (k - 1) <= s < 10 ^ k) as Hb.
  { rewrite Hsplit, Hsplit', <- Hs in Hn. destruct Hn as [H1 H2]. split.
    - now apply Z.mul_le_mono_pos_r in H1.
    - now apply Z.mul_lt_mono_pos_r in H2. }
  assert (0 < s) as Hs0.
  { assert (0 < 10 ^ (k - 1)) by (apply Z.pow_pos_nonneg; lia). lia. }
  rewrite (decimalLength_unique s k Hs0 Hb) by lia.
  rewrite <- (Z2Nat.id (n - k)) in Hs at 1 by lia.
  now rewrite <- Hs, decimal_pad.
Qed.
(** A non-zero integer below 2^53 in magnitude, written out by
    [Number::toString] and read by [parseInt], is itself again. *)
Lemma parseInt_toString (z : Z) :
  z <> 0 -> Z.abs z < 2 ^ 53 -> parseInt (Number_toString (Int z)) = Int z.
Proof.
  intros Hz Hb. unfold Number_toString.
  destruct (z <? 0) eqn:E.
  - apply Z.ltb_lt in E.
    rewrite magnitudeToString_small by lia.
    destruct (decimal_spec (- z)) as [Hne [Hd Hv]]; [lia|].
    change ("-" ++ decimal (- z)) with (String "-" (decimal (- z))).
    rewrite (parseInt_minus_digits _ Hne Hd), Hv.
    destruct (- z =? 0) eqn:E0; [apply Z.eqb_eq in E0; lia|].
    rewrite Z.opp_involutive. now apply numberOf_small.
  - apply Z.ltb_ge in E.
    rewrite magnitudeToString_small by lia.
    destruct (decimal_spec z) as [Hne [Hd Hv]]; [lia|].
    rewrite (parseInt_digits _ Hne Hd), Hv.
    destruct (z =? 0) eqn:E0; [apply Z.eqb_eq in E0; lia|].
    now apply numberOf_small.
Qed.

Lemma orNull_parseInt_toString (z : Z) :
  z <> 0 -> Z.abs z < 2 ^ 53 ->
  orNull (parseInt (Number_toString (numberOf z))) = Some (numberOf z).
Proof.
  intros Hz Hb. rewrite (numberOf_small _ Hb), (parseInt_toString _ Hz Hb).
  unfold orNull. rewrite <- (numberOf_small _ Hb).
  now rewrite ToBoolean_numberOf.
Qed.

(** *** binary64 rounding *)

Lemma digits2_bounds (p : positive) :
  2 ^ (Zpos (digits2_pos p) - 1) <= Zpos p < 2 ^ Zpos (digits2_pos p).
Proof.
  induction p as [p IH | p IH |]; cbn [digits2_pos].
  3: cbn; lia.
  all: rewrite Pos2Z.inj_succ;
    replace (Z.succ (Zpos (digits2_pos p)) - 1)
      with (Z.succ (Zpos (digits2_pos p) - 1)) by lia;
    rewrite !Z.pow_succ_r by lia;
    revert IH;
    generalize (2 ^ (Zpos (digits2_pos p) - 1)) (2 ^ Zpos (digits2_pos p));
    intros a b IH; lia.
Qed.

(** The number of digits is determined by the power-of-two bracket. *)
Lemma digits2_unique (p : positive) (d : Z) :
  2 ^ (d - 1) <= Zpos p < 2 ^ d -> Zpos (digits2_pos p) = d.
Proof.
  intros [Hlo Hhi]. pose proof (digits2_bounds p) as [Hlo' Hhi'].
  assert (0 < d) as Hd.
  { destruct (Z_lt_le_dec 0 d) as [H | H]; [exact H|].
    destruct (Z.eq_dec d 0) as [-> | Hn]; [cbn in Hhi; lia|].
    rewrite Z.pow_neg_r in Hhi by lia. lia. }
  destruct (Z_lt_le_dec (Zpos (digits2_pos p)) d) as [H | H].
  - assert (2 ^ Zpos (digits2_pos p) <= 2 ^ (d - 1)) by (apply Z.pow_le_mono_r; lia).
    lia.
  - destruct (Z.eq_dec (Zpos (digits2_pos p)) d) as [He | Hn]; [exact He|].
    assert (2 ^ d <= 2 ^ (Zpos (digits2_pos p) - 1)) by (apply Z.pow_le_mono_r; lia).
    lia.
Qed.

Lemma iter_pos_iter {A : Type} (f : A -> A) (p : positive) :
  forall x, iter_pos f p x = Pos.iter f x p.
Proof.
  induction p as [p IH | p IH |]; intros x; cbn; [|now rewrite !IH | reflexivity].
  rewrite !IH. now rewrite <- !Pos.iter_swap.
Qed.

Lemma located_bounds (m : Z) (l : location) (num den : Z) :
  0 < den -> located m l num den -> m * den <= num < (m + 1) * den.
Proof. destruct l; cbn; lia. Qed.

Lemma loc_of_record_of (m : Z) (l : location) :
  loc_of_shr_record (shr_record_of_loc m l) = l
  /\ shr_m (shr_record_of_loc m l) = m.
Proof. destruct l as [|[]]; split; reflexivity. Qed.

Lemma shr_1_spec (m : Z) (r s : bool) :
  0 <= m ->
  shr_1 {| shr_m := m; shr_r := r; shr_s := s |}
  = {| shr_m := Z.div2 m; shr_r := Z.odd m; shr_s := r || s |}.
Proof. destruct m as [|[p|p|]|p]; try lia; reflexivity. Qed.

Lemma shr_1_located (mrs : shr_record) (num den : Z) :
  0 < den -> 0 <= shr_m mrs ->
  located (shr_m mrs) (loc_of_shr_record mrs) num den ->
  located (shr_m (shr_1 mrs)) (loc_of_shr_record (shr_1 mrs)) num (2 * den)
  /\ 0 <= shr_m (shr_1 mrs).
Proof.
  intros Hden Hm. destruct mrs as [m r s]. cbn [shr_m] in *.
  rewrite (shr_1_spec _ _ _ Hm). cbn [shr_m].
  pose proof (Z.div2_odd m) as Hdiv. revert Hdiv.
  generalize (Z.div2 m). intros h Hdiv.
  destruct (Z.odd m), r, s; cbn [Z.b2z orb loc_of_shr_record located] in *;
    intros H; compare_to_order; nia.
Qed.

Lemma shr_located (mrs : shr_record) (e n num den : Z) :
  0 < den -> 0 <= shr_m mrs -> 0 <= n ->
  located (shr_m mrs) (loc_of_shr_record mrs) num den ->
  snd (shr mrs e n) = e + n
  /\ located (shr_m (fst (shr mrs e n)))
             (loc_of_shr_record (fst (shr mrs e n))) num (den * 2 ^ n)
  /\ 0 <= shr_m (fst (shr mrs e n)).
Proof.
  intros Hden Hm Hn H. destruct n as [|p|p]; [| |lia].
  - cbn [shr fst snd]. rewrite Z.add_0_r, Z.pow_0_r, Z.mul_1_r. auto.
  - cbn [shr fst snd]. split; [reflexivity|]. rewrite iter_pos_iter.
    apply Pos.iter_ind.
    + rewrite Z.pow_1_r, (Z.mul_comm den). now apply shr_1_located.
    + intros q a [Ha Hma]. rewrite Pos2Z.inj_succ, Z.pow_succ_r by lia.
      replace (den * (2 * 2 ^ Zpos q)) with (2 * (den * 2 ^ Zpos q)) by ring.
      apply shr_1_located; [|assumption..].
      apply Z.mul_pos_pos; [exact Hden | apply Z.pow_pos_nonneg; lia].
Qed.

Lemma round_nearest_even_spec (m : Z) (l : location) (num den : Z) :
  0 < den -> located m l num den ->
  (round_nearest_even m l = m \/ round_nearest_even m l = m + 1)
  /\ 2 * Z.abs (round_nearest_even m l * den - num) <= den.
Proof.
  intros Hden. destruct l as [|[]]; cbn [located round_nearest_even]; intros H;
    compare_to_order; try destruct (Z.even m); auto; nia.
Qed.

Lemma fexp_normal (e : Z) : -1074 <= e - 53 -> fexp 53 1024 e = e - 53.
Proof. intros H. unfold fexp, emin. lia. Qed.

Lemma Zdigits2_unique (m d : Z) :
  2 ^ (d - 1) <= m < 2 ^ d -> 0 < m -> Zdigits2 m = d.
Proof.
  intros H Hm. destruct m as [|p|p]; try lia. cbn [Zdigits2].
  now apply digits2_unique.
Qed.

Lemma Zdigits2_bounds (m : Z) :
  0 < m -> 2 ^ (Zdigits2 m - 1) <= m < 2 ^ Zdigits2 m.
Proof.
  intros Hm. destruct m as [|p|p]; try lia. cbn [Zdigits2].
  apply digits2_bounds.
Qed.

(** What [binary_round_aux] returns for a positive value at least 2^52 ulps
    wide, in the normal range: a 53-bit mantissa within half an ulp. *)
Lemma binary_round_aux_spec (mx ex : Z) (lx : location) (num den : Z) :
  0 < den -> 0 < mx -> located mx lx num den ->
  53 <= Zdigits2 mx ->
  -1074 <= Zdigits2 mx + ex - 53 ->
  Zdigits2 mx + ex - 52 <= 971 ->
  exists m n,
    binary_round_aux 53 1024 false mx ex lx = S754_finite false m (ex + n)
    /\ (n = Zdigits2 mx - 53 \/ n = Zdigits2 mx - 52)
    /\ 2 ^ 52 <= Zpos m < 2 ^ 53
    /\ 2 * Z.abs (Zpos m * 2 ^ n * den - num) <= den * 2 ^ n.
Proof.
  intros Hden Hmx Hloc Hd Hlo Hhi.
  set (d := Zdigits2 mx) in *.
  pose proof (Zdigits2_bounds mx Hmx) as Hb. fold d in Hb.
  unfold binary_round_aux, shr_fexp. fold d.
  rewrite (fexp_normal (d + ex)) by lia.
  replace (d + ex - 53 - ex) with (d - 53) by lia.
  destruct (loc_of_record_of mx lx) as [Hl1 Hm1].
  destruct (shr_located (shr_record_of_loc mx lx) ex (d - 53) num den)
    as [He [Hloc1 Hpos1]]; try lia.
  { now rewrite Hl1, Hm1. }
  destruct (shr (shr_record_of_loc mx lx) ex (d - 53)) as [mrs1 e1].
  cbn [fst snd] in He, Hloc1, Hpos1. subst e1.
  set (n1 := d - 53) in *.
  assert (0 < 2 ^ n1) as Hp1 by (apply Z.pow_pos_nonneg; lia).
  assert (2 ^ (d - 1) = 2 ^ 52 * 2 ^ n1) as Hpow1.
  { rewrite <- Z.pow_add_r by lia. f_equal. lia. }
  assert (2 ^ d = 2 ^ 53 * 2 ^ n1) as Hpow2.
  { rewrite <- Z.pow_add_r by lia. f_equal. lia. }
  pose proof (located_bounds _ _ _ _ Hden Hloc) as Hbx.
  assert (0 < den * 2 ^ n1) as Hden1 by nia.
  pose proof (located_bounds _ _ _ _ Hden1 Hloc1) as Hb1.
  set (m1 := shr_m mrs1) in *.
  assert (2 ^ 52 <= m1 < 2 ^ 53) as Hm1b.
  { rewrite Hpow1, Hpow2 in Hb. split; nia. }
  destruct (round_nearest_even_spec _ _ _ _ Hden1 Hloc1) as [Hr Herr].
  set (m2 := round_nearest_even m1 (loc_of_shr_record mrs1)) in *.
  assert (2 ^ 52 <= m2 <= 2 ^ 53) as Hm2b by lia.
  destruct (Z.eq_dec m2 (2 ^ 53)) as [Hc | Hc].
  - (* the rounding carried into a 54th bit *)
    rewrite Hc.
    replace (Zdigits2 (2 ^ 53)) with 54 by reflexivity.
    rewrite (fexp_normal (54 + (ex + n1))) by lia.
    replace (54 + (ex + n1) - 53 - (ex + n1)) with 1 by lia.
    cbn [shr_record_of_loc shr iter_pos]. 
    rewrite shr_1_spec by lia. cbn [shr_m].
    change (Z.div2 (2 ^ 53)) with (Zpos 4503599627370496).
    replace (ex + n1 + 1 <=? 1024 - 53) with true
      by (symmetry; apply Z.leb_le; lia).
    exists 4503599627370496%positive, (n1 + 1).
    split; [f_equal; lia|]. split; [right; lia|].
    split; [change (2 ^ 52) with 4503599627370496;
            change (2 ^ 53) with 9007199254740992; lia|].
    rewrite Z.pow_add_r, Z.pow_1_r by lia.
    rewrite Hc in Herr.
    change (2 ^ 53) with (4503599627370496 * 2) in Herr. nia.
  - assert (Zdigits2 m2 = 53) as Hd2.
    { apply Zdigits2_unique; [|lia]. change (53 - 1) with 52. lia. }
    rewrite Hd2, (fexp_normal (53 + (ex + n1))) by lia.
    replace (53 + (ex + n1) - 53 - (ex + n1)) with 0 by lia.
    cbn [shr_record_of_loc shr shr_m].
    destruct m2 as [|p|p] eqn:E; try lia.
    replace (ex + n1 <=? 1024 - 53) with true
      by (symmetry; apply Z.leb_le; lia).
    exists p, n1. split; [reflexivity|]. split; [left; reflexivity|].
    split; [lia|]. nia.
Qed.

Lemma binary_round_aux_exact (m : positive) (e : Z) :
  2 ^ 52 <= Zpos m < 2 ^ 53 -> -1074 <= e <= 971 ->
  binary_round_aux 53 1024 false (Zpos m) e loc_Exact = S754_finite false m e.
Proof.
  intros Hm He. unfold binary_round_aux, shr_fexp.
  assert (Zdigits2 (Zpos m) = 53) as Hd.
  { apply Zdigits2_unique; [|lia]. change (53 - 1) with 52. lia. }
  rewrite Hd, (fexp_normal (53 + e)) by lia.
  replace (53 + e - 53 - e) with 0 by lia.
  cbn [shr_record_of_loc shr shr_m loc_of_shr_record round_nearest_even].
  rewrite Hd, (fexp_normal (53 + e)) by lia.
  replace (53 + e - 53 - e) with 0 by lia.
  cbn [shr shr_m].
  replace (e <=? 1024 - 53) with true by (symmetry; apply Z.leb_le; lia).
  reflexivity.
Qed.

Lemma iter_xO (p q : positive) :
  Zpos (Pos.iter xO p q) = Zpos p * 2 ^ Zpos q.
Proof.
  apply Pos.iter_ind.
  - rewrite Z.pow_1_r. lia.
  - intros r a Ha. rewrite Pos2Z.inj_xO, Ha, Pos2Z.inj_succ, Z.pow_succ_r by lia.
    ring.
Qed.

(** The double of a positive integer below 2^53: the integer itself, with
    its mantissa shifted up to 53 bits. *)
Lemma toFloat_normal (z : Z) :
  0 < z < 2 ^ 53 ->
  exists m k,
    toFloat (Int z) = S754_finite false m (- k)
    /\ k = 53 - Zdigits2 z
    /\ Zpos m = z * 2 ^ k
    /\ 2 ^ 52 <= Zpos m < 2 ^ 53.
Proof.
  intros Hz. destruct z as [|p|p]; try lia.
  pose proof (digits2_bounds p) as Hb.
  assert (Zpos (digits2_pos p) <= 53) as Hd.
  { destruct (Z_le_gt_dec (Zpos (digits2_pos p)) 53) as [H | H]; [exact H|].
    assert (2 ^ 53 <= 2 ^ (Zpos (digits2_pos p) - 1))
      by (apply Z.pow_le_mono_r; lia).
    lia. }
  cbn [toFloat binary_normalize Zdigits2]. unfold binary_round.
  rewrite Z.add_0_r, fexp_normal by lia. unfold shl_align.
  rewrite Z.sub_0_r.
  destruct (Zpos (digits2_pos p) - 53) as [|q|q] eqn:E; try lia.
  - assert (Zpos (digits2_pos p) = 53) as Hd53 by lia.
    rewrite Hd53 in Hb. change (53 - 1) with 52 in Hb.
    rewrite binary_round_aux_exact by lia.
    exists p, 0. split; [reflexivity|]. split; [cbn [Zdigits2]; lia|].
    split; [rewrite Z.pow_0_r; lia | lia].
  - assert (Hk : Zpos q = 53 - Zpos (digits2_pos p)) by lia.
    assert (Hv : Zpos (Pos.iter xO p q) = Zpos p * 2 ^ Zpos q) by apply iter_xO.
    assert (Hm : 2 ^ 52 <= Zpos (Pos.iter xO p q) < 2 ^ 53).
    { rewrite Hv.
      assert (2 ^ 52 = 2 ^ (Zpos (digits2_pos p) - 1) * 2 ^ Zpos q) as ->.
      { rewrite <- Z.pow_add_r by lia. f_equal. lia. }
      assert (2 ^ 53 = 2 ^ Zpos (digits2_pos p) * 2 ^ Zpos q) as ->.
      { rewrite <- Z.pow_add_r by lia. f_equal. lia. }
      assert (0 < 2 ^ Zpos q) by (apply Z.pow_pos_nonneg; lia).
      nia. }
    rewrite binary_round_aux_exact by (try exact Hm; lia).
    exists (Pos.iter xO p q), (Zpos q).
    split; [reflexivity|]. split; [cbn [Zdigits2]; lia|].
    split; [exact Hv | exact Hm].
Qed.

Lemma new_location_located (q r num den : Z) :
  0 < den -> 0 <= r < den -> num = q * den + r ->
  located q (new_location den r) num den.
Proof.
  intros Hden Hr ->. unfold new_location, new_location_even, new_location_odd.
  destruct (Z.even den) eqn:Ev; destruct (r =? 0) eqn:E0;
    try (apply Z.eqb_eq in E0; subst r; cbn; lia);
    apply Z.eqb_neq in E0; cbn [located];
    (split; [lia|]).
  - f_equal. lia.
  - assert (Z.odd den = true) as Ho by (rewrite <- Z.negb_even, Ev; reflexivity).
    apply Z.odd_spec in Ho as [b Hb].
    destruct (Z.compare_spec (2 * r + 1) den);
      compare_to_order; lia.
Qed.

(** The quotient of two positive normal doubles, away from the ends of the
    exponent range. *)
Lemma fdiv_spec (m1 m2 : positive) (e1 e2 : Z) :
  2 ^ 52 <= Zpos m1 < 2 ^ 53 -> 2 ^ 52 <= Zpos m2 < 2 ^ 53 ->
  -900 <= e1 - e2 <= 900 ->
  exists m n,
    fdiv (S754_finite false m1 e1) (S754_finite false m2 e2)
    = S754_finite false m (e1 - e2 - 53 + n)
    /\ 0 <= n <= 2
    /\ 2 ^ 52 <= Zpos m < 2 ^ 53
    /\ 2 * Z.abs (Zpos m * 2 ^ n * Zpos m2 - Zpos m1 * 2 ^ 53)
       <= Zpos m2 * 2 ^ n.
Proof.
  intros H1 H2 He. unfold fdiv, SFdiv, SFdiv_core_binary.
  assert (Zdigits2 (Zpos m1) = 53) as Hd1.
  { apply Zdigits2_unique; [|lia]. change (53 - 1) with 52. lia. }
  assert (Zdigits2 (Zpos m2) = 53) as Hd2.
  { apply Zdigits2_unique; [|lia]. change (53 - 1) with 52. lia. }
  rewrite Hd1, Hd2.
  replace (53 + e1 - (53 + e2)) with (e1 - e2) by lia.
  rewrite fexp_normal by lia.
  replace (Z.min (e1 - e2 - 53) (e1 - e2)) with (e1 - e2 - 53) by lia.
  replace (e1 - e2 - (e1 - e2 - 53)) with 53 by lia.
  rewrite Z.shiftl_mul_pow2 by lia.
  pose proof (Z_div_mod (Zpos m1 * 2 ^ 53) (Zpos m2) ltac:(lia)) as Hdm.
  destruct (Z.div_eucl (Zpos m1 * 2 ^ 53) (Zpos m2)) as [q r].
  destruct Hdm as [Hq Hr].
  assert (2 ^ 52 <= q < 2 ^ 54) as Hqb.
  { change (2 ^ 52) with 4503599627370496 in *.
    change (2 ^ 53) with 9007199254740992 in *.
    change (2 ^ 54) with 18014398509481984. split; nia. }
  assert (located q (new_location (Zpos m2) r) (Zpos m1 * 2 ^ 53) (Zpos m2))
    as Hloc by (apply new_location_located; lia).
  assert (Zdigits2 q = 53 \/ Zdigits2 q = 54) as Hdq.
  { destruct (Z_lt_le_dec q (2 ^ 53)).
    - left. apply Zdigits2_unique; [|lia]. change (53 - 1) with 52. lia.
    - right. apply Zdigits2_unique; [|lia]. change (54 - 1) with 53. lia. }
  destruct (binary_round_aux_spec q (e1 - e2 - 53) _ _ _
              (Pos2Z.pos_is_pos m2) ltac:(pow_lia) Hloc
              ltac:(lia) ltac:(lia) ltac:(lia))
    as [m [n [Hres [Hn [Hm Herr]]]]].
  cbn [xorb]. rewrite Hres. exists m, n. repeat split; try lia.
Qed.

(** The product of two positive normal doubles, away from the ends of the
    exponent range. *)
Lemma fmul_spec (m1 m2 : positive) (e1 e2 : Z) :
  2 ^ 52 <= Zpos m1 < 2 ^ 53 -> 2 ^ 52 <= Zpos m2 < 2 ^ 53 ->
  -900 <= e1 + e2 <= 800 ->
  exists m n,
    fmul (S754_finite false m1 e1) (S754_finite false m2 e2)
    = S754_finite false m (e1 + e2 + n)
    /\ 52 <= n <= 54
    /\ 2 ^ 52 <= Zpos m < 2 ^ 53
    /\ 2 * Z.abs (Zpos m * 2 ^ n - Zpos m1 * Zpos m2) <= 2 ^ n.
Proof.
  intros H1 H2 He. unfold fmul, SFmul. cbn [xorb].
  assert (2 ^ 104 <= Zpos (m1 * m2) < 2 ^ 106) as Hp.
  { rewrite Pos2Z.inj_mul.
    change (2 ^ 104) with (2 ^ 52 * 2 ^ 52).
    change (2 ^ 106) with (2 ^ 53 * 2 ^ 53). nia. }
  assert (Zdigits2 (Zpos (m1 * m2)) = 105 \/ Zdigits2 (Zpos (m1 * m2)) = 106)
    as Hd.
  { destruct (Z_lt_le_dec (Zpos (m1 * m2)) (2 ^ 105)).
    - left. apply Zdigits2_unique; [|lia]. change (105 - 1) with 104. lia.
    - right. apply Zdigits2_unique; [|lia]. change (106 - 1) with 105. lia. }
  assert (located (Zpos (m1 * m2)) loc_Exact (Zpos (m1 * m2)) 1) as Hloc
    by (cbn; lia).
  destruct (binary_round_aux_spec (Zpos (m1 * m2)) (e1 + e2) _ _ _
              Z.lt_0_1 (Pos2Z.pos_is_pos _) Hloc
              ltac:(lia) ltac:(lia) ltac:(lia))
    as [m [n [Hres [Hn [Hm Herr]]]]].
  rewrite Hres. exists m, n. repeat split; lia.
Qed.

Lemma Zdigits2_small (z d : Z) :
  0 < z < 2 ^ d -> 0 <= d -> 1 <= Zdigits2 z <= d.
Proof.
  intros Hz Hd. pose proof (Zdigits2_bounds z ltac:(lia)) as Hb.
  destruct z as [|p|p]; try lia. cbn [Zdigits2] in *. split; [lia|].
  destruct (Z_le_gt_dec (Zpos (digits2_pos p)) d) as [H | H]; [exact H|].
  assert (2 ^ d <= 2 ^ (Zpos (digits2_pos p) - 1))
    by (apply Z.pow_le_mono_r; lia).
  lia.
Qed.

(** The double [elapsed / total * 100] of the script, for integers in range:
    a mantissa [m] and an exponent [- g] with [m / 2^g] within 41/32 units
    of 2^-g of the exact value [100 * elapsed / total], these units being
    finer than one fifth of [1 / total]. *)
Lemma percent_product (E T : Z) :
  0 < E < 2 ^ 43 -> 0 < T < 2 ^ 53 ->
  exists m g,
    fmul (fdiv (toFloat (Int E)) (toFloat (Int T))) (toFloat (Int 100))
    = S754_finite false m (- g)
    /\ 0 < g
    /\ 32 * Z.abs (Zpos m * T - 100 * E * 2 ^ g) <= 41 * T
    /\ 5 * T < 2 ^ g.
Proof.
  intros HE HT.
  destruct (toFloat_normal E) as [m1 [k1 [F1 [Hk1 [Hv1 Hm1]]]]];
    [change (2 ^ 43) with 8796093022208 in HE;
     change (2 ^ 53) with 9007199254740992; lia|].
  destruct (toFloat_normal T HT) as [m2 [k2 [F2 [Hk2 [Hv2 Hm2]]]]].
  pose proof (Zdigits2_small E 43 HE ltac:(lia)) as Hd1.
  pose proof (Zdigits2_small T 53 HT ltac:(lia)) as Hd2.
  rewrite F1, F2.
  destruct (fdiv_spec m1 m2 (- k1) (- k2) Hm1 Hm2 ltac:(lia))
    as [mq [n [Fq [Hn [Hmq Hq]]]]].
  rewrite Fq.
  change (toFloat (Int 100)) with (S754_finite false 7036874417766400 (-46)).
  destruct (fmul_spec mq 7036874417766400 (- k1 - - k2 - 53 + n) (-46) Hmq
              ltac:(pow_lia) ltac:(lia))
    as [my [n' [Fy [Hn' [Hmy Hy]]]]].
  rewrite Fy.
  set (g := 99 + k1 - k2 - n - n').
  exists my, g.
  split; [f_equal; subst g; lia|].
  assert (0 < g) as Hg by (subst g; lia).
  split; [exact Hg|].
  (* the two rounding errors, freed of their common powers of two *)
  set (W := 2 ^ g).
  assert (0 < W) as HW by (apply Z.pow_pos_nonneg; lia).
  set (C := 2 ^ (n' - 46)).
  assert (C = 64 \/ C = 128 \/ C = 256) as HC.
  { subst C. assert (n' = 52 \/ n' = 53 \/ n' = 54) as [-> | [-> | ->]] by lia;
      cbn; tauto. }
  assert (2 * Z.abs (Zpos my * C - 100 * Zpos mq) <= C) as H1.
  { assert (2 ^ n' = C * 70368744177664) as Hp.
    { subst C. change 70368744177664 with (2 ^ 46).
      rewrite <- Z.pow_add_r by lia. f_equal. lia. }
    rewrite Hp in Hy. lia. }
  assert (2 * Z.abs (Zpos mq * T - E * C * W) <= T) as H2.
  { set (A := 2 ^ (k2 + n)).
    assert (0 < A) as HA by (apply Z.pow_pos_nonneg; lia).
    assert (2 ^ n * Zpos m2 = T * A) as Hp2.
    { rewrite Hv2. subst A. rewrite Z.pow_add_r by lia. ring. }
    assert (Zpos m1 * 2 ^ 53 = E * C * W * A) as Hp1.
    { rewrite Hv1. subst A C W.
      rewrite <- !Z.mul_assoc, <- !Z.pow_add_r by lia.
      f_equal. f_equal. subst g. lia. }
    replace (Zpos mq * 2 ^ n * Zpos m2) with (Zpos mq * (T * A)) in Hq
      by (rewrite <- Hp2; ring).
    replace (Zpos m2 * 2 ^ n) with (A * T) in Hq
      by (rewrite (Z.mul_comm A T), <- Hp2; ring).
    rewrite Hp1 in Hq.
    replace (Zpos mq * (T * A) - E * C * W * A)
      with (A * (Zpos mq * T - E * C * W)) in Hq by ring.
    rewrite Z.abs_mul, (Z.abs_eq A), Z.mul_assoc, (Z.mul_comm 2 A),
      <- Z.mul_assoc in Hq by lia.
    now apply Z.mul_le_mono_pos_l in Hq. }
  assert (32 * Z.abs (Zpos my * T - 100 * E * W) <= 41 * T) as HD.
  { assert (C * (Zpos my * T - 100 * E * W)
            = (Zpos my * C - 100 * Zpos mq) * T
              + 100 * (Zpos mq * T - E * C * W)) as Hsplit by ring.
    revert H1 H2 Hsplit.
    generalize (Zpos my * C - 100 * Zpos mq) (Zpos mq * T - E * C * W)
               (Zpos my * T - 100 * E * W).
    intros d1 d2 x H1 H2 Hsplit.
    assert (- (C * T) <= 2 * (d1 * T) <= C * T) as Hd1T.
    { assert (- C <= 2 * d1 <= C) as Hd by lia.
      split.
      - replace (- (C * T)) with (- C * T) by ring.
        replace (2 * (d1 * T)) with (2 * d1 * T) by ring.
        apply Z.mul_le_mono_nonneg_r; lia.
      - replace (2 * (d1 * T)) with (2 * d1 * T) by ring.
        apply Z.mul_le_mono_nonneg_r; lia. }
    destruct HC as [HC | [HC | HC]]; rewrite HC in *; lia. }
  split; [exact HD|].
  assert (4503599627370496 * T <= Zpos my * T) as HmT.
  { apply Z.mul_le_mono_nonneg_r; [lia|].
    change (2 ^ 52) with 4503599627370496 in Hmy. lia. }
  assert (E * W <= 8796093022207 * W) as HEW.
  { apply Z.mul_le_mono_nonneg_r; [lia|].
    change (2 ^ 43) with 8796093022208 in HE. lia. }
  fold W. lia.
Qed.

Lemma Math_round_finite (m : positive) (g : Z) :
  0 < g ->
  Math_round (S754_finite false m (- g))
  = Int ((2 * Zpos m + 2 ^ g) / (2 * 2 ^ g)).
Proof.
  intros Hg. unfold Math_round.
  replace (0 <=? - g) with false by (symmetry; apply Z.leb_gt; lia).
  rewrite andb_false_r, Z.opp_involutive.
  replace (1 - - g) with (Z.succ g) by lia.
  now rewrite Z.pow_succ_r by lia.
Qed.

(** Rounding to nearest, halves upwards, from bounds on the doubled value. *)
Lemma round_from_bounds (K W y : Z) :
  0 < W -> (2 * K - 1) * W <= 2 * y < (2 * K + 1) * W ->
  (2 * y + W) / (2 * W) = K.
Proof.
  intros HW H. symmetry.
  apply (Z.div_unique _ _ K (2 * y + W - 2 * W * K)); lia.
Qed.

(** The percentage of the script against the exactly rounded one. *)
Lemma percent_against_exact (E T : Z) :
  0 < E < 2 ^ 43 -> 0 < T < 2 ^ 53 ->
  exists p,
    Math_round (fmul (fdiv (toFloat (Int E)) (toFloat (Int T)))
                     (toFloat (Int 100))) = Int p
    /\ Spec.computePercent E T - 1 <= p <= Spec.computePercent E T
    /\ ((200 * E + T) mod (2 * T) <> 0 -> p = Spec.computePercent E T).
Proof.
  intros HE HT.
  destruct (percent_product E T HE HT) as [m [g [F [Hg [HD HW]]]]].
  rewrite F, (Math_round_finite _ _ Hg).
  eexists. split; [reflexivity|].
  unfold Spec.computePercent.
  replace (T =? 0) with false by (symmetry; apply Z.eqb_neq; lia).
  pose proof (Z.div_mod (200 * E + T) (2 * T) ltac:(lia)) as Hdm.
  pose proof (Z.mod_pos_bound (200 * E + T) (2 * T) ltac:(lia)) as Hrem.
  revert Hdm Hrem.
  generalize ((200 * E + T) / (2 * T)) ((200 * E + T) mod (2 * T)).
  intros K rem Hdm Hrem.
  set (W := 2 ^ g) in *.
  assert (0 < W) as HWpos by lia.
  (* 2 m T = (2K - 1) T W + rem W + 2 D *)
  assert (200 * (E * W) = (2 * K - 1) * (T * W) + rem * W) as HEW by nia.
  assert (0 <= rem * W <= (2 * T - 1) * W) as HremW.
  { split; [apply Z.mul_nonneg_nonneg; lia|].
    apply Z.mul_le_mono_nonneg_r; lia. }
  assert ((2 * K - 3) * W <= 2 * Zpos m < (2 * K + 1) * W) as Hwide.
  { split.
    - apply (Z.mul_le_mono_pos_r _ _ T); [lia|].
      replace ((2 * K - 3) * W * T) with ((2 * K - 1) * (T * W) - 2 * (T * W))
        by ring.
      assert (5 * T * T < T * W) by (apply Z.mul_lt_mono_pos_l with (p := T) in HW; lia).
      nia.
    - apply (Z.mul_lt_mono_pos_r T); [lia|].
      replace ((2 * K + 1) * W * T) with ((2 * K - 1) * (T * W) + 2 * (T * W))
        by ring.
      nia. }
  split.
  - assert (K - 1 <= (2 * Zpos m + W) / (2 * W)).
    { apply Z.div_le_lower_bound; lia. }
    assert ((2 * Zpos m + W) / (2 * W) < K + 1).
    { apply Z.div_lt_upper_bound; lia. }
    lia.
  - intros Hne. apply round_from_bounds; [exact HWpos|].
    split; [|lia].
    apply (Z.mul_le_mono_pos_r _ _ T); [lia|].
    assert (W <= rem * W).
    { replace W with (1 * W) at 1 by ring.
      apply Z.mul_le_mono_nonneg_r; lia. }
    replace ((2 * K - 1) * W * T) with ((2 * K - 1) * (T * W)) by ring.
    nia.
Qed.

(** ** Properties of the client *)

(** *** Shared lemmas *)

Lemma settle_at (s : Client) (i : nat) (p : Pending) (o : Outcome) :
  nth_error (pending s) i = Some p ->
  handle (Settle i o) s = settle p o (set_pending (removeNth i (pending s)) s).
Proof. intros H. unfold handle. now rewrite H. Qed.

Lemma removeNth_last {A : Type} (l : list A) (x : A) :
  removeNth (List.length l) (l ++ [x]) = l.
Proof.
  unfold removeNth.
  rewrite firstn_app, Nat.sub_diag, firstn_all. cbn [firstn].
  rewrite skipn_all2 by (rewrite length_app; cbn; lia).
  now rewrite !app_nil_r.
Qed.

Lemma nth_error_last {A : Type} (l : list A) (x : A) :
  nth_error (l ++ [x]) (List.length l) = Some x.
Proof. rewrite nth_error_app2, Nat.sub_diag by apply le_n. reflexivity. Qed.



Lemma screen_loadConfig_resolved (c : Config) (s : Client) :
  screen (loadConfig_resolved c s) = screen s.
Proof.
  unfold loadConfig_resolved.
  destruct (String.eqb (default_mode c) ""); reflexivity.
Qed.

Lemma init_resume_resolution (s : Client) :
  widthInput (form (init_resume s)) = detected (screenWidth (screen s)) (screen s)
  /\ heightInput (form (init_resume s))
     = detected (screenHeight (screen s)) (screen s).
Proof. split; reflexivity. Qed.

(** *** Numeric fields of a request *)

(** C1. Each numeric field of the request [buildRequest] returns is
    [parseInt(value) || null]: null when [parseInt] of the input's text is
    NaN or a zero, [parseInt] of it otherwise, and never an error.  The empty
    string gives null, and a positive integer string gives its value as a
    Number. *)
Theorem buildRequest_numeric_fields (s : Client) :
  (req_lifespan (buildRequest s) = orNull (parseInt (lifespanInput (form s)))
   /\ req_months (buildRequest s) = orNull (parseInt (monthsInput (form s)))
   /\ req_width (buildRequest s) = orNull (parseInt (widthInput (form s)))
   /\ req_height (buildRequest s) = orNull (parseInt (heightInput (form s))))
  /\ forall v : string,
       (orNull (parseInt v) = None
        <-> parseInt v = NaN \/ parseInt v = Int 0 \/ parseInt v = NegZero)
       /\ (orNull (parseInt v) <> None ->
           orNull (parseInt v) = Some (parseInt v))
       /\ (v = "" -> orNull (parseInt v) = None)
       /\ (Spec.positiveIntegerString v = true ->
           orNull (parseInt v) = Some (numberOf (Spec.decimalValue v))
           /\ parseInt v = numberOf (Spec.decimalValue v)).
Proof.
  split; [repeat split|]. intros v. split; [|split; [|split]].
  - unfold orNull.
    destruct (parseInt v) as [| b | | [|p|p]]; cbn; split;
      try discriminate; try tauto;
      intros [H | [H | H]]; discriminate.
  - unfold orNull. destruct (ToBoolean (parseInt v)); congruence.
  - intros ->. reflexivity.
  - unfold Spec.positiveIntegerString. intros H.
    apply andb_prop in H as [H Hpos]. apply andb_prop in H as [Hne Hd].
    apply Z.ltb_lt in Hpos.
    assert (v <> "") as Hne'.
    { intros ->. discriminate. }
    rewrite (parseInt_digits _ Hne' Hd).
    destruct (Spec.decimalValue v =? 0) eqn:E0;
      [apply Z.eqb_eq in E0; lia|].
    split; [|reflexivity].
    unfold orNull. rewrite ToBoolean_numberOf by lia. reflexivity.
Qed.

(** C1, as the specification words it, fails on the text [-5]: it is not a
    positive integer string, yet the request carries the Number -5 for it,
    not null. *)
Lemma parseField_counterexample :
  Spec.positiveIntegerString "-5" = false
  /\ Spec.parseField "-5" = None
  /\ req_lifespan (buildRequest (setField Lifespan "-5" Sample.page))
     = Some (Int (-5))
  /\ req_lifespan (buildRequest (setField Lifespan "-5" Sample.page))
     <> Spec.parseField "-5".
Proof. repeat split. discriminate. Qed.

(** *** A request built after start-up *)

Lemma buildRequest_init_resume (s : Client) :
  buildRequest (init_resume s)
  = {| req_mode := currentMode s;
       req_dob := orNullString (dobInput (form s));
       req_lifespan := orNull (parseInt (lifespanInput (form s)));
       req_months := orNull (parseInt (monthsInput (form s)));
       req_theme := currentTheme s;
       req_width := orNull (parseInt (detected (screenWidth (screen s)) (screen s)));
       req_height :=
         orNull (parseInt (detected (screenHeight (screen s)) (screen s))) |}.
Proof. reflexivity. Qed.

Lemma form_loadConfig_resolved (c : Config) (s : Client) :
  form (loadConfig_resolved c s)
  = {| dobInput := match dob c with
                   | Some d => if String.eqb d "" then dobInput (form s) else d
                   | None => dobInput (form s)
                   end;
       lifespanInput := Number_toString (numberOf (lifespan_years c));
       monthsInput := Number_toString (numberOf (next_months c));
       widthInput := Number_toString (numberOf (screen_width c));
       heightInput := Number_toString (numberOf (screen_height c)) |}.
Proof.
  unfold loadConfig_resolved.
  destruct (String.eqb (default_mode c) ""); reflexivity.
Qed.

Lemma globals_loadConfig_resolved (c : Config) (s : Client) :
  currentTheme (loadConfig_resolved c s) = theme c
  /\ currentMode (loadConfig_resolved c s)
     = if String.eqb (default_mode c) "" then currentMode s
       else default_mode c.
Proof.
  unfold loadConfig_resolved.
  destruct (String.eqb (default_mode c) ""); split; reflexivity.
Qed.

(** C2. A request built right after [init] has loaded a configuration
    carries the configuration's date of birth (when there is one), lifespan
    and months (when they are non-zero integers below 2^53 in magnitude),
    theme, and mode (when it is not empty) unmodified; its width and height
    are those [detectScreenResolution] has put in the form, not the
    configuration's. *)
Theorem init_request_carries_config (s : Client) (i : nat) (c : Config) :
  nth_error (pending s) i = Some AwaitConfig ->
  exists s',
    handle (Settle i (ConfigResult c)) s = Some s'
    /\ (forall d, dob c = Some d -> d <> "" ->
        req_dob (buildRequest s') = req_dob (Spec.requestOf c))
    /\ (lifespan_years c <> 0 -> Z.abs (lifespan_years c) < 2 ^ 53 ->
        req_lifespan (buildRequest s') = req_lifespan (Spec.requestOf c))
    /\ (next_months c <> 0 -> Z.abs (next_months c) < 2 ^ 53 ->
        req_months (buildRequest s') = req_months (Spec.requestOf c))
    /\ req_theme (buildRequest s') = req_theme (Spec.requestOf c)
    /\ (default_mode c <> "" ->
        req_mode (buildRequest s') = req_mode (Spec.requestOf c))
    /\ req_width (buildRequest s')
       = orNull (parseInt (detected (screenWidth (screen s)) (screen s)))
    /\ req_height (buildRequest s')
       = orNull (parseInt (detected (screenHeight (screen s)) (screen s))).
Proof.
  intros Hp. rewrite (settle_at _ _ _ _ Hp). cbn [settle].
  eexists. split; [reflexivity|].
  rewrite buildRequest_init_resume, form_loadConfig_resolved,
    screen_loadConfig_resolved.
  destruct (globals_loadConfig_resolved c
              (set_pending (removeNth i (pending s)) s)) as [Ht Hm].
  rewrite Ht, Hm. cbn.
  split; [|split; [|split; [|split; [|split; [|split]]]]]; try reflexivity.
  - intros d -> Hd. apply String.eqb_neq in Hd. rewrite Hd.
    unfold orNullString. now rewrite Hd.
  - intros Hz Hb. now apply orNull_parseInt_toString.
  - intros Hz Hb. now apply orNull_parseInt_toString.
  - intros Hd. apply String.eqb_neq in Hd. now rewrite Hd.
Qed.

Lemma init_request_carries_config_witness :
  nth_error (pending (load Sample.page)) 0 = Some AwaitConfig
  /\ exists s',
       handle (Settle 0 (ConfigResult Sample.config)) (load Sample.page)
         = Some s'
       /\ req_lifespan (buildRequest s') = Some (Int 80)
       /\ req_theme (buildRequest s') = "dark".
Proof.
  split; [reflexivity|].
  destruct (init_request_carries_config (load Sample.page) 0 Sample.config
              eq_refl) as [s' [H [_ [Hl [_ [Ht _]]]]]].
  exists s'. split; [exact H|]. split; [|exact Ht].
  apply Hl; [discriminate | reflexivity].
Defined.

(** C2, as the specification words it, fails on the configuration of the
    README loaded on a 1280x720 screen: the request asks for a width of 1280
    where the configuration says 1920. *)
Lemma round_trip_counterexample :
  exists s',
    handle (Settle 0 (ConfigResult Sample.config)) (load Sample.page) = Some s'
    /\ req_width (Spec.requestOf Sample.config) = Some (Int 1920)
    /\ req_width (buildRequest s') = Some (Int 1280)
    /\ buildRequest s' <> Spec.requestOf Sample.config.
Proof.
  eexists. split; [vm_compute; reflexivity|].
  split; [reflexivity|]. split; [reflexivity|]. discriminate.
Qed.

(** *** The percentage *)

Lemma gtZero_numberOf_nonpositive (t : Z) :
  t <= 0 -> gtZero (numberOf t) = false.
Proof.
  intros Ht. unfold numberOf.
  destruct (roundMagnitude (Z.abs t)) as [v|] eqn:E.
  - destruct (Z.eq_dec t 0) as [-> | Hz]; [reflexivity|].
    apply roundMagnitude_pos in E; [|lia].
    cbn [gtZero]. apply Z.ltb_ge. destruct t as [|q|q]; lia.
  - cbn [gtZero]. destruct (t <? 0) eqn:E0; [reflexivity|].
    apply Z.ltb_ge in E0. assert (t = 0) as -> by lia. discriminate E.
Qed.

Lemma percent_of_nothing (T : Z) :
  0 < T < 2 ^ 53 ->
  Math_round (fmul (fdiv (toFloat (Int 0)) (toFloat (Int T)))
                   (toFloat (Int 100))) = Int 0.
Proof.
  intros HT. destruct (toFloat_normal T HT) as [m [k [F _]]].
  rewrite F. reflexivity.
Qed.

(** C3. The percentage [generatePreview] shows is 0 when [total_weeks] is 0
    (or below), and otherwise [Math.round] of the double
    [(elapsed_weeks / total_weeks) * 100].  For [elapsed_weeks] below 2^43
    and [total_weeks] below 2^53 that is the exactly rounded percentage
    whenever [100 * elapsed_weeks / total_weeks] is not halfway between two
    integers, and the exactly rounded percentage or one less when it is.
    For 1300 of 4160 weeks it is 31. *)
Theorem percent_rounds (response : PreviewResponse) :
  (total_weeks response <= 0 -> percent response = Int 0)
  /\ (0 <= elapsed_weeks response < 2 ^ 43 ->
      0 < total_weeks response < 2 ^ 53 ->
      exists p,
        percent response = Int p
        /\ Spec.computePercent (elapsed_weeks response) (total_weeks response) - 1
           <= p
           <= Spec.computePercent (elapsed_weeks response) (total_weeks response)
        /\ ((200 * elapsed_weeks response + total_weeks response)
              mod (2 * total_weeks response) <> 0 ->
            p = Spec.computePercent (elapsed_weeks response)
                                    (total_weeks response)))
  /\ (elapsed_weeks response = 1300 -> total_weeks response = 4160 ->
      percent response = Int 31)
  /\ (forall s i, nth_error (pending s) i = Some AwaitPreview ->
      exists s',
        handle (Settle i (PreviewResult response)) s = Some s'
        /\ statPercent (preview s') = Number_toString (percent response) ++ "%").
Proof.
  split; [|split; [|split]].
  - intros Ht. unfold percent.
    now rewrite gtZero_numberOf_nonpositive.
  - intros HE HT. unfold percent.
    rewrite (numberOf_small (total_weeks response)),
      (numberOf_small (elapsed_weeks response)) by pow_lia.
    cbn [gtZero].
    replace (0 <? total_weeks response) with true
      by (symmetry; apply Z.ltb_lt; lia).
    destruct (Z.eq_dec (elapsed_weeks response) 0) as [E0 | E0].
    + rewrite E0, (percent_of_nothing _ HT). exists 0.
      unfold Spec.computePercent.
      replace (total_weeks response =? 0) with false
        by (symmetry; apply Z.eqb_neq; lia).
      rewrite Z.mul_0_r, Z.add_0_l.
      rewrite Z.div_small by lia. repeat split; lia.
    + apply percent_against_exact; lia.
  - intros HE HT. unfold percent. rewrite HE, HT. vm_compute. reflexivity.
  - intros s i Hp. rewrite (settle_at _ _ _ _ Hp). eexists.
    split; reflexivity.
Qed.

(** C3, as the specification words it, fails on 23 of 40 weeks: the exact
    percentage 57.5 rounds to 58, but the double [(23 / 40) * 100] is just
    below 57.5 and the script shows 57. *)
Lemma percent_counterexample :
  percent Sample.halfway = Int 57
  /\ Spec.computePercent (elapsed_weeks Sample.halfway)
                         (total_weeks Sample.halfway) = 58
  /\ fmul (fdiv (toFloat (Int 23)) (toFloat (Int 40))) (toFloat (Int 100))
     = S754_finite false 8092405580431359 (-47).
Proof. split; [|split]; vm_compute; reflexivity. Qed.

(** *** Failed calls *)

(** C4. A [generatePreview] call whose [generate_preview] invocation rejects
    shows an error toast and leaves the preview pane (image, title, subtitle,
    the three stats), [hasPreview] and the set-wallpaper button as they were:
    neither the part of the call before the [await] nor the part after the
    rejection touches them. *)
Theorem generatePreview_failure_keeps_preview
  (s : Client) (i : nat) (error : string) :
  nth_error (pending s) i = Some AwaitPreview ->
  (preview (generatePreview s) = preview s
   /\ hasPreview (generatePreview s) = hasPreview s
   /\ setWallpaperBtn (generatePreview s) = setWallpaperBtn s)
  /\ exists s',
       handle (Settle i (Rejected error)) s = Some s'
       /\ toast s' = errorToast error
       /\ preview s' = preview s
       /\ hasPreview s' = hasPreview s
       /\ setWallpaperBtn s' = setWallpaperBtn s.
Proof.
  intros Hp. split; [repeat split|].
  exists (generatePreview_rejected error
            (set_pending (removeNth i (pending s)) s)).
  rewrite (settle_at _ _ _ _ Hp). repeat split.
Qed.

Lemma generatePreview_failure_keeps_preview_witness :
  nth_error (pending (generatePreview Sample.page)) 0 = Some AwaitPreview
  /\ exists s',
       handle (Settle 0 (Rejected "render failed"))
              (generatePreview Sample.page) = Some s'
       /\ toast s' = errorToast "render failed"
       /\ preview s' = preview (generatePreview Sample.page).
Proof.
  split; [reflexivity|].
  destruct (generatePreview_failure_keeps_preview
              (generatePreview Sample.page) 0 "render failed" eq_refl)
    as [_ [s' [H [Ht [Hv _]]]]].
  exists s'. auto.
Defined.

(** C5. When [toggle_schedule] rejects, [toggleSchedule] sets the toggle to
    the negation of the value [b] it was called with and shows an error
    toast; when it resolves, the toggle is left alone and the backend's
    message is shown as a success toast.  A change of the toggle starts the
    call with the new value, so that a rejection arriving next puts the
    toggle back where it was before the change, and a resolution leaves the
    new value in place. *)
Theorem toggleSchedule_reverts_on_failure
  (s : Client) (i : nat) (b : bool) :
  nth_error (pending s) i = Some (AwaitToggle b) ->
  (forall error, exists s',
      handle (Settle i (Rejected error)) s = Some s'
      /\ scheduleToggle s' = negb b
      /\ toast s' = errorToast error)
  /\ (forall message, exists s',
      handle (Settle i (MessageResult message)) s = Some s'
      /\ scheduleToggle s' = scheduleToggle s
      /\ toast s' = successToast message)
  /\ (forall s0 s1, handle ChangeSchedule s0 = Some s1 ->
      scheduleToggle s1 = negb (scheduleToggle s0)
      /\ invoked s1 = (invoked s0 ++ [toggle_schedule (scheduleToggle s1)])%list
      /\ pending s1 = (pending s0 ++ [AwaitToggle (scheduleToggle s1)])%list
      /\ (forall error s2,
            handle (Settle (List.length (pending s0)) (Rejected error)) s1 = Some s2 ->
            scheduleToggle s2 = scheduleToggle s0 /\ toast s2 = errorToast error)
      /\ (forall message s2,
            handle (Settle (List.length (pending s0)) (MessageResult message)) s1
              = Some s2 ->
            scheduleToggle s2 = scheduleToggle s1
            /\ toast s2 = successToast message)).
Proof.
  intros Hp. split; [|split].
  - intros error. rewrite (settle_at _ _ _ _ Hp). eexists. repeat split.
  - intros message. rewrite (settle_at _ _ _ _ Hp). eexists. repeat split.
  - intros s0 s1 H. injection H as <-.
    assert (Hn : nth_error
                   (pending (toggleSchedule
                      (set_scheduleToggle (negb (scheduleToggle s0)) s0)))
                   (List.length (pending s0))
                 = Some (AwaitToggle (negb (scheduleToggle s0)))).
    { cbn. rewrite nth_error_app2, Nat.sub_diag by apply le_n. reflexivity. }
    split; [reflexivity|]. split; [reflexivity|]. split; [reflexivity|].
    split.
    + intros error s2. rewrite (settle_at _ _ _ _ Hn). intros [= <-].
      split; [apply negb_involutive | reflexivity].
    + intros message s2. rewrite (settle_at _ _ _ _ Hn). intros [= <-].
      split; reflexivity.
Qed.

Lemma toggleSchedule_reverts_on_failure_witness :
  nth_error (pending (toggleSchedule (set_scheduleToggle true Sample.page))) 0
    = Some (AwaitToggle true)
  /\ exists s',
       handle (Settle 0 (Rejected "access denied"))
              (toggleSchedule (set_scheduleToggle true Sample.page)) = Some s'
       /\ scheduleToggle s' = false
       /\ toast s' = errorToast "access denied".
Proof.
  split; [reflexivity|].
  exact (proj1 (toggleSchedule_reverts_on_failure
                  (toggleSchedule (set_scheduleToggle true Sample.page))
                  0 true eq_refl) "access denied").
Defined.

(** C6. A rejection of [save_config] is caught inside [saveConfig]: it adds
    one [console.error] line and nothing else, and [setWallpaper], which was
    waiting for [saveConfig], goes on to its success toast.  So a click on
    the set-wallpaper button whose [set_wallpaper_cmd] resolves ends in
    "Wallpaper set successfully!" even when the [save_config] that follows
    rejects. *)
Theorem saveConfig_failure_is_silent
  (s : Client) (i : nat) (error : string) :
  nth_error (pending s) i = Some AwaitSave ->
  (exists s',
     handle (Settle i (Rejected error)) s = Some s'
     /\ toast s' = successToast "Wallpaper set successfully!"
     /\ console s' = (console s ++ [console_error "Save config error:" error])%list
     /\ invoked s' = invoked s
     /\ pending s' = removeNth i (pending s)
     /\ setWallpaperBtn s' = {| loading := false; disabled := false |})
  /\ (forall s0 message,
        disabled (setWallpaperBtn s0) = false ->
        exists s3,
          run [ClickSetWallpaper;
               Settle (List.length (pending s0)) (MessageResult message);
               Settle (List.length (pending s0)) (Rejected error)] s0 = Some s3
          /\ toast s3 = successToast "Wallpaper set successfully!"
          /\ console s3
             = (console s0 ++ [console_error "Save config error:" error])%list
          /\ pending s3 = pending s0).
Proof.
  intros Hp. split.
  - rewrite (settle_at _ _ _ _ Hp). eexists. repeat split.
  - intros s0 message Hd. unfold run.
    unfold handle at 1. rewrite Hd.
    rewrite (settle_at _ _ AwaitWallpaper) by apply nth_error_last.
    cbn [settle]. unfold setWallpaper_resolved, saveConfig.
    rewrite (settle_at _ _ AwaitSave).
    + eexists. split; [reflexivity|]. cbn.
      rewrite removeNth_last. repeat split.
      apply removeNth_last.
    + cbn. rewrite removeNth_last. apply nth_error_last.
Qed.

Lemma saveConfig_failure_is_silent_witness :
  nth_error (pending (saveConfig Sample.page)) 0 = Some AwaitSave
  /\ exists s',
       handle (Settle 0 (Rejected "disk full")) (saveConfig Sample.page)
         = Some s'
       /\ toast s' = successToast "Wallpaper set successfully!"
       /\ console s' = [console_error "Save config error:" "disk full"].
Proof.
  split; [reflexivity|].
  destruct (proj1 (saveConfig_failure_is_silent
                     (saveConfig Sample.page) 0 "disk full" eq_refl))
    as [s' [H [Ht [Hc _]]]].
  exists s'. auto.
Defined.

(** *** The [hasPreview] flag *)

Lemma In_removeNth {A : Type} (x : A) (i : nat) :
  forall l : list A, In x (removeNth i l) -> In x l.
Proof.
  unfold removeNth. induction i as [|i IH]; intros [|y l]; cbn; auto.
  intros [H | H]; [now left | right; now apply IH].
Qed.

Lemma hasPreview_loadConfig_resolved (c : Config) (s : Client) :
  hasPreview (loadConfig_resolved c s) = hasPreview s.
Proof.
  unfold loadConfig_resolved.
  destruct (String.eqb (default_mode c) ""); reflexivity.
Qed.

Lemma hasPreview_settle (p : Pending) (o : Outcome) (s s' : Client) :
  settle p o s = Some s' ->
  hasPreview s' =
    match p, o with
    | AwaitPreview, PreviewResult _ => true
    | _, _ => hasPreview s
    end.
Proof.
  destruct p, o; cbn; intros [= <-]; try reflexivity.
  cbn. apply hasPreview_loadConfig_resolved.
Qed.

Lemma hasPreview_handle (ev : Event) (s s' : Client) :
  handle ev s = Some s' ->
  hasPreview s' = hasPreview s || previewSucceeds ev s.
Proof.
  destruct ev; cbn.
  - destruct (nth_error (modeTabs s) i); intros [= <-]. cbn. now rewrite orb_false_r.
  - destruct (nth_error (themeBtns s) i); intros [= <-]. cbn. now rewrite orb_false_r.
  - intros [= <-]. cbn. now rewrite orb_false_r.
  - destruct (disabled (generateBtn s)); intros [= <-]. cbn. now rewrite orb_false_r.
  - destruct (disabled (setWallpaperBtn s)); intros [= <-]. cbn. now rewrite orb_false_r.
  - intros [= <-]. cbn. now rewrite orb_false_r.
  - intros [= <-]. rewrite orb_false_r.
    destruct (autoGenerates f); [|reflexivity].
    unfold inputChanged.
    change (hasPreview (setField f value s)) with (hasPreview s).
    destruct (hasPreview s) eqn:E; [|exact E].
    change (hasPreview s = true). exact E.
  - destruct (nth_error (pending s) i) as [p|]; [|discriminate].
    intros H. rewrite (hasPreview_settle _ _ _ _ H). cbn.
    destruct p, o; cbn; try (now rewrite orb_false_r); try discriminate.
    now rewrite orb_true_r.
  - destruct (timers s); intros [= <-]. cbn. now rewrite orb_false_r.
Qed.

Lemma hasPreview_run (evs : list Event) :
  forall s s', run evs s = Some s' -> hasPreview s = true -> hasPreview s' = true.
Proof.
  induction evs as [|ev evs IH]; cbn; intros s s' H Hs.
  - now injection H as <-.
  - destruct (handle ev s) as [s1|] eqn:E; [|discriminate].
    apply (IH _ _ H). rewrite (hasPreview_handle _ _ _ E), Hs. reflexivity.
Qed.

(** C7. [hasPreview] is false once the script has loaded; an event turns it
    from false to true exactly when it is the settling of a
    [generate_preview] call with a response; no event turns it from true to
    false, hence once true it stays true along every sequence of events. *)
Theorem hasPreview_monotone :
  (forall page, hasPreview (load page) = false)
  /\ (forall ev s s', handle ev s = Some s' ->
        hasPreview s = false ->
        (hasPreview s' = true <-> previewSucceeds ev s = true))
  /\ (forall ev s s', handle ev s = Some s' ->
        hasPreview s = true -> hasPreview s' = true)
  /\ (forall evs s s', run evs s = Some s' ->
        hasPreview s = true -> hasPreview s' = true).
Proof.
  split; [reflexivity|]. split; [|split].
  - intros ev s s' H Hs. rewrite (hasPreview_handle _ _ _ H), Hs. reflexivity.
  - intros ev s s' H Hs. rewrite (hasPreview_handle _ _ _ H), Hs. reflexivity.
  - intros evs. apply hasPreview_run.
Qed.

(** *** The set-wallpaper button *)

Lemma In_snoc_other {A : Type} (x y : A) (l : list A) :
  x <> y -> In x (l ++ [y]) -> In x l.
Proof.
  intros Hne H. apply in_app_iff in H as [H | [H | []]]; [assumption|].
  now subst.
Qed.

Lemma wallpaperGuard_settle (p : Pending) (o : Outcome) (s s' : Client) :
  settle p o s = Some s' ->
  (p = AwaitWallpaper \/ p = AwaitSave -> hasPreview s = true) ->
  wallpaperGuard s -> wallpaperGuard s'.
Proof.
  intros H Hp [G1 [G2 G3]].
  destruct p, o; cbn in H; try discriminate; injection H as <-;
    unfold wallpaperGuard, loadConfig_resolved;
    try destruct (String.eqb (default_mode config) "");
    cbn; repeat split; auto.
Qed.

Lemma wallpaperGuard_handle (ev : Event) (s s' : Client) :
  handle ev s = Some s' -> wallpaperGuard s -> wallpaperGuard s'.
Proof.
  intros H G. pose proof G as [G1 [G2 G3]]. revert H.
  destruct ev; cbn.
  - destruct (nth_error (modeTabs s) i); intros [= <-]; exact G.
  - destruct (nth_error (themeBtns s) i); intros [= <-]; exact G.
  - intros [= <-]. exact G.
  - destruct (disabled (generateBtn s)); intros [= <-].
    repeat split; cbn; intros Hin; auto;
      apply In_snoc_other in Hin; auto; discriminate.
  - destruct (disabled (setWallpaperBtn s)) eqn:Hd; intros [= <-].
    repeat split; cbn; intros Hin; auto.
  - intros [= <-].
    repeat split; cbn; intros Hin; auto;
      apply In_snoc_other in Hin; auto; discriminate.
  - intros [= <-]. destruct (autoGenerates f); [|exact G].
    unfold inputChanged.
    change (hasPreview (setField f value s)) with (hasPreview s).
    destruct (hasPreview s) eqn:E; [|exact G].
    repeat split; cbn; auto.
  - destruct (nth_error (pending s) i) as [p|] eqn:E; [|discriminate].
    intros H. apply (wallpaperGuard_settle _ _ _ _ H).
    + cbn. apply nth_error_In in E. intros [-> | ->]; auto.
    + repeat split; cbn; auto; intros Hin; apply In_removeNth in Hin; auto.
  - destruct (timers s); intros [= <-]. exact G.
Qed.

Lemma wallpaperGuard_run (evs : list Event) :
  forall s s', run evs s = Some s' -> wallpaperGuard s -> wallpaperGuard s'.
Proof.
  induction evs as [|ev evs IH]; cbn; intros s s' H G.
  - now injection H as <-.
  - destruct (handle ev s) as [s1|] eqn:E; [|discriminate].
    exact (IH _ _ H (wallpaperGuard_handle _ _ _ E G)).
Qed.

(** Where [hasPreview] has become true, some event before was the settling
    of a [generate_preview] call with a response. *)
Lemma hasPreview_history (evs : list Event) :
  forall s s', run evs s = Some s' ->
    hasPreview s = false -> hasPreview s' = true ->
    exists pre ev post s1,
      evs = (pre ++ ev :: post)%list
      /\ run pre s = Some s1
      /\ previewSucceeds ev s1 = true.
Proof.
  induction evs as [|ev evs IH]; cbn; intros s s' H Hs Hs'.
  - injection H as <-. congruence.
  - destruct (handle ev s) as [s1|] eqn:E; [|discriminate].
    destruct (hasPreview s1) eqn:E1.
    + exists [], ev, evs, s. repeat split.
      rewrite (hasPreview_handle _ _ _ E), Hs in E1. exact E1.
    + destruct (IH _ _ H E1 Hs') as [pre [ev' [post [s2 [-> [Hr Hp]]]]]].
      exists (ev :: pre), ev', post, s2. repeat split; [|exact Hp].
      cbn. now rewrite E.
Qed.

(** C8. On a page whose set-wallpaper button starts disabled, whenever the
    button is enabled after some sequence of events, one of these events was
    the settling of a [generate_preview] call with a response.  And such a
    settling with [elapsed_weeks = 1000], [remaining_weeks = 3160] and
    [total_weeks = 4160] shows "1,000", "3,160" and "24%" and enables the
    button. *)
Theorem setWallpaper_enabled_only_after_preview
  (page : Client) (evs : list Event) (s : Client) :
  disabled (setWallpaperBtn page) = true ->
  run evs (load page) = Some s ->
  (disabled (setWallpaperBtn s) = false ->
   exists pre ev post s1,
     evs = (pre ++ ev :: post)%list
     /\ run pre (load page) = Some s1
     /\ previewSucceeds ev s1 = true)
  /\ (forall i response,
        nth_error (pending s) i = Some AwaitPreview ->
        elapsed_weeks response = 1000 ->
        remaining_weeks response = 3160 ->
        total_weeks response = 4160 ->
        exists s',
          handle (Settle i (PreviewResult response)) s = Some s'
          /\ statElapsed (preview s') = "1,000"
          /\ statRemaining (preview s') = "3,160"
          /\ statPercent (preview s') = "24%"
          /\ disabled (setWallpaperBtn s') = false
          /\ hasPreview s' = true).
Proof.
  intros Hd Hr. split.
  - intros He.
    assert (G : wallpaperGuard (load page)).
    { repeat split; cbn; try tauto.
      - rewrite Hd. discriminate.
      - intros [H | []]; discriminate.
      - intros [H | []]; discriminate. }
    apply (hasPreview_history _ _ _ Hr); [reflexivity|].
    exact (proj1 (wallpaperGuard_run _ _ _ Hr G) He).
  - intros i response Hp He Hm Ht.
    rewrite (settle_at _ _ _ _ Hp). eexists. split; [reflexivity|].
    destruct response as [img ttl sub e r t]. cbn in He, Hm, Ht. subst e r t.
    split; [vm_compute; reflexivity|].
    split; [vm_compute; reflexivity|].
    split; [vm_compute; reflexivity|].
    split; reflexivity.
Qed.

Lemma setWallpaper_enabled_only_after_preview_witness :
  disabled (setWallpaperBtn Sample.page) = true
  /\ exists s,
       run [ClickGenerate; Settle 1 (PreviewResult Sample.response)]
           (load Sample.page) = Some s
       /\ disabled (setWallpaperBtn s) = false
       /\ exists pre ev post s1,
            [ClickGenerate; Settle 1 (PreviewResult Sample.response)]
              = (pre ++ ev :: post)%list
            /\ run pre (load Sample.page) = Some s1
            /\ previewSucceeds ev s1 = true.
Proof.
  split; [reflexivity|].
  assert (Hr : exists s,
             run [ClickGenerate; Settle 1 (PreviewResult Sample.response)]
                 (load Sample.page) = Some s
             /\ disabled (setWallpaperBtn s) = false).
  { eexists. split; vm_compute; reflexivity. }
  destruct Hr as [s [Hr He]].
  exists s. split; [exact Hr|]. split; [exact He|].
  exact (proj1 (setWallpaper_enabled_only_after_preview Sample.page _ s
                  eq_refl Hr) He).
Defined.

(** *** Start-up *)

(** C9. When [get_config] settles, with a configuration or with an error,
    [init] goes on to [detectScreenResolution], which writes
    [Math.round(screen.width * devicePixelRatio)] and
    [Math.round(screen.height * devicePixelRatio)] into the width and height
    inputs.  The width and height of a request built right after start-up
    therefore come from the screen, whatever [screen_width] and
    [screen_height] the configuration held. *)
Theorem init_overwrites_resolution (s : Client) (i : nat) (o : Outcome) :
  nth_error (pending s) i = Some AwaitConfig ->
  (exists c, o = ConfigResult c) \/ (exists e, o = Rejected e) ->
  exists s',
    handle (Settle i o) s = Some s'
    /\ (exists s0, s' = detectScreenResolution s0)
    /\ widthInput (form s') = detected (screenWidth (screen s)) (screen s)
    /\ heightInput (form s') = detected (screenHeight (screen s)) (screen s)
    /\ req_width (buildRequest s')
       = orNull (parseInt (detected (screenWidth (screen s)) (screen s)))
    /\ req_height (buildRequest s')
       = orNull (parseInt (detected (screenHeight (screen s)) (screen s))).
Proof.
  intros Hp Ho. rewrite (settle_at _ _ _ _ Hp).
  destruct Ho as [[c ->] | [e ->]]; cbn [settle]; eexists;
    (split; [reflexivity|]); (split; [eexists; reflexivity|]).
  - destruct (init_resume_resolution
                (loadConfig_resolved c (set_pending (removeNth i (pending s)) s)))
      as [Hw Hh].
    rewrite screen_loadConfig_resolved in Hw, Hh.
    unfold buildRequest. cbn [req_width req_height].
    rewrite Hw, Hh. repeat split.
  - repeat split.
Qed.

Lemma init_overwrites_resolution_witness :
  nth_error (pending (load Sample.page)) 0 = Some AwaitConfig
  /\ exists s',
       handle (Settle 0 (ConfigResult Sample.config)) (load Sample.page)
         = Some s'
       /\ widthInput (form s') = "1280"
       /\ heightInput (form s') = "720".
Proof.
  split; [reflexivity|].
  destruct (init_overwrites_resolution (load Sample.page) 0
              (ConfigResult Sample.config) eq_refl
              (or_introl (ex_intro _ Sample.config eq_refl)))
    as [s' [H [_ [Hw [Hh _]]]]].
  exists s'. split; [exact H|].
  split; [rewrite Hw | rewrite Hh]; vm_compute; reflexivity.
Defined.

(** *** Automatic regeneration *)

(** C10. A change of the date-of-birth, lifespan or months input starts a
    [generate_preview] call, built from the form with the new value, exactly
    when [hasPreview] is true; while it is false the change makes no backend
    call and leaves no call pending. *)
Theorem change_regenerates_iff_hasPreview
  (s : Client) (f : Field) (value : string) :
  f = Dob \/ f = Lifespan \/ f = Months ->
  exists s',
    handle (Change f value) s = Some s'
    /\ (hasPreview s = true ->
        invoked s'
        = (invoked s ++ [generate_preview (buildRequest (setField f value s))])%list
        /\ pending s' = (pending s ++ [AwaitPreview])%list)
    /\ (hasPreview s = false ->
        invoked s' = invoked s /\ pending s' = pending s)
    /\ (invoked s' <> invoked s <-> hasPreview s = true).
Proof.
  intros Hf.
  assert (handle (Change f value) s = Some (inputChanged (setField f value s)))
    as -> by (destruct Hf as [-> | [-> | ->]]; reflexivity).
  eexists. split; [reflexivity|].
  unfold inputChanged.
  change (hasPreview (setField f value s)) with (hasPreview s).
  destruct (hasPreview s); (split; [|split]).
  - intros _. split; reflexivity.
  - discriminate.
  - split; [reflexivity|]. intros _ H.
    apply (f_equal (@List.length _)) in H. cbn in H.
    rewrite length_app in H. cbn in H. lia.
  - discriminate.
  - intros _. split; reflexivity.
  - split; [|discriminate]. intros H. now elim H.
Qed.

Lemma change_regenerates_iff_hasPreview_witness :
  exists s s' t',
    run [ClickGenerate; Settle 1 (PreviewResult Sample.response)]
        (load Sample.page) = Some s
    /\ hasPreview s = true
    /\ handle (Change Dob "2000-01-01") s = Some s'
    /\ invoked s'
       = (invoked s
          ++ [generate_preview (buildRequest (setField Dob "2000-01-01" s))])%list
    /\ hasPreview (load Sample.page) = false
    /\ handle (Change Months "9") (load Sample.page) = Some t'
    /\ invoked t' = invoked (load Sample.page).
Proof.
  assert (Hr : exists s,
             run [ClickGenerate; Settle 1 (PreviewResult Sample.response)]
                 (load Sample.page) = Some s
             /\ hasPreview s = true).
  { eexists. split; vm_compute; reflexivity. }
  destruct Hr as [s [Hr Hp]].
  destruct (change_regenerates_iff_hasPreview s Dob "2000-01-01"
              (or_introl eq_refl)) as [s' [H [Ht _]]].
  destruct (change_regenerates_iff_hasPreview (load Sample.page) Months "9"
              (or_intror (or_intror eq_refl))) as [t' [H' [_ [Hn _]]]].
  exists s, s', t'.
  split; [exact Hr|]. split; [exact Hp|]. split; [exact H|].
  split; [exact (proj1 (Ht Hp))|]. split; [reflexivity|].
  split; [exact H' | exact (proj1 (Hn eq_refl))].
Defined.

(** ** Further properties of the client *)

(** *** Lemmas on pending calls *)

Lemma In_removeNth_other {A : Type} (x p : A) (i : nat) :
  forall l : list A,
    nth_error l i = Some p -> x <> p -> In x l -> In x (removeNth i l).
Proof.
  unfold removeNth. induction i as [|i IH]; intros [|y l]; cbn; try discriminate.
  - intros [= ->] Hne [H | H]; [congruence | exact H].
  - intros Hn Hne [H | H]; [now left | right; now apply IH].
Qed.

Lemma In_snoc {A : Type} (x y : A) (l : list A) : In x l -> In x (l ++ [y]).
Proof. intros H. apply in_or_app. now left. Qed.

(** *** Mode-specific fields *)

Lemma Forall_map_const {A : Type} (P : A -> Prop) (v : A) (l : list A) :
  P v -> Forall P (map (fun _ => v) l).
Proof. intros H. induction l; cbn; constructor; auto. Qed.

Lemma modeVisibility_update (s : Client) :
  modeVisibility (updateModeVisibility s).
Proof. split; cbn; now apply Forall_map_const. Qed.

Lemma modeVisibility_same (s s' : Client) :
  currentMode s' = currentMode s ->
  lifeOnlyElements s' = lifeOnlyElements s ->
  monthsOnlyElements s' = monthsOnlyElements s ->
  modeVisibility s -> modeVisibility s'.
Proof. unfold modeVisibility. intros -> -> ->. auto. Qed.

Lemma modeVisibility_settle (p : Pending) (o : Outcome) (s s' : Client) :
  settle p o s = Some s' ->
  (p = AwaitConfig /\ modeVisibility s')
  \/ (p <> AwaitConfig
      /\ currentMode s' = currentMode s
      /\ lifeOnlyElements s' = lifeOnlyElements s
      /\ monthsOnlyElements s' = monthsOnlyElements s
      /\ (forall x, In x (pending s) -> In x (pending s'))).
Proof.
  destruct p, o; cbn; try discriminate; intros [= <-].
  1, 2: left; split; [reflexivity|];
    eapply modeVisibility_same; [| | | apply modeVisibility_update];
    reflexivity.
  all: right; split; [discriminate|]; repeat split; cbn; auto using In_snoc.
Qed.

Lemma modeVisibility_handle (ev : Event) (s s' : Client) :
  handle ev s = Some s' ->
  modeVisibility s \/ In AwaitConfig (pending s) ->
  modeVisibility s' \/ In AwaitConfig (pending s').
Proof.
  intros H I. revert H. destruct ev; cbn.
  - destruct (nth_error (modeTabs s) i); intros [= <-].
    left. apply modeVisibility_update.
  - destruct (nth_error (themeBtns s) i); intros [= <-].
    destruct I as [I | I]; [left | right]; [|exact I].
    now apply (modeVisibility_same s).
  - intros [= <-]. destruct I as [I | I]; [left | right]; [|exact I].
    now apply (modeVisibility_same s).
  - destruct (disabled (generateBtn s)); intros [= <-].
    destruct I as [I | I]; [left | right]; [|cbn; now apply In_snoc].
    now apply (modeVisibility_same s).
  - destruct (disabled (setWallpaperBtn s)); intros [= <-].
    destruct I as [I | I]; [left | right]; [|cbn; now apply In_snoc].
    now apply (modeVisibility_same s).
  - intros [= <-].
    destruct I as [I | I]; [left | right]; [|cbn; now apply In_snoc].
    now apply (modeVisibility_same s).
  - intros [= <-]. unfold inputChanged.
    change (hasPreview (setField f value s)) with (hasPreview s).
    destruct (autoGenerates f), (hasPreview s);
      (destruct I as [I | I]; [left | right];
       [now apply (modeVisibility_same s) | cbn; auto using In_snoc]).
  - destruct (nth_error (pending s) i) as [p|] eqn:E; [|discriminate].
    intros H. destruct (modeVisibility_settle _ _ _ _ H)
      as [[-> Hv] | [Hne [Hm [Hl [Hn Hin]]]]]; [now left|].
    destruct I as [I | I]; [left | right].
    + now apply (modeVisibility_same s).
    + apply Hin. cbn. apply (In_removeNth_other _ p); auto.
  - destruct (timers s); intros [= <-].
    destruct I as [I | I]; [left | right]; [|exact I].
    now apply (modeVisibility_same s).
Qed.

(** X1. Once [init] has come back from [loadConfig], whatever the user and
    the backend do next, the life-only elements are hidden exactly when the
    mode is not [life] and the months-only elements exactly when it is not
    [next-months]. *)
Theorem mode_fields_follow_mode (page : Client) (evs : list Event) (s : Client) :
  run evs (load page) = Some s ->
  ~ In AwaitConfig (pending s) ->
  modeVisibility s.
Proof.
  intros Hr Hn.
  assert (forall evs a b, run evs a = Some b ->
            modeVisibility a \/ In AwaitConfig (pending a) ->
            modeVisibility b \/ In AwaitConfig (pending b)) as Hrun.
  { clear. induction evs as [|ev evs IH]; cbn; intros a b H I.
    - now injection H as <-.
    - destruct (handle ev a) as [a1|] eqn:E; [|discriminate].
      exact (IH _ _ H (modeVisibility_handle _ _ _ E I)). }
  destruct (Hrun _ _ _ Hr) as [H | H]; [right; cbn; now left | exact H | tauto].
Qed.

Lemma mode_fields_follow_mode_witness :
  exists s,
    run [Settle 0 (ConfigResult Sample.config); ClickModeTab 2]
        (load Sample.page) = Some s
    /\ ~ In AwaitConfig (pending s)
    /\ modeVisibility s
    /\ lifeOnlyElements s = [true]
    /\ monthsOnlyElements s = [false].
Proof.
  assert (Hr : exists s,
             run [Settle 0 (ConfigResult Sample.config); ClickModeTab 2]
                 (load Sample.page) = Some s
             /\ pending s = []
             /\ lifeOnlyElements s = [true]
             /\ monthsOnlyElements s = [false]).
  { eexists. split; [vm_compute; reflexivity|]. repeat split. }
  destruct Hr as [s [Hr [Hp [Hl Hm]]]].
  assert (Hn : ~ In AwaitConfig (pending s)) by (rewrite Hp; intros []).
  exists s. split; [exact Hr|]. split; [exact Hn|].
  split; [|split; assumption].
  exact (mode_fields_follow_mode Sample.page _ s Hr Hn).
Defined.

(** *** Tabs and theme buttons *)

Lemma activateAt_dataset (i : nat) :
  forall tabs, map dataset (activateAt i (map deactivate tabs)) = map dataset tabs.
Proof.
  induction i as [|i IH]; intros [|t r]; cbn; try reflexivity.
  - f_equal. induction r as [|u r IHr]; cbn; [reflexivity | now rewrite IHr].
  - now rewrite IH.
Qed.

Lemma activateAt_active (i : nat) :
  forall tabs j t,
    nth_error (activateAt i (map deactivate tabs)) j = Some t ->
    active t = Nat.eqb j i.
Proof.
  induction i as [|i IH]; intros [|u r] j t; cbn.
  - destruct j; discriminate.
  - destruct j as [|j]; cbn; [now intros [= <-]|].
    intros H. apply nth_error_In, in_map_iff in H as [v [<- _]]. reflexivity.
  - destruct j; discriminate.
  - destruct j as [|j]; cbn; [now intros [= <-]|]. apply IH.
Qed.

Lemma markActive_spec (current : string) (tabs : list Tab) :
  map dataset (markActive current tabs) = map dataset tabs
  /\ forall t, In t (markActive current tabs) ->
       active t = String.eqb (dataset t) current.
Proof.
  unfold markActive. split.
  - rewrite map_map. reflexivity.
  - intros t H. apply in_map_iff in H as [u [<- _]]. reflexivity.
Qed.

(** X2. A click on a mode tab makes that tab the only active one, sets the
    mode to its [data-mode], brings the mode-specific fields in line and
    keeps the tabs' [data-mode] attributes; a click on a theme button does
    the same for the theme.  Neither calls the backend. *)
Theorem click_selects_one (s : Client) (i : nat) (tab : Tab) :
  nth_error (modeTabs s) i = Some tab ->
  (exists s',
     handle (ClickModeTab i) s = Some s'
     /\ currentMode s' = dataset tab
     /\ map dataset (modeTabs s') = map dataset (modeTabs s)
     /\ (forall j t, nth_error (modeTabs s') j = Some t ->
           active t = Nat.eqb j i)
     /\ modeVisibility s'
     /\ invoked s' = invoked s)
  /\ (forall k btn, nth_error (themeBtns s) k = Some btn ->
      exists s',
        handle (ClickThemeBtn k) s = Some s'
        /\ currentTheme s' = dataset btn
        /\ map dataset (themeBtns s') = map dataset (themeBtns s)
        /\ (forall j t, nth_error (themeBtns s') j = Some t ->
              active t = Nat.eqb j k)
        /\ currentMode s' = currentMode s
        /\ invoked s' = invoked s).
Proof.
  intros Hi. split.
  - cbn [handle]. rewrite Hi. eexists. split; [reflexivity|].
    split; [reflexivity|]. split; [apply activateAt_dataset|].
    split; [apply activateAt_active|].
    split; [apply modeVisibility_update | reflexivity].
  - intros k btn Hk. cbn [handle]. rewrite Hk. eexists.
    split; [reflexivity|]. split; [reflexivity|].
    split; [apply activateAt_dataset|].
    split; [apply activateAt_active|]. split; reflexivity.
Qed.

Lemma click_selects_one_witness :
  nth_error (modeTabs Sample.page) 0
    = Some {| dataset := "life"; active := false |}
  /\ exists s',
       handle (ClickModeTab 0) Sample.page = Some s'
       /\ currentMode s' = "life"
       /\ map active (modeTabs s') = [true; false; false].
Proof.
  split; [reflexivity|].
  destruct (proj1 (click_selects_one Sample.page 0 _ eq_refl))
    as [s' [H [Hm _]]].
  exists s'. split; [exact H|]. split; [exact Hm|].
  cbn in H. injection H as <-. reflexivity.
Defined.



(** *** Loading the configuration *)

(** X4. When [get_config] rejects, start-up still completes: the rejection
    is logged with [console.log] and shown nowhere, the mode and theme keep
    their built-in values, the inputs other than width and height, the
    schedule toggle and the buttons are as the page had them, the
    mode-specific fields are brought in line, no call is left pending, and
    the toast is the success toast of [detectScreenResolution]. *)
Theorem init_survives_config_failure (page : Client) (error : string) :
  exists s,
    handle (Settle 0 (Rejected error)) (load page) = Some s
    /\ currentMode s = "year-end"
    /\ currentTheme s = "dark"
    /\ hasPreview s = false
    /\ console s = [console_log "Could not load config, using defaults:" error]
    /\ toast s = successToast "Screen resolution detected"
    /\ pending s = []
    /\ invoked s = [get_config]
    /\ dobInput (form s) = dobInput (form page)
    /\ lifespanInput (form s) = lifespanInput (form page)
    /\ monthsInput (form s) = monthsInput (form page)
    /\ scheduleToggle s = scheduleToggle page
    /\ generateBtn s = generateBtn page
    /\ setWallpaperBtn s = setWallpaperBtn page
    /\ modeTabs s = modeTabs page
    /\ modeVisibility s.
Proof.
  eexists. split; [reflexivity|]. repeat split.
  all: cbn; now apply Forall_map_const.
Qed.

(** X5. When [get_config] resolves, [loadConfig] takes over the theme and
    the schedule flag, and marks as active exactly the theme buttons whose
    [data-theme] is the theme.  A non-empty [default_mode] becomes the mode
    and exactly the tabs with that [data-mode] are active, so a mode no tab
    carries leaves no tab active; an empty one leaves mode and tabs alone.
    A missing or empty [dob] leaves the date input alone. *)
Theorem loadConfig_takes_over_config (s : Client) (i : nat) (c : Config) :
  nth_error (pending s) i = Some AwaitConfig ->
  exists s',
    handle (Settle i (ConfigResult c)) s = Some s'
    /\ currentTheme s' = theme c
    /\ scheduleToggle s' = schedule_installed c
    /\ map dataset (themeBtns s') = map dataset (themeBtns s)
    /\ (forall t, In t (themeBtns s') ->
          active t = String.eqb (dataset t) (theme c))
    /\ map dataset (modeTabs s') = map dataset (modeTabs s)
    /\ (default_mode c <> "" ->
        currentMode s' = default_mode c
        /\ (forall t, In t (modeTabs s') ->
              active t = String.eqb (dataset t) (default_mode c))
        /\ ((forall t, In t (modeTabs s) -> dataset t <> default_mode c) ->
            forall t, In t (modeTabs s') -> active t = false))
    /\ (default_mode c = "" ->
        currentMode s' = currentMode s /\ modeTabs s' = modeTabs s)
    /\ (dob c = None \/ dob c = Some "" ->
        dobInput (form s') = dobInput (form s))
    /\ modeVisibility s'.
Proof.
  intros Hp. rewrite (settle_at _ _ _ _ Hp). cbn [settle].
  eexists. split; [reflexivity|].
  set (s0 := set_pending (removeNth i (pending s)) s).
  destruct (globals_loadConfig_resolved c s0) as [Ht Hm].
  assert (Hv : modeVisibility (init_resume (loadConfig_resolved c s0))).
  { eapply modeVisibility_same; [| | | apply modeVisibility_update];
      reflexivity. }
  assert (Hd : dob c = None \/ dob c = Some "" ->
               dobInput (form (init_resume (loadConfig_resolved c s0)))
               = dobInput (form s)).
  { change (form (init_resume (loadConfig_resolved c s0)))
      with {| dobInput := dobInput (form (loadConfig_resolved c s0));
              lifespanInput := lifespanInput (form (loadConfig_resolved c s0));
              monthsInput := monthsInput (form (loadConfig_resolved c s0));
              widthInput := detected (screenWidth (screen (loadConfig_resolved c s0)))
                                     (screen (loadConfig_resolved c s0));
              heightInput := detected (screenHeight (screen (loadConfig_resolved c s0)))
                                      (screen (loadConfig_resolved c s0)) |}.
    rewrite form_loadConfig_resolved. cbn.
    intros [-> | ->]; reflexivity. }
  unfold loadConfig_resolved in *.
  destruct (String.eqb (default_mode c) "") eqn:E.
  - apply String.eqb_eq in E.
    split; [reflexivity|]. split; [reflexivity|].
    split; [apply markActive_spec|]. split; [apply markActive_spec|].
    split; [reflexivity|]. split; [congruence|].
    split; [intros _; split; reflexivity|]. split; assumption.
  - apply String.eqb_neq in E.
    split; [reflexivity|]. split; [reflexivity|].
    split; [apply markActive_spec|]. split; [apply markActive_spec|].
    split; [apply markActive_spec|].
    split; [|split; [congruence | split; assumption]].
    intros _. split; [reflexivity|].
    assert (Ha : forall t, In t (markActive (default_mode c) (modeTabs s)) ->
                   active t = String.eqb (dataset t) (default_mode c))
      by apply markActive_spec.
    split; [exact Ha|].
    intros Hno t Hin. rewrite (Ha t Hin). apply String.eqb_neq.
    apply in_map_iff in Hin as [u [<- Hu]]. cbn. now apply Hno.
Qed.

Lemma loadConfig_takes_over_config_witness :
  nth_error (pending (load Sample.page)) 0 = Some AwaitConfig
  /\ exists s',
       handle (Settle 0 (ConfigResult Sample.config)) (load Sample.page)
         = Some s'
       /\ currentTheme s' = "dark"
       /\ currentMode s' = "life".
Proof.
  split; [reflexivity|].
  destruct (loadConfig_takes_over_config (load Sample.page) 0 Sample.config
              eq_refl) as [s' [H [Ht [_ [_ [_ [_ [Hm _]]]]]]]].
  exists s'. split; [exact H|]. split; [exact Ht|].
  apply Hm. discriminate.
Defined.

(** *** Buttons while a call is under way *)

Lemma loadConfig_resolved_keeps (c : Config) (s : Client) :
  pending (loadConfig_resolved c s) = pending s
  /\ generateBtn (loadConfig_resolved c s) = generateBtn s
  /\ preview (loadConfig_resolved c s) = preview s
  /\ invoked (loadConfig_resolved c s) = invoked s
  /\ timers (loadConfig_resolved c s) = timers s.
Proof.
  unfold loadConfig_resolved.
  destruct (String.eqb (default_mode c) ""); repeat split.
Qed.

Lemma generateBtn_settle (p : Pending) (o : Outcome) (s s' : Client) :
  settle p o s = Some s' ->
  (p = AwaitPreview /\ generateBtn s' = {| loading := false; disabled := false |})
  \/ (p <> AwaitPreview
      /\ generateBtn s' = generateBtn s
      /\ (forall x, In x (pending s) -> In x (pending s'))).
Proof.
  destruct p, o; cbn; try discriminate; intros [= <-];
    try (left; split; reflexivity);
    right; (split; [discriminate|]);
    try (split; [reflexivity | cbn; auto using In_snoc]).
  destruct (loadConfig_resolved_keeps config s) as [Hp [Hb _]].
  split; [exact Hb|]. cbn. now rewrite Hp.
Qed.

Lemma generateBtn_handle (ev : Event) (s s' : Client) :
  handle ev s = Some s' ->
  (disabled (generateBtn s) = true \/ loading (generateBtn s) = true ->
   In AwaitPreview (pending s)) ->
  (disabled (generateBtn s') = true \/ loading (generateBtn s') = true ->
   In AwaitPreview (pending s')).
Proof.
  intros H I. revert H. destruct ev; cbn.
  - destruct (nth_error (modeTabs s) i); intros [= <-]. exact I.
  - destruct (nth_error (themeBtns s) i); intros [= <-]. exact I.
  - intros [= <-]. exact I.
  - destruct (disabled (generateBtn s)); intros [= <-].
    intros _. cbn. apply in_or_app. right. now left.
  - destruct (disabled (setWallpaperBtn s)); intros [= <-].
    intros Hb. cbn. apply In_snoc. now apply I.
  - intros [= <-]. intros Hb. cbn. apply In_snoc. now apply I.
  - intros [= <-]. unfold inputChanged.
    change (hasPreview (setField f value s)) with (hasPreview s).
    destruct (autoGenerates f), (hasPreview s); try exact I.
    intros _. cbn. apply in_or_app. right. now left.
  - destruct (nth_error (pending s) i) as [p|] eqn:E; [|discriminate].
    intros H. destruct (generateBtn_settle _ _ _ _ H)
      as [[-> Hb] | [Hne [Hb Hin]]].
    + rewrite Hb. cbn. intros [? | ?]; discriminate.
    + rewrite Hb. intros Hd. apply Hin. cbn.
      apply (In_removeNth_other _ p); auto.
  - destruct (timers s); intros [= <-]. exact I.
Qed.

(** X6. On a page whose generate button starts enabled and idle, the button
    is never left stuck: whenever it is disabled or shows its [loading]
    class, a [generate_preview] call is still awaited, and the settling of
    any such call, with a response or an error, enables the button and
    takes [loading] off again. *)
Theorem generateBtn_busy_only_while_awaited
  (page : Client) (evs : list Event) (s : Client) :
  generateBtn page = {| loading := false; disabled := false |} ->
  run evs (load page) = Some s ->
  (disabled (generateBtn s) = true \/ loading (generateBtn s) = true ->
   In AwaitPreview (pending s))
  /\ (forall i o s', nth_error (pending s) i = Some AwaitPreview ->
        handle (Settle i o) s = Some s' ->
        generateBtn s' = {| loading := false; disabled := false |}).
Proof.
  intros Hb Hr. split.
  - assert (forall evs a b, run evs a = Some b ->
              (disabled (generateBtn a) = true \/ loading (generateBtn a) = true
               -> In AwaitPreview (pending a)) ->
              (disabled (generateBtn b) = true \/ loading (generateBtn b) = true
               -> In AwaitPreview (pending b))) as Hrun.
    { clear. induction evs as [|ev evs IH]; cbn; intros a b H I.
      - now injection H as <-.
      - destruct (handle ev a) as [a1|] eqn:E; [|discriminate].
        exact (IH _ _ H (generateBtn_handle _ _ _ E I)). }
    apply (Hrun _ _ _ Hr). cbn. rewrite Hb. cbn.
    intros [? | ?]; discriminate.
  - intros i o s' Hp. rewrite (settle_at _ _ _ _ Hp).
    destruct o; cbn; try discriminate; now intros [= <-].
Qed.

Lemma generateBtn_busy_only_while_awaited_witness :
  generateBtn Sample.page = {| loading := false; disabled := false |}
  /\ exists s,
       run [ClickGenerate] (load Sample.page) = Some s
       /\ disabled (generateBtn s) = true
       /\ In AwaitPreview (pending s).
Proof.
  split; [reflexivity|].
  destruct (run [ClickGenerate] (load Sample.page)) as [s|] eqn:E;
    [|vm_compute in E; discriminate E].
  assert (Hd : disabled (generateBtn s) = true).
  { vm_compute in E. injection E as <-. reflexivity. }
  exists s. split; [reflexivity|]. split; [exact Hd|].
  exact (proj1 (generateBtn_busy_only_while_awaited Sample.page
                  [ClickGenerate] s eq_refl E) (or_introl Hd)).
Defined.

(** *** Setting the wallpaper *)

(** X7. When [set_wallpaper_cmd] rejects, [setWallpaper] shows the error
    toast, logs the error, enables its button again, and makes no further
    call: the configuration is not saved and the command is not retried. *)
Theorem setWallpaper_failure_saves_nothing
  (s : Client) (i : nat) (error : string) :
  nth_error (pending s) i = Some AwaitWallpaper ->
  exists s',
    handle (Settle i (Rejected error)) s = Some s'
    /\ toast s' = errorToast error
    /\ console s'
       = (console s ++ [console_error "Set wallpaper error:" error])%list
    /\ invoked s' = invoked s
    /\ pending s' = removeNth i (pending s)
    /\ setWallpaperBtn s' = {| loading := false; disabled := false |}
    /\ preview s' = preview s
    /\ hasPreview s' = hasPreview s.
Proof.
  intros Hp. rewrite (settle_at _ _ _ _ Hp). eexists. repeat split.
Qed.

Lemma setWallpaper_failure_saves_nothing_witness :
  nth_error (pending (setWallpaper Sample.page)) 0 = Some AwaitWallpaper
  /\ exists s',
       handle (Settle 0 (Rejected "no desktop")) (setWallpaper Sample.page)
         = Some s'
       /\ invoked s' = invoked (setWallpaper Sample.page).
Proof.
  split; [reflexivity|].
  destruct (setWallpaper_failure_saves_nothing (setWallpaper Sample.page) 0
              "no desktop" eq_refl) as [s' [H [_ [_ [Hi _]]]]].
  exists s'. split; [exact H | exact Hi].
Defined.

(** X8. A click on the enabled set-wallpaper button sends
    [set_wallpaper_cmd] with the request built from the form as it is then,
    and disables the button.  If the command resolves before anything else
    happens, [save_config] follows with the same date, lifespan, months,
    theme, width and height as that request, and its mode as
    [defaultMode]; at that point the button is still disabled and no toast
    has been shown.  The button is not held disabled, though: a
    [generate_preview] response that arrives while [save_config] is awaited
    enables it again.  When [save_config] settles, the button is enabled,
    [loading] is off and the toast announces success. *)
Theorem setWallpaper_saves_what_it_sent (s : Client) (message : string) :
  disabled (setWallpaperBtn s) = false ->
  exists s1 s2,
    handle ClickSetWallpaper s = Some s1
    /\ invoked s1 = (invoked s ++ [set_wallpaper_cmd (buildRequest s)])%list
    /\ setWallpaperBtn s1 = {| loading := true; disabled := true |}
    /\ handle (Settle (List.length (pending s)) (MessageResult message)) s1
       = Some s2
    /\ (exists args,
          invoked s2 = (invoked s1 ++ [save_config args])%list
          /\ save_dob args = req_dob (buildRequest s)
          /\ save_lifespan args = req_lifespan (buildRequest s)
          /\ save_months args = req_months (buildRequest s)
          /\ save_theme args = req_theme (buildRequest s)
          /\ save_width args = req_width (buildRequest s)
          /\ save_height args = req_height (buildRequest s)
          /\ save_defaultMode args = req_mode (buildRequest s))
    /\ pending s2 = (pending s ++ [AwaitSave])%list
    /\ setWallpaperBtn s2 = {| loading := true; disabled := true |}
    /\ toast s2 = toast s
    /\ (forall j response s3,
          handle (Settle j (PreviewResult response)) s2 = Some s3 ->
          setWallpaperBtn s3 = {| loading := true; disabled := false |}
          /\ In AwaitSave (pending s3))
    /\ (forall o s3,
          handle (Settle (List.length (pending s)) o) s2 = Some s3 ->
          setWallpaperBtn s3 = {| loading := false; disabled := false |}
          /\ toast s3 = successToast "Wallpaper set successfully!").
Proof.
  intros Hd.
  change (handle ClickSetWallpaper s)
    with (if disabled (setWallpaperBtn s) then None else Some (setWallpaper s)).
  rewrite Hd.
  eexists. eexists. split; [reflexivity|]. split; [reflexivity|].
  split; [reflexivity|].
  rewrite (settle_at _ _ AwaitWallpaper) by apply nth_error_last.
  split; [reflexivity|].
  split; [eexists; repeat split|].
  assert (pending (setWallpaper_resolved message
                     (set_pending
                        (removeNth (List.length (pending s))
                                   (pending (setWallpaper s)))
                        (setWallpaper s)))
          = (pending s ++ [AwaitSave])%list) as Hp
    by (cbn; now rewrite removeNth_last).
  split; [exact Hp|]. split; [reflexivity|]. split; [reflexivity|]. split.
  - intros j response s3. cbn [handle]. rewrite Hp.
    destruct (nth_error (pending s ++ [AwaitSave]) j) as [p|] eqn:En;
      [|discriminate].
    destruct p; try discriminate. cbn [settle]. intros [= <-].
    split; [reflexivity|].
    cbn [generatePreview_resolved generatePreview_finally showToast pending
         set_pending set_generateBtn set_timers set_toast set_hasPreview
         set_setWallpaperBtn set_preview].
    apply (In_removeNth_other _ AwaitPreview _ _ En); [discriminate|].
    apply in_or_app. right. now left.
  - intros o s3. cbn [handle]. rewrite Hp, nth_error_last.
    destruct o; try discriminate; intros [= <-]; split; reflexivity.
Qed.

Lemma setWallpaper_saves_what_it_sent_witness :
  exists s s1 s2 s3,
    run [ClickGenerate; Settle 1 (PreviewResult Sample.response); ClickGenerate]
        (load Sample.page) = Some s
    /\ disabled (setWallpaperBtn s) = false
    /\ handle ClickSetWallpaper s = Some s1
    /\ setWallpaperBtn s1 = {| loading := true; disabled := true |}
    /\ handle (Settle (List.length (pending s)) (MessageResult "done")) s1
       = Some s2
    /\ handle (Settle 1 (PreviewResult Sample.response)) s2 = Some s3
    /\ disabled (setWallpaperBtn s3) = false
    /\ In AwaitSave (pending s3).
Proof.
  assert (Hr : exists s,
             run [ClickGenerate; Settle 1 (PreviewResult Sample.response);
                  ClickGenerate] (load Sample.page) = Some s
             /\ disabled (setWallpaperBtn s) = false
             /\ nth_error (pending s) 1 = Some AwaitPreview).
  { eexists. split; [|split]; vm_compute; reflexivity. }
  destruct Hr as [s [Hr [Hd Hq]]].
  destruct (setWallpaper_saves_what_it_sent s "done" Hd)
    as [s1 [s2 [H1 [_ [Hb [H2 [_ [Hp [_ [_ [Hg _]]]]]]]]]]].
  assert (exists s3, handle (Settle 1 (PreviewResult Sample.response)) s2
                     = Some s3) as [s3 H3].
  { cbn [handle]. rewrite Hp.
    rewrite nth_error_app1
      by (apply nth_error_Some; rewrite Hq; discriminate).
    rewrite Hq. eexists. reflexivity. }
  destruct (Hg _ _ _ H3) as [Hb3 Hin].
  exists s, s1, s2, s3.
  split; [exact Hr|]. split; [exact Hd|]. split; [exact H1|].
  split; [exact Hb|]. split; [exact H2|]. split; [exact H3|].
  split; [now rewrite Hb3 | exact Hin].
Defined.

(** *** The preview pane *)

Lemma preview_settle (p : Pending) (o : Outcome) (s s' : Client) :
  settle p o s = Some s' ->
  match p, o with
  | AwaitPreview, PreviewResult response =>
      preview s' = preview (generatePreview_resolved response s)
      /\ previewImageHidden (preview s') = false
      /\ previewPlaceholderHidden (preview s') = true
      /\ hasPreview s' = true
  | _, _ => preview s' = preview s /\ hasPreview s' = hasPreview s
  end.
Proof.
  destruct p, o; cbn; try discriminate; intros [= <-]; repeat split.
  - apply loadConfig_resolved_keeps.
  - apply hasPreview_loadConfig_resolved.
Qed.

Lemma preview_handle (ev : Event) (s s' : Client) :
  handle ev s = Some s' ->
  (hasPreview s' = true
   /\ previewImageHidden (preview s') = false
   /\ previewPlaceholderHidden (preview s') = true)
  \/ (preview s' = preview s /\ hasPreview s' = hasPreview s).
Proof.
  destruct ev; cbn.
  - destruct (nth_error (modeTabs s) i); intros [= <-]. right. split; reflexivity.
  - destruct (nth_error (themeBtns s) i); intros [= <-]. right. split; reflexivity.
  - intros [= <-]. right. split; reflexivity.
  - destruct (disabled (generateBtn s)); intros [= <-]. right. split; reflexivity.
  - destruct (disabled (setWallpaperBtn s)); intros [= <-]. right. split; reflexivity.
  - intros [= <-]. right. split; reflexivity.
  - intros [= <-]. right. unfold inputChanged.
    change (hasPreview (setField f value s)) with (hasPreview s).
    destruct (autoGenerates f); [|split; reflexivity].
    destruct (hasPreview s) eqn:Eh; (split; [reflexivity | exact Eh]).
  - destruct (nth_error (pending s) i) as [p|]; [|discriminate].
    intros H. apply preview_settle in H.
    destruct p, o; try (right; exact H).
    left. tauto.
  - destruct (timers s); intros [= <-]. right. split; reflexivity.
Qed.

(** X9. A response to [generate_preview] replaces the whole preview pane:
    after two responses in a row the pane shows the second, with nothing of
    the first left, the same as after that response in any other state.
    When two calls are under way, the response that arrives last decides
    what is shown. *)
Theorem last_preview_response_wins
  (s : Client) (i j : nat) (r1 r2 : PreviewResponse) (s1 s2 : Client) :
  handle (Settle i (PreviewResult r1)) s = Some s1 ->
  handle (Settle j (PreviewResult r2)) s1 = Some s2 ->
  previewTitle (preview s2) = title r2
  /\ previewSubtitle (preview s2) = subtitle r2
  /\ previewImageSrc (preview s2) = "data:image/png;base64," ++ image_base64 r2
  /\ statElapsed (preview s2) = formatNumber (numberOf (elapsed_weeks r2))
  /\ statRemaining (preview s2) = formatNumber (numberOf (remaining_weeks r2))
  /\ statPercent (preview s2) = Number_toString (percent r2) ++ "%"
  /\ (forall t k t',
        handle (Settle k (PreviewResult r2)) t = Some t' ->
        preview t' = preview s2).
Proof.
  intros _ H2.
  assert (forall t k t',
            handle (Settle k (PreviewResult r2)) t = Some t' ->
            preview t' = preview (generatePreview_resolved r2 t)) as Hp.
  { intros t k t'. cbn.
    destruct (nth_error (pending t) k) as [p|]; [|discriminate].
    intros H. destruct p; try discriminate H.
    apply preview_settle in H. exact (proj1 H). }
  rewrite (Hp _ _ _ H2). repeat split.
  intros t k t' H. now rewrite (Hp _ _ _ H).
Qed.

Lemma last_preview_response_wins_witness :
  exists s s1 s2,
    handle (Settle 0 (PreviewResult Sample.halfway)) s = Some s1
    /\ handle (Settle 0 (PreviewResult Sample.response)) s1 = Some s2
    /\ previewTitle (preview s2) = "Life in Weeks".
Proof.
  pose (s := generatePreview (generatePreview Sample.page)).
  destruct (handle (Settle 0 (PreviewResult Sample.halfway)) s)
    as [s1|] eqn:E1; [|vm_compute in E1; discriminate E1].
  destruct (handle (Settle 0 (PreviewResult Sample.response)) s1)
    as [s2|] eqn:E2.
  - exists s, s1, s2. split; [exact E1|]. split; [exact E2|].
    exact (proj1 (last_preview_response_wins s 0 0 _ _ s1 s2 E1 E2)).
  - exfalso. vm_compute in E1. injection E1 as <-.
    vm_compute in E2. discriminate E2.
Defined.

(** X10. On every page, once a preview has been shown the image stays
    visible and the placeholder stays hidden, whatever happens next: no
    failure and no other action brings the placeholder back. *)
Theorem preview_stays_visible (page : Client) (evs : list Event) (s : Client) :
  run evs (load page) = Some s ->
  hasPreview s = true ->
  previewImageHidden (preview s) = false
  /\ previewPlaceholderHidden (preview s) = true.
Proof.
  assert (forall evs a b, run evs a = Some b ->
            (hasPreview a = true ->
             previewImageHidden (preview a) = false
             /\ previewPlaceholderHidden (preview a) = true) ->
            hasPreview b = true ->
            previewImageHidden (preview b) = false
            /\ previewPlaceholderHidden (preview b) = true) as Hrun.
  { clear. induction evs as [|ev evs IH]; cbn; intros a b H I.
    - now injection H as <-.
    - destruct (handle ev a) as [a1|] eqn:E; [|discriminate].
      apply (IH _ _ H).
      destruct (preview_handle _ _ _ E) as [[_ Hv] | [Hp Hh]]; [tauto|].
      rewrite Hp, Hh. exact I. }
  intros Hr. apply (Hrun _ _ _ Hr). discriminate.
Qed.

Lemma preview_stays_visible_witness :
  exists s,
    run [ClickGenerate; Settle 1 (PreviewResult Sample.response);
         Settle 0 (Rejected "offline"); ClickGenerate;
         Settle 0 (Rejected "render failed")]
        (load Sample.page) = Some s
    /\ hasPreview s = true
    /\ previewImageHidden (preview s) = false.
Proof.
  destruct (run [ClickGenerate; Settle 1 (PreviewResult Sample.response);
                 Settle 0 (Rejected "offline"); ClickGenerate;
                 Settle 0 (Rejected "render failed")]
                (load Sample.page)) as [s|] eqn:E;
    [|vm_compute in E; discriminate E].
  assert (Hh : hasPreview s = true).
  { vm_compute in E. injection E as <-. reflexivity. }
  exists s. split; [reflexivity|]. split; [exact Hh|].
  exact (proj1 (preview_stays_visible Sample.page _ s E Hh)).
Defined.

(** *** Toasts *)

(** X11. Every call that settles ends in exactly one toast, except
    [set_wallpaper_cmd] resolving, which goes on to [save_config] without
    one.  The toast is the error toast exactly when [generate_preview],
    [set_wallpaper_cmd] or [toggle_schedule] rejected; a rejection of
    [get_config] or of [save_config] still ends in a success toast. *)
Theorem each_call_ends_in_one_toast
  (s : Client) (i : nat) (p : Pending) (o : Outcome) (s' : Client) :
  nth_error (pending s) i = Some p ->
  handle (Settle i o) s = Some s' ->
  match p, o with
  | AwaitWallpaper, MessageResult _ =>
      timers s' = timers s /\ toast s' = toast s
  | _, _ =>
      timers s' = S (timers s)
      /\ toastClasses (toast s')
         = ["toast"; "show"; if actionFailed p o then "error" else "success"]
  end.
Proof.
  intros Hp. rewrite (settle_at _ _ _ _ Hp).
  destruct p, o; cbn; try discriminate; intros [= <-]; split;
    try reflexivity.
  cbn. f_equal.
  exact (proj2 (proj2 (proj2 (proj2 (loadConfig_resolved_keeps config _))))).
Qed.

Lemma each_call_ends_in_one_toast_witness :
  nth_error (pending (load Sample.page)) 0 = Some AwaitConfig
  /\ exists s',
       handle (Settle 0 (Rejected "no file")) (load Sample.page) = Some s'
       /\ timers s' = 1%nat
       /\ toastClasses (toast s') = ["toast"; "show"; "success"].
Proof.
  split; [reflexivity|].
  destruct (handle (Settle 0 (Rejected "no file")) (load Sample.page))
    as [s'|] eqn:E; [|vm_compute in E; discriminate E].
  exists s'. split; [reflexivity|].
  exact (each_call_ends_in_one_toast (load Sample.page) 0 AwaitConfig
           (Rejected "no file") s' eq_refl E).
Defined.

Lemma hideToast_no_show (s : Client) :
  ~ In "show" (toastClasses (toast (hideToast s))).
Proof.
  cbn. intros H. apply filter_In in H as [_ H]. discriminate H.
Qed.

(** X12. The timer of a toast takes the [show] class off whatever toast is
    on display when it fires, and leaves its text and the other timers
    alone.  So when a second toast is shown before the timer of the first
    has fired, that timer hides the second toast while the second toast's
    own timer is still running. *)
Theorem toast_timer_hides_current_toast (s s' : Client) :
  handle Timeout s = Some s' ->
  (~ In "show" (toastClasses (toast s'))
   /\ toastMessage (toast s') = toastMessage (toast s)
   /\ timers s = S (timers s')
   /\ invoked s' = invoked s)
  /\ (forall s0 m1 t1 m2 t2,
        s = showToast m2 t2 (showToast m1 t1 s0) ->
        toastMessage (toast s') = m2
        /\ ~ In "show" (toastClasses (toast s'))
        /\ timers s' = S (timers s0)).
Proof.
  cbn. destruct (timers s) as [|n] eqn:E; [discriminate|]. intros [= <-].
  split.
  - split; [apply (hideToast_no_show (set_timers n s))|]. repeat split.
  - intros s0 m1 t1 m2 t2 ->. cbn in E. injection E as <-.
    split; [reflexivity|]. split; [|reflexivity].
    apply (hideToast_no_show
             (set_timers (S (timers s0)) (showToast m2 t2 (showToast m1 t1 s0)))).
Qed.

Lemma toast_timer_hides_current_toast_witness :
  exists s',
    handle Timeout (showToast "Preview generated!" "success"
                      (showToast "Screen resolution detected" "success"
                         Sample.page)) = Some s'
    /\ toastMessage (toast s') = "Preview generated!"
    /\ ~ In "show" (toastClasses (toast s'))
    /\ timers s' = 1%nat.
Proof.
  destruct (handle Timeout (showToast "Preview generated!" "success"
                              (showToast "Screen resolution detected" "success"
                                 Sample.page))) as [s'|] eqn:E;
    [|discriminate E].
  exists s'. split; [reflexivity|].
  exact (proj2 (toast_timer_hides_current_toast _ s' E)
           Sample.page _ _ _ _ eq_refl).
Defined.

(** *** Thousands separators *)

Lemma groupsOfThree_digits_bounded (n : nat) :
  forall s, (String.length s <= n)%nat -> Spec.allDigits s = true ->
    groupsOfThree s = groupEnds s.
Proof.
  induction n as [n IH] using lt_wf_ind. intros s Hn Hd.
  destruct s as [|a [|b [|c r]]]; try reflexivity.
  cbn [Spec.allDigits] in Hd.
  apply andb_prop in Hd as [Ha Hd]. apply andb_prop in Hd as [Hb Hd].
  apply andb_prop in Hd as [Hc Hr].
  cbn [groupsOfThree]. rewrite Ha, Hb, Hc. cbn [andb].
  unfold groupEnds. cbn [String.length Nat.eqb negb andb].
  replace (S (S (S (String.length r)))) with (String.length r + 1 * 3)%nat
    by lia.
  rewrite Nat.Div0.mod_add.
  destruct r as [|d r'].
  - reflexivity.
  - cbn [headOf]. cbn [Spec.allDigits] in Hr.
    apply andb_prop in Hr as [Hd' Hr']. rewrite Hd'. cbn [negb orb].
    rewrite (IH (String.length (String d r'))).
    + unfold groupEnds. reflexivity.
    + cbn [String.length] in *. lia.
    + apply le_n.
    + cbn [Spec.allDigits]. now rewrite Hd', Hr'.
Qed.

Lemma groupsOfThree_digits (s : string) :
  Spec.allDigits s = true -> groupsOfThree s = groupEnds s.
Proof. apply (groupsOfThree_digits_bounded (String.length s)), le_n. Qed.

Lemma isWord_digit (c : ascii) : isDigit c = true -> isWord c = true.
Proof. intros H. unfold isWord. now rewrite H. Qed.

Lemma replaceFrom_digits (s : string) :
  Spec.allDigits s = true ->
  forall d, isDigit d = true ->
    replaceFrom (Some d) s
    = (if groupEnds s then "," else "") ++ groupThousands s.
Proof.
  induction s as [|c r IH]; intros Hd d Hdig.
  - cbn. unfold commaHere. cbn. rewrite (isWord_digit _ Hdig). reflexivity.
  - pose proof Hd as Hd0. cbn [Spec.allDigits] in Hd.
    apply andb_prop in Hd as [Hc Hr].
    cbn [replaceFrom groupThousands]. unfold commaHere. cbn [isWordAt headOf].
    rewrite (isWord_digit _ Hdig), (isWord_digit _ Hc). cbn [Bool.eqb andb].
    rewrite (groupsOfThree_digits _ Hd0), (IH Hr c Hc).
    destruct (groupEnds (String c r)), (groupEnds r); reflexivity.
Qed.

Lemma insertCommas_digits (s : string) :
  Spec.allDigits s = true -> insertCommas s = groupThousands s.
Proof.
  destruct s as [|c r]; [reflexivity|]. cbn [Spec.allDigits]. intros Hd.
  apply andb_prop in Hd as [Hc Hr].
  unfold insertCommas. cbn [replaceFrom groupThousands]. unfold commaHere.
  cbn [isWordAt headOf]. rewrite (isWord_digit _ Hc). cbn [Bool.eqb andb].
  rewrite (replaceFrom_digits _ Hr c Hc).
  destruct (groupEnds r); reflexivity.
Qed.

Lemma groupsOfThree_other (a : ascii) (s : string) :
  isDigit a = false -> groupsOfThree (String a s) = false.
Proof.
  intros H. destruct s as [|b [|c r]]; cbn [groupsOfThree]; try reflexivity.
  now rewrite H.
Qed.

Lemma insertCommas_minus_digits (s : string) :
  Spec.allDigits s = true ->
  insertCommas (String "-" s) = String "-" (groupThousands s).
Proof.
  intros Hd. unfold insertCommas. cbn [replaceFrom].
  replace (commaHere None (String "-" s)) with false
    by (unfold commaHere; now rewrite groupsOfThree_other, andb_false_r).
  destruct s as [|c r]; [reflexivity|]. cbn [Spec.allDigits] in Hd.
  apply andb_prop in Hd as [Hc Hr].
  cbn [replaceFrom groupThousands append]. unfold commaHere.
  cbn [isWordAt headOf]. rewrite (isWord_digit _ Hc).
  change (isWord "-") with false. cbn [Bool.eqb andb append].
  rewrite (replaceFrom_digits _ Hr c Hc).
  destruct (groupEnds r); reflexivity.
Qed.

Lemma stripCommas_digits (s : string) :
  Spec.allDigits s = true -> stripCommas s = s.
Proof.
  induction s as [|c r IH]; [reflexivity|]. cbn [Spec.allDigits]. intros Hd.
  apply andb_prop in Hd as [Hc Hr]. cbn [stripCommas].
  rewrite (IH Hr). digit_cases_by isDigit_cases Hc; reflexivity.
Qed.

Lemma stripCommas_groupThousands (s : string) :
  stripCommas (groupThousands s) = stripCommas s.
Proof.
  induction s as [|c r IH]; [reflexivity|]. cbn [groupThousands stripCommas].
  destruct (groupEnds r); cbn [stripCommas]; change (Ascii.eqb "," ",") with true;
    cbn [stripCommas]; now rewrite IH.
Qed.

(** X13. For an integer below 2^53 in magnitude, which [Number::toString]
    writes with all its digits, [formatNumber] gives the decimal digits with
    a comma before every group of three counted from the right, after the
    minus sign if there is one; taking the commas out again gives the text
    of the number. *)
Theorem formatNumber_groups_thousands (n : Z) :
  Z.abs n < 2 ^ 53 ->
  formatNumber (Int n)
  = (if n <? 0 then String "-" (groupThousands (decimal (- n)))
     else groupThousands (decimal n))
  /\ stripCommas (formatNumber (Int n)) = Number_toString (Int n).
Proof.
  intros Hn. unfold formatNumber, Number_toString.
  destruct (n <? 0) eqn:E.
  - apply Z.ltb_lt in E. rewrite magnitudeToString_small by lia.
    destruct (decimal_spec (- n)) as [_ [Hd _]]; [lia|].
    change ("-" ++ decimal (- n)) with (String "-" (decimal (- n))).
    rewrite (insertCommas_minus_digits _ Hd). split; [reflexivity|].
    cbn [stripCommas]. change (Ascii.eqb "-" ",") with false. cbn iota.
    now rewrite stripCommas_groupThousands, stripCommas_digits.
  - apply Z.ltb_ge in E. rewrite magnitudeToString_small by lia.
    destruct (decimal_spec n) as [_ [Hd _]]; [lia|].
    rewrite (insertCommas_digits _ Hd). split; [reflexivity|].
    now rewrite stripCommas_groupThousands, stripCommas_digits.
Qed.

Lemma formatNumber_groups_thousands_witness :
  Z.abs 1234567 < 2 ^ 53
  /\ formatNumber (Int 1234567) = "1,234,567"
  /\ stripCommas (formatNumber (Int 1234567)) = "1234567".
Proof.
  split; [reflexivity|].
  destruct (formatNumber_groups_thousands 1234567 eq_refl) as [H1 H2].
  split; [rewrite H1 | rewrite H2]; vm_compute; reflexivity.
Defined.

(** *** Reading numbers *)

Lemma digitValue_other (c : ascii) :
  isDigit c = false -> digitValue 10 c = None.
Proof.
  destruct c as [[] [] [] [] [] [] [] []]; intros H;
    try discriminate H; reflexivity.
Qed.

Lemma digitPrefix_stops (ds : string) (c : ascii) (t : string) :
  Spec.allDigits ds = true -> isDigit c = false ->
  digitPrefix 10 (ds ++ String c t) = digitPrefix 10 ds.
Proof.
  intros Hd Hc. induction ds as [|d r IH].
  - cbn. now rewrite (digitValue_other _ Hc).
  - cbn [Spec.allDigits] in Hd. apply andb_prop in Hd as [Hd0 Hr].
    cbn [append digitPrefix]. rewrite (digitValue_digit _ Hd0).
    now rewrite (IH Hr).
Qed.

Lemma stripPrefix_digits_then (ds : string) (c : ascii) (t : string) :
  ds <> "" -> Spec.allDigits ds = true -> isDigit c = false ->
  (ds = "0" -> c <> "x"%char /\ c <> "X"%char) ->
  stripPrefix (ds ++ String c t) = (10, ds ++ String c t).
Proof.
  intros Hne Hd Hc Hx. destruct ds as [|d [|e r]]; [congruence| |].
  - cbn [Spec.allDigits] in Hd. apply andb_prop in Hd as [Hd0 _].
    cbn [append].
    digit_cases_by isDigit_cases Hd0; try reflexivity.
    destruct (Hx eq_refl) as [Hx1 Hx2].
    destruct c as [[] [] [] [] [] [] [] []]; try reflexivity; congruence.
  - cbn [Spec.allDigits] in Hd. apply andb_prop in Hd as [Hd0 Hd].
    apply andb_prop in Hd as [Hd1 _]. cbn [append].
    digit_cases_by isDigit_cases Hd0; try reflexivity.
    digit_cases_by isDigit_cases Hd1; reflexivity.
Qed.

Lemma parseInt_from_digit (d : ascii) (r : string) :
  isDigit d = true ->
  stripPrefix (String d r) = (10, String d r) ->
  parseInt (String d r) = parseDigits false 10 (String d r).
Proof.
  intros Hd Hp. unfold parseInt.
  rewrite (trimStart_digit _ _ Hd), (stripSign_digit _ _ Hd). now rewrite Hp.
Qed.

(** X14. [parseInt] reads the integer a text starts with and ignores the
    rest: decimal digits followed by any character that is not a digit
    (other than the [x] or [X] that makes [0x] a hexadecimal prefix) give
    the same Number as the digits alone, and white space in front changes
    nothing. *)
Theorem parseInt_reads_leading_integer (ds : string) (c : ascii) (t : string) :
  ds <> "" -> Spec.allDigits ds = true -> isDigit c = false ->
  (ds = "0" -> c <> "x"%char /\ c <> "X"%char) ->
  parseInt (ds ++ String c t) = parseInt ds
  /\ (forall w s, isWhiteSpace w = true -> parseInt (String w s) = parseInt s).
Proof.
  intros Hne Hd Hc Hx. split.
  - pose proof (stripPrefix_digits_then ds c t Hne Hd Hc Hx) as Hp.
    pose proof (stripPrefix_digits ds Hd) as Hp0.
    destruct ds as [|d r]; [congruence|].
    pose proof Hd as Hd'. cbn [Spec.allDigits] in Hd'.
    apply andb_prop in Hd' as [Hd0 _].
    cbn [append] in *.
    rewrite (parseInt_from_digit d _ Hd0 Hp), (parseInt_from_digit d _ Hd0 Hp0).
    unfold parseDigits.
    change (String d (r ++ String c t)) with (String d r ++ String c t).
    now rewrite (digitPrefix_stops _ _ _ Hd Hc).
  - intros w s Hw. unfold parseInt. cbn [trimStart]. now rewrite Hw.
Qed.

Lemma parseInt_reads_leading_integer_witness :
  "80" <> "" /\ Spec.allDigits "80" = true /\ isDigit " " = false
  /\ parseInt "80 years" = Int 80.
Proof.
  assert (Hne : "80" <> "") by discriminate.
  assert (Hx : "80" = "0" -> " "%char <> "x"%char /\ " "%char <> "X"%char)
    by discriminate.
  split; [exact Hne|]. split; [reflexivity|]. split; [reflexivity|].
  change "80 years" with ("80" ++ String " " "years").
  rewrite (proj1 (parseInt_reads_leading_integer "80" " " "years"
                    Hne eq_refl eq_refl Hx)).
  reflexivity.
Defined.

(** X15. Writing an integer below 2^53 in magnitude with [Number::toString]
    and reading the text back with [parseInt] gives the integer again; this
    is what carries a number from the configuration or from
    [detectScreenResolution] through an input into a request. *)
Theorem parseInt_after_toString (z : Z) :
  Z.abs z < 2 ^ 53 ->
  parseInt (Number_toString (Int z)) = Int z
  /\ parseInt (Number_toString (numberOf z)) = numberOf z.
Proof.
  intros Hz. rewrite (numberOf_small _ Hz).
  assert (parseInt (Number_toString (Int z)) = Int z) as H.
  { destruct (Z.eq_dec z 0) as [-> | Hne]; [reflexivity|].
    now apply parseInt_toString. }
  now split.
Qed.

Lemma parseInt_after_toString_witness :
  Z.abs (-1080) < 2 ^ 53
  /\ parseInt (Number_toString (Int (-1080))) = Int (-1080).
Proof.
  split; [reflexivity|].
  exact (proj1 (parseInt_after_toString (-1080) eq_refl)).
Defined.

(** *** The percentage and the detected resolution *)

(** X16. For [0 <= elapsed_weeks <= total_weeks] (elapsed below 2^43, total
    positive and below 2^53) the percentage [generatePreview] shows is an
    integer from 0 to 100; it is 0 when nothing has elapsed and 100 when
    everything has. *)
Theorem percent_within_bounds (response : PreviewResponse) :
  0 <= elapsed_weeks response <= total_weeks response ->
  elapsed_weeks response < 2 ^ 43 ->
  0 < total_weeks response < 2 ^ 53 ->
  exists p,
    percent response = Int p
    /\ 0 <= p <= 100
    /\ (elapsed_weeks response = 0 -> p = 0)
    /\ (elapsed_weeks response = total_weeks response -> p = 100).
Proof.
  intros HE HE' HT. unfold percent.
  rewrite (numberOf_small (total_weeks response)),
    (numberOf_small (elapsed_weeks response)) by pow_lia.
  cbn [gtZero].
  replace (0 <? total_weeks response) with true
    by (symmetry; apply Z.ltb_lt; lia).
  revert HE HE' HT.
  generalize (elapsed_weeks response) (total_weeks response).
  intros E T HE HE' HT.
  destruct (Z.eq_dec E 0) as [-> | E0].
  - rewrite (percent_of_nothing _ HT). exists 0. repeat split; lia.
  - destruct (percent_against_exact E T ltac:(lia) HT) as [p [F [Hb Hx]]].
    rewrite F. exists p. split; [reflexivity|].
    unfold Spec.computePercent in Hb, Hx.
    replace (T =? 0) with false in * by (symmetry; apply Z.eqb_neq; lia).
    pose proof (Z.div_mod (200 * E + T) (2 * T) ltac:(lia)) as Hdm.
    pose proof (Z.mod_pos_bound (200 * E + T) (2 * T) ltac:(lia)) as Hrem.
    revert Hb Hx Hdm Hrem.
    generalize ((200 * E + T) / (2 * T)) ((200 * E + T) mod (2 * T)).
    intros K rem Hb Hx Hdm Hrem.
    assert (0 < T) as HT0 by lia. clear HE' HT.
    assert (K <= 100) as HK.
    { destruct (Z_le_gt_dec K 100) as [L | G]; [exact L|].
      assert (2 * T * 101 <= 2 * T * K) by (apply Z.mul_le_mono_nonneg_l; lia).
      lia. }
    assert (0 <= p) as Hp.
    { destruct (Z_le_gt_dec 1 K) as [L | G]; [lia|].
      assert (2 * T * K <= 2 * T * 0) by (apply Z.mul_le_mono_nonneg_l; lia).
      assert (rem <> 0) as Hr by lia.
      rewrite (Hx Hr).
      destruct (Z_le_gt_dec 0 K) as [L | G']; [exact L|].
      assert (2 * T * K <= 2 * T * (-1))
        by (apply Z.mul_le_mono_nonneg_l; lia).
      lia. }
    split; [lia|]. split; [lia|].
    intros ->. apply Z.le_antisymm; [lia|].
    assert (rem <> 0) as Hr.
    { intros ->. 
      assert (201 * T = T * (2 * K)) as H1 by lia.
      assert (201 = 2 * K) by (apply (Z.mul_reg_l _ _ T); lia).
      lia. }
    rewrite (Hx Hr).
    destruct (Z_le_gt_dec 100 K) as [L | G]; [exact L|].
    assert (2 * T * K <= 2 * T * 99) by (apply Z.mul_le_mono_nonneg_l; lia).
    lia.
Qed.

Lemma percent_within_bounds_witness :
  exists p,
    percent Sample.halfway = Int p /\ 0 <= p <= 100
    /\ (elapsed_weeks Sample.halfway = 0 -> p = 0)
    /\ (elapsed_weeks Sample.halfway = total_weeks Sample.halfway -> p = 100).
Proof.
  apply (percent_within_bounds Sample.halfway);
    cbn [Sample.halfway elapsed_weeks total_weeks]; pow_lia.
Defined.

(** The product of two integers below 2^52 is computed exactly. *)
Lemma fmul_integers (a b : Z) :
  0 < a -> 0 < b -> a * b < 2 ^ 52 ->
  Math_round (fmul (toFloat (Int a)) (toFloat (Int b))) = Int (a * b).
Proof.
  intros Ha Hb Hab.
  assert (a <= a * b) as Ha' by (rewrite <- (Z.mul_1_r a) at 1;
                                 apply Z.mul_le_mono_nonneg_l; lia).
  assert (b <= a * b) as Hb' by (rewrite <- (Z.mul_1_l b) at 1;
                                 apply Z.mul_le_mono_nonneg_r; lia).
  destruct (toFloat_normal a ltac:(pow_lia)) as [m1 [k1 [F1 [K1 [M1 B1]]]]].
  destruct (toFloat_normal b ltac:(pow_lia)) as [m2 [k2 [F2 [K2 [M2 B2]]]]].
  assert (0 < Zdigits2 a <= 53 /\ 0 < Zdigits2 b <= 53) as [Da Db].
  { destruct a as [|p|p], b as [|q|q]; try lia. cbn [Zdigits2].
    pose proof (digits2_bounds p) as Hp. pose proof (digits2_bounds q) as Hq.
    split; split; try lia.
    - apply Z.nlt_ge. intros L.
      assert (2 ^ 53 <= 2 ^ (Zpos (digits2_pos p) - 1))
        by (apply Z.pow_le_mono_r; lia). lia.
    - apply Z.nlt_ge. intros L.
      assert (2 ^ 53 <= 2 ^ (Zpos (digits2_pos q) - 1))
        by (apply Z.pow_le_mono_r; lia). lia. }
  rewrite F1, F2.
  destruct (fmul_spec m1 m2 (- k1) (- k2) B1 B2 ltac:(lia))
    as [m [n [F [Hn [Bm Hm]]]]].
  rewrite F. clear F F1 F2.
  set (K := k1 + k2) in *.
  assert (0 <= K) as HK by (unfold K; lia).
  assert (Zpos m1 * Zpos m2 = a * b * 2 ^ K) as HP.
  { rewrite M1, M2. unfold K. rewrite Z.pow_add_r by lia. ring. }
  rewrite HP in Hm.
  assert (n <= K) as HnK.
  { apply Z.nlt_ge. intros L.
    assert (2 ^ K <= 2 ^ (n - 1)) as H1 by (apply Z.pow_le_mono_r; lia).
    assert (2 ^ n = 2 * 2 ^ (n - 1)) as H2
      by (rewrite <- Z.pow_succ_r by lia; f_equal; lia).
    assert (0 < 2 ^ K) as H3 by (apply Z.pow_pos_nonneg; lia).
    assert (a * b * 2 ^ K <= (2 ^ 52 - 1) * 2 ^ K) as H4
      by (apply Z.mul_le_mono_nonneg_r; lia).
    assert (2 ^ 52 * 2 ^ n <= Zpos m * 2 ^ n) as H5
      by (apply Z.mul_le_mono_nonneg_r; lia).
    revert Hm H1 H2 H3 H4 H5.
    generalize (2 ^ K) (2 ^ n) (2 ^ (n - 1)) (a * b) (Zpos m).
    intros pK pn pn1 ab M. change (2 ^ 52) with 4503599627370496. lia. }
  assert (2 ^ K = 2 ^ (K - n) * 2 ^ n) as HS
    by (rewrite <- Z.pow_add_r by lia; f_equal; lia).
  assert (Zpos m = a * b * 2 ^ (K - n)) as Hexact.
  { assert (0 < 2 ^ n) as Hpn by (apply Z.pow_pos_nonneg; lia).
    rewrite HS in Hm.
    replace (Zpos m * 2 ^ n - a * b * (2 ^ (K - n) * 2 ^ n))
      with ((Zpos m - a * b * 2 ^ (K - n)) * 2 ^ n) in Hm by ring.
    rewrite Z.abs_mul, (Z.abs_eq (2 ^ n)) in Hm by lia.
    assert (Z.abs (Zpos m - a * b * 2 ^ (K - n)) < 1) as Hlt.
    { apply Z.nle_gt. intros L.
      assert (1 * 2 ^ n <= Z.abs (Zpos m - a * b * 2 ^ (K - n)) * 2 ^ n)
        by (apply Z.mul_le_mono_nonneg_r; lia).
      lia. }
    lia. }
  replace (- k1 + - k2 + n) with (- (K - n)) by (unfold K; lia).
  destruct (Z.eq_dec (K - n) 0) as [G0 | G0].
  - rewrite G0 in *. cbn [Z.opp]. unfold Math_round.
    cbn [Z.leb Z.compare andb]. rewrite andb_false_r.
    rewrite Hexact. f_equal. change (2 ^ 0) with 1. ring.
  - rewrite (Math_round_finite m (K - n)) by lia. f_equal.
    rewrite Hexact.
    assert (0 < 2 ^ (K - n)) as Hpg by (apply Z.pow_pos_nonneg; lia).
    symmetry.
    apply (Z.div_unique _ _ (a * b) (2 ^ (K - n))); [lia | ring].
Qed.

(** X17. With an integer [devicePixelRatio] (1, 2, 3 on common displays)
    [detectScreenResolution] fills the width and height inputs with the
    exact products of the screen size and the ratio, in decimal digits; the
    other inputs stay, the toast announces the detection and nothing is sent
    to the backend. *)
Theorem detectScreenResolution_integer_ratio (s : Client) (ratio : Z) :
  0 < screenWidth (screen s) -> 0 < screenHeight (screen s) -> 0 < ratio ->
  screenWidth (screen s) * ratio < 2 ^ 52 ->
  screenHeight (screen s) * ratio < 2 ^ 52 ->
  devicePixelRatio (screen s) = toFloat (Int ratio) ->
  let s' := detectScreenResolution s in
  widthInput (form s') = decimal (screenWidth (screen s) * ratio)
  /\ heightInput (form s') = decimal (screenHeight (screen s) * ratio)
  /\ parseInt (widthInput (form s')) = Int (screenWidth (screen s) * ratio)
  /\ parseInt (heightInput (form s')) = Int (screenHeight (screen s) * ratio)
  /\ dobInput (form s') = dobInput (form s)
  /\ lifespanInput (form s') = lifespanInput (form s)
  /\ monthsInput (form s') = monthsInput (form s)
  /\ toast s' = successToast "Screen resolution detected"
  /\ invoked s' = invoked s.
Proof.
  intros Hw Hh Hr Hwr Hhr Hd s'.
  assert (forall px, 0 < px -> px * ratio < 2 ^ 52 ->
            Number_toString
              (Math_round (fmul (toFloat (numberOf px))
                                (devicePixelRatio (screen s))))
            = decimal (px * ratio)
            /\ parseInt (decimal (px * ratio)) = Int (px * ratio)) as H.
  { intros px Hpx Hp.
    assert (px <= px * ratio) by (rewrite <- (Z.mul_1_r px) at 1;
                                  apply Z.mul_le_mono_nonneg_l; lia).
    assert (0 < px * ratio) by (apply Z.mul_pos_pos; lia).
    rewrite numberOf_small by pow_lia.
    rewrite Hd, (fmul_integers px ratio Hpx Hr Hp).
    unfold Number_toString.
    replace (px * ratio <? 0) with false by (symmetry; apply Z.ltb_ge; lia).
    rewrite magnitudeToString_small by pow_lia.
    split; [reflexivity|].
    pose proof (parseInt_toString (px * ratio) ltac:(lia) ltac:(pow_lia)) as P.
    unfold Number_toString in P.
    replace (px * ratio <? 0) with false in P
      by (symmetry; apply Z.ltb_ge; lia).
    rewrite magnitudeToString_small in P by pow_lia.
    exact P. }
  destruct (H _ Hw Hwr) as [W1 W2]. destruct (H _ Hh Hhr) as [H1 H2].
  subst s'. unfold detectScreenResolution.
  cbn [showToast form set_form set_toast set_timers widthInput heightInput
       dobInput lifespanInput monthsInput toast invoked].
  rewrite W1, H1, W2, H2. repeat split; reflexivity.
Qed.

Lemma detectScreenResolution_integer_ratio_witness :
  screenWidth (screen Sample.page) = 1280
  /\ screenHeight (screen Sample.page) = 720
  /\ devicePixelRatio (screen Sample.page) = toFloat (Int 1)
  /\ widthInput (form (detectScreenResolution Sample.page)) = "1280"
  /\ heightInput (form (detectScreenResolution Sample.page)) = "720".
Proof.
  split; [reflexivity|]. split; [reflexivity|]. split; [reflexivity|].
  destruct (detectScreenResolution_integer_ratio Sample.page 1
              eq_refl eq_refl eq_refl eq_refl eq_refl eq_refl)
    as [W [H _]].
  split; [rewrite W | rewrite H]; vm_compute; reflexivity.
Defined.

(** ** Properties of the website script *)

Lemma find_some (test : string -> bool) (assets : list Website.Asset)
      (found : Website.Asset) :
  Website.find test assets = Some found ->
  test (Website.name found) = true
  /\ exists before after,
       assets = (before ++ found :: after)%list
       /\ forall a, In a before -> test (Website.name a) = false.
Proof.
  induction assets as [|a rest IH]; [discriminate|]. cbn [Website.find].
  destruct (test (Website.name a)) eqn:E.
  - intros [= <-]. split; [exact E|]. exists [], rest.
    split; [reflexivity|]. intros ? [].
  - intros H. destruct (IH H) as [Ht [before [after [-> Hb]]]].
    split; [exact Ht|]. exists (a :: before), after. split; [reflexivity|].
    intros b [<- | Hin]; [exact E | now apply Hb].
Qed.

Lemma find_none (test : string -> bool) (assets : list Website.Asset) :
  Website.find test assets = None
  <-> forall a, In a assets -> test (Website.name a) = false.
Proof.
  induction assets as [|a rest IH]; cbn [Website.find].
  - split; [intros _ ? [] | reflexivity].
  - destruct (test (Website.name a)) eqn:E.
    + split; [discriminate|]. intros H.
      rewrite (H a (or_introl eq_refl)) in E. discriminate E.
    + rewrite IH. split.
      * intros H b [<- | Hin]; [exact E | now apply H].
      * intros H b Hin. apply H. now right.
Qed.

(** X18. [pickAsset] lets the order of the patterns decide before the order
    of the assets: the asset it returns is the first asset matched by the
    first pattern that matches any asset at all, and it returns [null]
    exactly when no pattern matches any asset. *)
Theorem pickAsset_prefers_patterns (assets : list Website.Asset)
        (patterns : list (string -> bool)) :
  (forall found, Website.pickAsset assets patterns = Some found ->
     exists earlier pattern later before after,
       patterns = (earlier ++ pattern :: later)%list
       /\ assets = (before ++ found :: after)%list
       /\ pattern (Website.name found) = true
       /\ (forall a, In a before -> pattern (Website.name a) = false)
       /\ (forall q a, In q earlier -> In a assets ->
             q (Website.name a) = false))
  /\ (Website.pickAsset assets patterns = None
      <-> forall pattern a, In pattern patterns -> In a assets ->
            pattern (Website.name a) = false).
Proof.
  induction patterns as [|p rest [IH1 IH2]]; cbn [Website.pickAsset].
  - split; [discriminate|]. split; [intros _ ? ? [] | reflexivity].
  - destruct (Website.find p assets) as [hit|] eqn:E.
    + destruct (find_some _ _ _ E) as [Ht [before [after [Ha Hb]]]]. split.
      * intros found [= <-]. exists [], p, rest, before, after.
        repeat split; try assumption. intros ? ? [].
      * split; [discriminate|]. intros H.
        rewrite (H p hit (or_introl eq_refl)) in Ht; [discriminate Ht|].
        rewrite Ha. apply in_or_app. right. now left.
    + pose proof (proj1 (find_none _ _) E) as Hn. split.
      * intros found H.
        destruct (IH1 found H)
          as [earlier [q [later [before [after [-> [Ha [Hq [Hb He]]]]]]]]].
        exists (p :: earlier), q, later, before, after.
        repeat split; try assumption.
        intros q' a [<- | Hin] Hin'; [now apply Hn | now apply He].
      * rewrite IH2. split.
        -- intros H q a [<- | Hin] Hin'; [now apply Hn | now apply H].
        -- intros H q a Hin. apply H. now right.
Qed.

Lemma toLowerCase_app (s t : string) :
  Website.toLowerCase (s ++ t)
  = Website.toLowerCase s ++ Website.toLowerCase t.
Proof.
  induction s as [|c r IH]; [reflexivity|].
  cbn [append Website.toLowerCase]. now rewrite IH.
Qed.

Lemma startsWith_app (w t : string) : Website.startsWith (w ++ t) w = true.
Proof.
  induction w as [|c r IH]; [destruct t; reflexivity|].
  cbn [append Website.startsWith]. now rewrite Ascii.eqb_refl, IH.
Qed.

Lemma includes_app (pre w post : string) :
  Website.includes (pre ++ w ++ post) w = true.
Proof.
  induction pre as [|c r IH].
  - cbn [append]. destruct (w ++ post) eqn:E;
      cbn [Website.includes]; rewrite <- E, startsWith_app; reflexivity.
  - cbn [append Website.includes]. rewrite IH. apply orb_true_r.
Qed.

(** X19. [detectPlatform] answers "windows" as soon as the letters [win], in
    any case, occur anywhere in the user agent or in [navigator.platform]:
    the test for Windows comes first, so a user agent that names Darwin is
    taken for Windows whatever else it says. *)
Theorem detectPlatform_win_anywhere (navigator : Website.Navigator)
        (pre w post : string) :
  Website.toLowerCase w = "win" ->
  Website.userAgent navigator = pre ++ w ++ post
  \/ Website.platform navigator = Some (pre ++ w ++ post) ->
  Website.detectPlatform navigator = "windows".
Proof.
  intros Hw H. unfold Website.detectPlatform.
  destruct H as [-> | ->]; rewrite !toLowerCase_app, Hw, includes_app.
  - reflexivity.
  - now rewrite orb_true_r.
Qed.

Lemma detectPlatform_win_anywhere_witness :
  Website.detectPlatform
    {| Website.userAgent := "Safari (Macintosh; Darwin 20.1) arm64";
       Website.platform := Some "MacIntel";
       Website.userAgentData := None |} = "windows".
Proof.
  apply (detectPlatform_win_anywhere _ "Safari (Macintosh; Dar" "win"
           " 20.1) arm64"); [reflexivity|]. left. reflexivity.
Defined.
